(** * Host scoring of the renter's host database, and the contracts listing

    A shallow embedding of the [hostdb] weight functions (collateral, price,
    storage, version, lifetime, uptime and interaction adjustments, their
    combination into a host weight, and the score estimate) and of the
    classification done by the [/renter/contracts] handler.

    Go's [float64] is IEEE-754 binary64: it is modelled by the primitive
    type [float], whose operations are specified against [SpecFloat].
    Unsigned 64-bit quantities and [types.Currency] (a non-negative big
    integer) are modelled in [N]; [time.Duration] is a signed 64-bit [Z]
    whose wrap-around is written out.  A run-time panic (a division of a
    [Currency] by zero, a [Critical] log in a debug build) is [None]. *)

From Stdlib Require Import ZArith NArith List Bool Lia String Ascii Sorted.
From Stdlib Require Import Floats.
Import ListNotations.

Set Warnings "-inexact-float".

Declare Scope go_scope.
Delimit Scope go_scope with go.

(** ** The panic monad *)

Definition bind {A B : Type} (c : option A) (k : A -> option B) : option B :=
  match c with
  | Some a => k a
  | None => None
  end.

Notation "x <- c ;; k" := (bind c (fun x => k))
  (at level 61, c at next level, right associativity) : go_scope.

Open Scope go_scope.

(** ** float64 *)

Module F64.

(** [float64(n)] for an integer [n]: the nearest double, ties to even. *)
Definition of_Z (z : Z) : float :=
  SF2Prim (binary_normalize prec emax z 0 false).

Definition of_N (n : N) : float := of_Z (Z.of_N n).

(** The integer part of a finite float, truncated toward zero, as Go's
    conversion [int64(f)] computes it when the value is in range. *)
Definition to_Z (f : float) : Z :=
  match Prim2SF f with
  | S754_finite s m e =>
      let a := match e with
               | Zneg p => Z.shiftr (Zpos m) (Zpos p)
               | _ => Z.shiftl (Zpos m) e
               end in
      if s then Z.opp a else a
  | _ => 0%Z
  end.

Definition SmallestNonzeroFloat64 : float := Z.ldexp 1 (-1074).

Definition MaxUint64 : N := 18446744073709551615.

(** Classes of floats, read off the IEEE-754 datum: not negative (a zero
    of either sign, a positive number or plus infinity, but not a NaN);
    finite and not negative; finite and positive. *)
Definition not_negative (x : spec_float) : bool :=
  match x with
  | S754_finite true _ _ | S754_infinity true | S754_nan => false
  | _ => true
  end.

Definition is_nonneg (x : float) : bool := not_negative (Prim2SF x).

Definition is_nonneg_finite (x : float) : bool :=
  match Prim2SF x with
  | S754_zero _ | S754_finite false _ _ => true
  | _ => false
  end.

Definition is_positive_finite (x : float) : bool :=
  match Prim2SF x with
  | S754_finite false _ _ => true
  | _ => false
  end.

End F64.

(** ** The rounding of SpecFloat, in closed form *)

Module Round.

(** The float that [binary_round_aux] builds from the final mantissa and
    exponent. *)
Definition pack (s : bool) (m e : Z) : spec_float :=
  match m with
  | Z0 => S754_zero s
  | Zpos p => if (e <=? emax - prec)%Z then S754_finite s p e else S754_infinity s
  | Zneg _ => S754_nan
  end.

(** A float that is not a NaN and has the given sign. *)
Definition signed (s : bool) (x : spec_float) : Prop :=
  match x with
  | S754_zero s' | S754_infinity s' | S754_finite s' _ _ => s' = s
  | S754_nan => False
  end.

Definition sf_one : spec_float := S754_finite false 4503599627370496 (-52).

(** Round to nearest, ties to even, of [m / 2^n]. *)
Definition rne (m n : Z) : Z :=
  let q := (m / 2 ^ n)%Z in
  let rem := (m mod 2 ^ n)%Z in
  if (2 ^ n <? 2 * rem)%Z || ((2 * rem =? 2 ^ n)%Z && Z.odd q) then (q + 1)%Z else q.

(** Finite and not negative, on the IEEE-754 datum. *)
Definition finite_nonneg (x : spec_float) : bool :=
  match x with
  | S754_zero _ | S754_finite false _ _ => true
  | _ => false
  end.

End Round.

(** ** The parts of Go's [math] package that the scoring code calls *)

Module math.

Local Open Scope float_scope.

Definition IsNaN (f : float) : bool := is_nan f.

Definition IsInf (f : float) (sign : Z) : bool :=
  ((0 <=? sign)%Z && (f =? infinity)) || ((sign <=? 0)%Z && (f =? neg_infinity)).

Definition Signbit (f : float) : bool := get_sign f.

(** [math.Min]: the smaller of two floats, with the library's special cases. *)
Definition Min (x y : float) : float :=
  if IsInf x (-1) || IsInf y (-1) then neg_infinity
  else if IsNaN x || IsNaN y then nan
  else if (x =? 0) && (x =? y) then (if Signbit x then x else y)
  else if x <? y then x else y.

(** [math.Modf] on a non-negative argument: integer and fractional part. *)
Definition Modf (f : float) : float * float :=
  if f <? 1 then (0, f)
  else if is_finite f then let i := F64.of_Z (F64.to_Z f) in (i, f - i)
  else (f, nan).

Definition isOddInt (x : float) : bool :=
  let '(xi, xf) := Modf (abs x) in
  (xf =? 0) && Z.odd (F64.to_Z xi).

Definition Frexp (f : float) : float * Z :=
  if (f =? 0) || negb (is_finite f) then (f, 0%Z) else Z.frexp f.

Definition Ldexp (frac : float) (e : Z) : float :=
  if (frac =? 0) || negb (is_finite frac) then frac else Z.ldexp frac e.

(** Go's portable [exp] (FreeBSD's e_exp.c). *)
Definition expmulti (hi lo : float) (k : Z) : float :=
  let P1 := 1.66666666666666657415e-01 in
  let P2 := -2.77777777770155933842e-03 in
  let P3 := 6.61375632143793436117e-05 in
  let P4 := -1.65339022054652515390e-06 in
  let P5 := 4.13813679705723846039e-08 in
  let r := hi - lo in
  let t := r * r in
  let c := r - t * (P1 + t * (P2 + t * (P3 + t * (P4 + t * P5)))) in
  let y := 1 - ((lo - (r * c) / (2 - c)) - hi) in
  Ldexp y k.

Definition Exp (x : float) : float :=
  let Ln2Hi := 6.93147180369123816490e-01 in
  let Ln2Lo := 1.90821492927058770002e-10 in
  let Log2e := 1.44269504088896338700e+00 in
  let Overflow := 7.09782712893383973096e+02 in
  let Underflow := -7.45133219101941108420e+02 in
  let NearZero := 1 / 268435456 in
  if IsNaN x || IsInf x 1 then x
  else if IsInf x (-1) then 0
  else if Overflow <? x then infinity
  else if x <? Underflow then 0
  else if (- NearZero <? x) && (x <? NearZero) then 1 + x
  else
    let k := if x <? 0 then F64.to_Z (Log2e * x - 0.5)
             else if 0 <? x then F64.to_Z (Log2e * x + 0.5)
             else 0%Z in
    let hi := x - F64.of_Z k * Ln2Hi in
    let lo := F64.of_Z k * Ln2Lo in
    expmulti hi lo k.

(** Go's portable [log] (FreeBSD's e_log.c). *)
Definition Log (x : float) : float :=
  let Ln2Hi := 6.93147180369123816490e-01 in
  let Ln2Lo := 1.90821492927058770002e-10 in
  let L1 := 6.666666666666735130e-01 in
  let L2 := 3.999999999940941908e-01 in
  let L3 := 2.857142874366239149e-01 in
  let L4 := 2.222219843214978396e-01 in
  let L5 := 1.818357216161805012e-01 in
  let L6 := 1.531383769920937332e-01 in
  let L7 := 1.479819860511658591e-01 in
  if IsNaN x || IsInf x 1 then x
  else if x <? 0 then nan
  else if x =? 0 then neg_infinity
  else
    let '(f1, ki) := Frexp x in
    let '(f1, ki) := if f1 <? sqrt 2 / 2 then (f1 * 2, (ki - 1)%Z) else (f1, ki) in
    let f := f1 - 1 in
    let k := F64.of_Z ki in
    let s := f / (2 + f) in
    let s2 := s * s in
    let s4 := s2 * s2 in
    let t1 := s2 * (L1 + s4 * (L3 + s4 * (L5 + s4 * L7))) in
    let t2 := s4 * (L2 + s4 * (L4 + s4 * L6)) in
    let R := t1 + t2 in
    let hfsq := 0.5 * f * f in
    k * Ln2Hi - ((hfsq - (s * (hfsq + R) + k * Ln2Lo)) - f).

(** The loop of [pow] over the bits of the integer part [i] of the
    exponent: [ans = a1 * 2**ae].  The loop runs once per bit of a
    number below 2^63, so 63 rounds of fuel always suffice. *)
Fixpoint powLoop (fuel : nat) (i : Z) (a1 : float) (ae : Z) (x1 : float) (xe : Z)
  : float * Z :=
  match fuel with
  | O => (a1, ae)
  | S fuel' =>
      if (i =? 0)%Z then (a1, ae)
      else
        let '(a1, ae) := if Z.odd i then (a1 * x1, (ae + xe)%Z) else (a1, ae) in
        let x1 := x1 * x1 in
        let xe := Z.shiftl xe 1 in
        let '(x1, xe) := if x1 <? 0.5 then (x1 + x1, (xe - 1)%Z) else (x1, xe) in
        powLoop fuel' (Z.shiftr i 1) a1 ae x1 xe
  end.

(** [math.Pow], Go's portable implementation. *)
Definition Pow (x y : float) : float :=
  if (y =? 0) || (x =? 1) then 1
  else if y =? 1 then x
  else if y =? 0.5 then sqrt x
  else if y =? -0.5 then 1 / sqrt x
  else if IsNaN x || IsNaN y then nan
  else if x =? 0 then
    (if y <? 0 then (if isOddInt y then (if Signbit x then neg_infinity else infinity)
                     else infinity)
     else (if isOddInt y then x else 0))
  else if IsInf y 0 then
    (if x =? -1 then 1
     else if Bool.eqb (abs x <? 1) (IsInf y 1) then 0
     else infinity)
  else if IsInf x 0 then
    (if IsInf x (-1) then
       (* Pow(1/x, -y), that is Pow(-0, -y) *)
       (if (- y) <? 0 then (if isOddInt y then neg_infinity else infinity)
        else (if isOddInt y then neg_zero else 0))
     else if y <? 0 then 0 else infinity)
  else
    let flip := y <? 0 in
    let absy := if flip then - y else y in
    let '(yi, yf) := Modf absy in
    if negb (yf =? 0) && (x <? 0) then nan
    else if 9223372036854775808 <=? yi then Exp (y * Log x)
    else
      let '(a1, yi) :=
        if negb (yf =? 0) then
          let '(yf, yi) := if 0.5 <? yf then (yf - 1, yi + 1) else (yf, yi) in
          (Exp (yf * Log x), yi)
        else (1, yi) in
      let '(x1, xe) := Frexp x in
      let '(a1, ae) := powLoop 64 (F64.to_Z yi) a1 0%Z x1 xe in
      let '(a1, ae) := if flip then (1 / a1, (- ae)%Z) else (a1, ae) in
      Ldexp a1 ae.

End math.

(** ** [types]: currency and block heights *)

Module types.

Local Open Scope N_scope.

(** Modelled from the spec: [types.Currency] is not among the sources.
    The spec has currency values as non-negative arbitrary-precision
    integers; the operations are the big-integer ones the scoring code
    calls, a division by zero being a run-time panic. *)
Definition Currency : Type := N.

Definition BlockHeight : Type := N.

Bind Scope N_scope with Currency BlockHeight.

Definition NewCurrency64 (x : N) : Currency := x.

Definition Add (x y : Currency) : Currency := N.add x y.

Definition Mul64 (x : Currency) (y : N) : Currency := N.mul x y.

Definition Div (x y : Currency) : option Currency :=
  if N.eqb y 0 then None else Some (N.div x y).

Definition Div64 (x : Currency) (y : N) : option Currency :=
  if N.eqb y 0 then None else Some (N.div x y).

(** [x.Cmp(y)]: -1, 0 or 1. *)
Definition Cmp (x y : Currency) : Z :=
  match N.compare x y with
  | Lt => (-1)%Z
  | Eq => 0%Z
  | Gt => 1%Z
  end.

Definition IsZero (x : Currency) : bool := N.eqb x 0.

(** [x.Uint64()]: the value and no error, or zero and [ErrUint64Overflow]
    (here [true]). *)
Definition Uint64 (x : Currency) : N * bool :=
  if (0 <? Cmp x (NewCurrency64 F64.MaxUint64))%Z then (0, true) else (x, false).

(** Modelled from the spec: the precision of one coin is a constant of
    the [types] package, which is not among the sources; 10^24 is the
    value of the network this code base derives from. *)
Definition SiacoinPrecision : Currency := 10 ^ 24.

(** Modelled from the spec: [Currency.MulFloat] is not among the sources.
    The spec has the weight as the integer (base * factor), truncated
    toward zero, for a non-negative factor; any other factor gives the
    zero currency here. *)
Definition MulFloat (c : Currency) (x : float) : Currency :=
  match Prim2SF x with
  | S754_finite false m e =>
      match e with
      | Zneg p => N.shiftr (N.mul c (Npos m)) (Npos p)
      | _ => N.shiftl (N.mul c (Npos m)) (Z.to_N e)
      end
  | _ => 0
  end.

End types.

(** ** [build]: release flavour, debug flag, version comparison *)

Module build.

Inductive ReleaseType := Standard | Dev | Testing.

(** [build.Select(build.Var{Standard: s, Dev: d, Testing: t})]. *)
Definition Select {A : Type} (release : ReleaseType) (s d t : A) : A :=
  match release with
  | Standard => s
  | Dev => d
  | Testing => t
  end.

(** Modelled from the spec: [build.VersionCmp] is not among the sources
    (its only call sites are in the disabled version table).  A version
    is compared component by component as decimal numbers, a shorter
    version that is a prefix of a longer one being the smaller. *)
Fixpoint splitDots (acc : N) (s : string) : list N :=
  match s with
  | EmptyString => [acc]
  | String c rest =>
      if Ascii.eqb c "."%char then acc :: splitDots 0%N rest
      else splitDots (10 * acc + (N_of_ascii c - 48))%N rest
  end.

Fixpoint cmpNums (a b : list N) : Z :=
  match a, b with
  | [], [] => 0%Z
  | [], _ :: _ => (-1)%Z
  | _ :: _, [] => 1%Z
  | x :: a', y :: b' =>
      if (x <? y)%N then (-1)%Z
      else if (y <? x)%N then 1%Z
      else cmpNums a' b'
  end.

Definition VersionCmp (a b : string) : Z :=
  cmpNums (splitDots 0%N a) (splitDots 0%N b).

End build.

(** ** [time]: instants and durations, in nanoseconds *)

Module time.

Local Open Scope Z_scope.

Definition Time : Type := Z.
Definition Duration : Type := Z.

Bind Scope Z_scope with Time Duration.

Definition minDuration : Duration := - 2 ^ 63.
Definition maxDuration : Duration := 2 ^ 63 - 1.

(** Two's-complement wrap-around of signed 64-bit arithmetic. *)
Definition wrap64 (z : Z) : Z := (z + 2 ^ 63) mod 2 ^ 64 - 2 ^ 63.

Definition After (t u : Time) : bool := u <? t.

(** [t.Sub(u)]: the difference, saturated to the range of a duration. *)
Definition Sub (t u : Time) : Duration :=
  Z.max minDuration (Z.min maxDuration (t - u)).

Definition add (d e : Duration) : Duration := wrap64 (d + e).

End time.

(** ** [modules]: host entries, allowances, contracts *)

Module modules.

Record HostDBScan := {
  Timestamp : time.Time;
  Success : bool
}.

Record HostDBEntry := {
  Collateral : types.Currency;
  MaxCollateral : types.Currency;
  ContractPrice : types.Currency;
  StoragePrice : types.Currency;
  UploadBandwidthPrice : types.Currency;
  DownloadBandwidthPrice : types.Currency;
  RemainingStorage : N;
  Version : string;
  FirstSeen : types.BlockHeight;
  HistoricDowntime : time.Duration;
  HistoricUptime : time.Duration;
  ScanHistory : list HostDBScan;
  HistoricFailedInteractions : float;
  HistoricSuccessfulInteractions : float
}.

Record Allowance := {
  Funds : types.Currency;
  Hosts : N;
  Period : types.BlockHeight;
  RenewWindow : types.BlockHeight
}.

(** The score breakdown, without the conversion rate (which is computed
    from the weights of all active hosts of the host tree). *)
Record HostScoreBreakdown := {
  Score : types.Currency;
  AgeAdjustment : float;
  BurnAdjustment : float;
  CollateralAdjustment : float;
  InteractionAdjustment : float;
  PriceAdjustment : float;
  StorageRemainingAdjustment : float;
  UptimeAdjustment : float;
  VersionAdjustment : float
}.

Record ContractUtility := {
  GoodForUpload : bool;
  GoodForRenew : bool
}.

Record RenterContract := {
  ID : N;
  HostPublicKey : N;
  StartHeight : types.BlockHeight;
  EndHeight : types.BlockHeight;
  RenterFunds : types.Currency;
  DownloadSpending : types.Currency;
  StorageSpending : types.Currency;
  UploadSpending : types.Currency;
  Utility : ContractUtility;
  TxnFee : types.Currency;
  ContractFee : types.Currency;
  TotalCost : types.Currency
}.

End modules.

(** ** [hostdb]: the weight of a host *)

Module hostdb.

Import modules.

Record HostDB := {
  blockHeight : types.BlockHeight
}.

(** Because most weights would otherwise be fractional, the base weight
    is very large. *)
Definition baseWeight : types.Currency := (10 ^ 80)%N.

Definition priceExponentiation : float := 5.0%float.

Definition collateralExponentiationLarge : float := 0.65%float.

Definition collateralExponentiationSmall : float :=
  (priceExponentiation + 0.5)%float.

(** The number of bytes in a terabyte times the number of blocks in a month. *)
Definition tbMonth : N := (4032 * 1000000000000)%N.

Definition minTotalPrice : types.Currency :=
  N.div (types.Mul64 types.SiacoinPrecision 1) tbMonth.

Definition priceDivNormalization : types.Currency :=
  N.div (N.div types.SiacoinPrecision 100000) tbMonth.

Definition expectedStorage : N := 25000000000%N.
Definition expectedUploadFrequency : N := 24192%N.
Definition expectedDownloadFrequency : N := 12096%N.

Section Weights.

(** [math.Pow] and [Currency.MulFloat] are library code; the build
    flags are fixed at compile time. *)
Variable Pow : float -> float -> float.
Variable MulFloat : types.Currency -> float -> types.Currency.
Variable DEBUG : bool.
Variable Release : build.ReleaseType.

Definition requiredStorage : N :=
  build.Select Release 20000000000%N 1000000%N 1000%N.

(** The guard at the head of [collateralAdjustments]:
    [if v == 0 { v = 1 }]. *)
Definition orOne (v : N) : N := if N.eqb v 0 then 1%N else v.

(** The collateral that [collateralAdjustments] scores with, for a
    period and an expected storage that already went through the guard. *)
Definition hostCollateralFor (entry : HostDBEntry) (period expectedStorage : N)
  : option types.Currency :=
  let hostCollateral := Collateral entry in
  let requiredCollateral :=
    types.Mul64 (types.Mul64 (Collateral entry) period) expectedStorage in
  half <- types.Div64 (MaxCollateral entry) 2 ;;
  if (types.Cmp requiredCollateral half <? 0)%Z then
    a <- types.Div64 (MaxCollateral entry) period ;;
    b <- types.Div64 a expectedStorage ;;
    types.Div64 b 2
  else Some hostCollateral.

Definition cutoffFor (allowance : Allowance) (hosts period expectedStorage : N)
           (hostCollateral : types.Currency) : option types.Currency :=
  a <- types.Div64 (Funds allowance) hosts ;;
  b <- types.Div64 a period ;;
  c <- types.Div64 b expectedStorage ;;
  cutoff <- types.Div64 c 3 ;;
  Some (if (types.Cmp cutoff hostCollateral <? 0)%Z then hostCollateral else cutoff).

(** The two normalised 64-bit values the float part works on; the
    error of [Uint64] is dropped, and a zero cutoff becomes one. *)
Definition normalized64 (hostCollateral cutoff : types.Currency) : option (N * N) :=
  c <- types.Div hostCollateral priceDivNormalization ;;
  let collateral64 := fst (types.Uint64 c) in
  k <- types.Div cutoff priceDivNormalization ;;
  let cutoff64 := fst (types.Uint64 k) in
  let cutoff64 := if N.eqb cutoff64 0 then 1%N else cutoff64 in
  Some (collateral64, cutoff64).

Definition collateralWeight (collateral64 cutoff64 : N) : float :=
  let ratio := (F64.of_N collateral64 / F64.of_N cutoff64)%float in
  let smallWeight := Pow (F64.of_N cutoff64) collateralExponentiationSmall in
  let largeWeight := Pow ratio collateralExponentiationLarge in
  (smallWeight * largeWeight)%float.

(** [collateralAdjustments] improves the host's weight according to the
    amount of collateral that they have provided. *)
Definition collateralAdjustments (entry : HostDBEntry) (allowance : Allowance)
           (expectedStorage : N) : option float :=
  let hosts := orOne (Hosts allowance) in
  let period := orOne (Period allowance) in
  let expectedStorage := orOne expectedStorage in
  hostCollateral <- hostCollateralFor entry period expectedStorage ;;
  cutoff <- cutoffFor allowance hosts period expectedStorage hostCollateral ;;
  n <- normalized64 hostCollateral cutoff ;;
  Some (collateralWeight (fst n) (snd n)).

(** [interactionAdjustments]: the penalty for the historic interactions
    with the host. *)
Definition interactionAdjustments (entry : HostDBEntry) : float :=
  let hsi := (HistoricSuccessfulInteractions entry + 30)%float in
  let hfi := (HistoricFailedInteractions entry + 1)%float in
  let ratio := (hsi / (hsi + hfi))%float in
  Pow ratio 15.

(** The total price of [priceAdjustments], before the minimum is set. *)
Definition totalPriceOf (entry : HostDBEntry) (allowance : Allowance)
           (expectedStorage expectedUploadFrequency expectedDownloadFrequency : N)
  : option types.Currency :=
  a <- types.Div64 (ContractPrice entry) (Period allowance) ;;
  adjustedContractPrice <- types.Div64 a expectedStorage ;;
  adjustedUploadPrice <-
    types.Div64 (UploadBandwidthPrice entry) expectedUploadFrequency ;;
  b <- types.Div64 (DownloadBandwidthPrice entry) expectedDownloadFrequency ;;
  adjustedDownloadPrice <- types.Div64 b 3 ;;
  Some (types.Add (types.Add (types.Add (StoragePrice entry) adjustedContractPrice)
                             adjustedUploadPrice)
                  adjustedDownloadPrice).

(** [c.Div(priceDivNormalization).Uint64()], an overflow giving
    [math.MaxUint64]. *)
Definition normalizedU64 (c : types.Currency) : option N :=
  q <- types.Div c priceDivNormalization ;;
  let '(u, err) := types.Uint64 q in
  Some (if err then F64.MaxUint64 else u).

(** [priceAdjustments] adjusts the weight of the entry according to the
    prices that it has set. *)
Definition priceAdjustments (entry : HostDBEntry) (allowance : Allowance)
           (expectedStorage expectedUploadFrequency expectedDownloadFrequency : N)
  : option float :=
  _ <- (if DEBUG then
          t <- types.Div64 minTotalPrice 1000 ;;
          if (types.Cmp t priceDivNormalization <? 0)%Z then None else Some tt
        else Some tt) ;;
  totalPrice <- totalPriceOf entry allowance expectedStorage
                             expectedUploadFrequency expectedDownloadFrequency ;;
  let totalPrice :=
    if (types.Cmp totalPrice minTotalPrice <? 0)%Z then minTotalPrice
    else totalPrice in
  baseU64 <- normalizedU64 minTotalPrice ;;
  actualU64 <- normalizedU64 totalPrice ;;
  let base := F64.of_N baseU64 in
  let actual := F64.of_N actualU64 in
  Some (Pow (base / actual)%float priceExponentiation).

(** [storageRemainingAdjustments] adjusts the weight of the entry
    according to how much storage it has remaining. *)
Definition storageRemainingAdjustments (entry : HostDBEntry) : float :=
  let lt (k : N) := N.ltb (RemainingStorage entry) (k * requiredStorage) in
  let base := 1%float in
  let base := if lt 200%N then (base / 2)%float else base in
  let base := if lt 150%N then (base / 2)%float else base in
  let base := if lt 100%N then (base / 2)%float else base in
  let base := if lt 80%N then (base / 2)%float else base in
  let base := if lt 40%N then (base / 2)%float else base in
  let base := if lt 20%N then (base / 2)%float else base in
  let base := if lt 15%N then (base / 2)%float else base in
  let base := if lt 10%N then (base / 2)%float else base in
  let base := if lt 5%N then (base / 2)%float else base in
  let base := if lt 3%N then (base / 2)%float else base in
  let base := if lt 2%N then (base / 2)%float else base in
  let base := if N.ltb (RemainingStorage entry) requiredStorage
              then (base / 2)%float else base in
  base.

(** [versionAdjustments]: the version table is commented out in the
    source, so the base is returned as it is. *)
Definition versionAdjustments (entry : HostDBEntry) : float :=
  let base := 1%float in
  base.

(** [lifetimeAdjustments] adjusts the weight of the host according to
    the time that has passed since the host's original announcement. *)
Definition lifetimeAdjustments (hdb : HostDB) (entry : HostDBEntry) : float :=
  let base := 1%float in
  if N.leb (FirstSeen entry) (blockHeight hdb) then
    let age := (blockHeight hdb - FirstSeen entry)%N in
    let base := if N.ltb age 12000 then (base * 2 / 3)%float else base in
    let base := if N.ltb age 6000 then (base / 2)%float else base in
    let base := if N.ltb age 4000 then (base / 2)%float else base in
    let base := if N.ltb age 2000 then (base / 2)%float else base in
    let base := if N.ltb age 1000 then (base / 3)%float else base in
    let base := if N.ltb age 576 then (base / 3)%float else base in
    let base := if N.ltb age 288 then (base / 3)%float else base in
    let base := if N.ltb age 144 then (base / 3)%float else base in
    base
  else base.

(** The state of the loop of [uptimeAdjustments] over the scans. *)
Record scanTotals := {
  uptime : time.Duration;
  downtime : time.Duration;
  recentTime : time.Time;
  recentSuccess : bool
}.

(** One round of the loop; an unsorted scan is skipped, after a
    [Critical] log that panics in a debug build. *)
Definition scanStep (acc : option scanTotals) (scan : HostDBScan)
  : option scanTotals :=
  a <- acc ;;
  if time.After (recentTime a) (Timestamp scan) then
    (if DEBUG then None else Some a)
  else
    let d := time.Sub (Timestamp scan) (recentTime a) in
    Some {| uptime := if recentSuccess a then time.add (uptime a) d else uptime a;
            downtime := if recentSuccess a then downtime a else time.add (downtime a) d;
            recentTime := Timestamp scan;
            recentSuccess := Success scan |}.

Definition measure (entry : HostDBEntry) (first : HostDBScan) (rest : list HostDBScan)
  : option scanTotals :=
  fold_left scanStep rest
            (Some {| uptime := HistoricUptime entry;
                     downtime := HistoricDowntime entry;
                     recentTime := Timestamp first;
                     recentSuccess := Success first |}).

(** The penalty computed from the measured times once there are at
    least three scans. *)
Definition uptimePenalty (uptime downtime : time.Duration) (scans : nat) : float :=
  if (uptime =? 0)%Z && (downtime =? 0)%Z then 0.001%float
  else
    let uptimeRatio :=
      (F64.of_Z uptime / F64.of_Z (time.add uptime downtime))%float in
    let uptimeRatio := if (0.98 <? uptimeRatio)%float then 0.98%float else uptimeRatio in
    let uptimeRatio := (uptimeRatio + 0.02)%float in
    let allowedDowntime := (0.03 * F64.of_Z (Z.of_nat scans))%float in
    let uptimeRatio :=
      if (uptimeRatio <? 1 - allowedDowntime)%float then (1 - allowedDowntime)%float
      else uptimeRatio in
    let exp := (200 * math.Min (1 - uptimeRatio) 0.30)%float in
    Pow uptimeRatio exp.

(** [uptimeAdjustments] penalizes the host for having poor uptime, and
    for being offline. *)
Definition uptimeAdjustments (entry : HostDBEntry) : option float :=
  match ScanHistory entry with
  | [] => Some 0.25%float
  | [s0] => Some (if Success s0 then 0.75 else 0.25)%float
  | [s0; s1] =>
      Some (if Success s0 && Success s1 then 0.85
            else if Success s0 || Success s1 then 0.50
            else 0.05)%float
  | s0 :: rest =>
      t <- measure entry s0 rest ;;
      Some (uptimePenalty (uptime t) (downtime t) (List.length (ScanHistory entry)))
  end.

Definition fullPenaltyOf (collateralReward interactionPenalty lifetimePenalty
                          pricePenalty storageRemainingPenalty uptimePenalty
                          versionPenalty : float) : float :=
  (collateralReward * interactionPenalty * lifetimePenalty *
   pricePenalty * storageRemainingPenalty * uptimePenalty * versionPenalty)%float.

(** [calculateHostWeightFn] creates the weight function of an allowance. *)
Definition calculateHostWeightFn (hdb : HostDB) (allowance : Allowance)
           (entry : HostDBEntry) : option types.Currency :=
  collateralReward <- collateralAdjustments entry allowance expectedStorage ;;
  let interactionPenalty := interactionAdjustments entry in
  let lifetimePenalty := lifetimeAdjustments hdb entry in
  pricePenalty <- priceAdjustments entry allowance expectedStorage
                                   expectedUploadFrequency expectedDownloadFrequency ;;
  let storageRemainingPenalty := storageRemainingAdjustments entry in
  uptimePenalty <- uptimeAdjustments entry ;;
  let versionPenalty := versionAdjustments entry in
  let fullPenalty :=
    fullPenaltyOf collateralReward interactionPenalty lifetimePenalty pricePenalty
                  storageRemainingPenalty uptimePenalty versionPenalty in
  let weight := MulFloat baseWeight fullPenalty in
  if types.IsZero weight then Some (types.NewCurrency64 1) else Some weight.

(** [EstimateHostScore] returns the estimated score of a host in the
    hostdb, assuming no penalties for age or uptime.  This is the
    function up to its [ConversionRate] field, which does not enter the
    score; [conversion.EstimateHostScore] adds the field and the call
    that computes it. *)
Definition EstimateHostScore (hdb : HostDB) (entry : HostDBEntry)
           (allowance : Allowance) : option HostScoreBreakdown :=
  collateralReward <- collateralAdjustments entry allowance expectedStorage ;;
  pricePenalty <- priceAdjustments entry allowance expectedStorage
                                   expectedUploadFrequency expectedDownloadFrequency ;;
  let storageRemainingPenalty := storageRemainingAdjustments entry in
  let versionPenalty := versionAdjustments entry in
  let fullPenalty :=
    (collateralReward * pricePenalty * storageRemainingPenalty * versionPenalty)%float in
  let estimatedScore := MulFloat baseWeight fullPenalty in
  let estimatedScore :=
    if types.IsZero estimatedScore then types.NewCurrency64 1 else estimatedScore in
  Some {| Score := estimatedScore;
          AgeAdjustment := 1;
          BurnAdjustment := 1;
          CollateralAdjustment := collateralReward;
          InteractionAdjustment := 0;
          PriceAdjustment := pricePenalty;
          StorageRemainingAdjustment := storageRemainingPenalty;
          UptimeAdjustment := 1;
          VersionAdjustment := versionPenalty |}.

End Weights.

End hostdb.

(** ** [api]: the listing of the renter's contracts *)

Module api.

Record RenterContract := {
  DownloadSpending : types.Currency;
  EndHeight : types.BlockHeight;
  Fees : types.Currency;
  GoodForUpload : bool;
  GoodForRenew : bool;
  HostPublicKey : N;
  ID : N;
  RenterFunds : types.Currency;
  StartHeight : types.BlockHeight;
  StorageSpending : types.Currency;
  StorageSpendingDeprecated : types.Currency;
  TotalCost : types.Currency;
  UploadSpending : types.Currency
}.

Record RenterContracts := {
  Contracts : list RenterContract;
  ActiveContracts : list RenterContract;
  InactiveContracts : list RenterContract;
  ExpiredContracts : list RenterContract
}.

(** The contract the handler builds from one of the renter's contracts
    (the last transaction, the file size read from it and the host's
    address are left out). *)
Definition build (c : modules.RenterContract) : RenterContract :=
  {| DownloadSpending := modules.DownloadSpending c;
     EndHeight := modules.EndHeight c;
     Fees := types.Add (modules.TxnFee c) (modules.ContractFee c);
     GoodForUpload := modules.GoodForUpload (modules.Utility c);
     GoodForRenew := modules.GoodForRenew (modules.Utility c);
     HostPublicKey := modules.HostPublicKey c;
     ID := modules.ID c;
     RenterFunds := modules.RenterFunds c;
     StartHeight := modules.StartHeight c;
     StorageSpending := modules.StorageSpending c;
     StorageSpendingDeprecated := modules.StorageSpending c;
     TotalCost := modules.TotalCost c;
     UploadSpending := modules.UploadSpending c |}.

(** The body of the loop over [api.renter.Contracts()]. *)
Definition stepContract (inactive : bool) (acc : RenterContracts)
           (c : modules.RenterContract) : RenterContracts :=
  let contract := build c in
  let goodForRenew := modules.GoodForRenew (modules.Utility c) in
  {| Contracts := Contracts acc ++ [contract];
     ActiveContracts :=
       if goodForRenew then ActiveContracts acc ++ [contract] else ActiveContracts acc;
     InactiveContracts :=
       if goodForRenew then InactiveContracts acc
       else if inactive && negb goodForRenew then InactiveContracts acc ++ [contract]
       else InactiveContracts acc;
     ExpiredContracts := ExpiredContracts acc |}.

(** The body of the loop over [api.renter.OldContracts()]. *)
Definition stepOldContract (inactive expired : bool) (blockHeight : types.BlockHeight)
           (acc : RenterContracts) (c : modules.RenterContract) : RenterContracts :=
  let contract := build c in
  if expired && N.ltb (modules.EndHeight c) blockHeight then
    {| Contracts := Contracts acc;
       ActiveContracts := ActiveContracts acc;
       InactiveContracts := InactiveContracts acc;
       ExpiredContracts := ExpiredContracts acc ++ [contract] |}
  else if inactive && N.leb blockHeight (modules.EndHeight c) then
    {| Contracts := Contracts acc;
       ActiveContracts := ActiveContracts acc;
       InactiveContracts := InactiveContracts acc ++ [contract];
       ExpiredContracts := ExpiredContracts acc |}
  else acc.

(** [renterContractsHandler], from the parsed flags, the current block
    height and the renter's two sets of contracts to the response. *)
Definition renterContractsHandler (inactive expired : bool)
           (blockHeight : types.BlockHeight)
           (contracts oldContracts : list modules.RenterContract) : RenterContracts :=
  let acc := {| Contracts := []; ActiveContracts := [];
                InactiveContracts := []; ExpiredContracts := [] |} in
  let acc := fold_left (stepContract inactive) contracts acc in
  if expired || inactive then
    fold_left (stepOldContract inactive expired blockHeight) oldContracts acc
  else acc.

End api.

(** * Specification-level definitions *)

Module Spec.

Import modules.

(** The collateral the spec scores with:
    min(collateral_per_byte_block, max_collateral / (2 * period * expected_storage)). *)
Definition host_collateral (entry : HostDBEntry) (period expected_storage : N) : N :=
  N.min (Collateral entry) (MaxCollateral entry / (2 * period * expected_storage)).

(** The thresholds of the storage-remaining step function, in units of
    the required storage. *)
Definition storageThresholds : list N :=
  [200; 150; 100; 80; 40; 20; 15; 10; 5; 3; 2; 1]%N.

(** The factor starts at 1 and is multiplied by 0.5 for each threshold
    the remaining storage lies strictly below. *)
Definition storage_factor (required_storage remaining_storage : N) : float :=
  fold_left (fun f k => if N.ltb remaining_storage (k * required_storage)
                        then (f * 0.5)%float else f)
            storageThresholds 1%float.

(** The hard-fork threshold of the version table that the source keeps
    in a comment. *)
Definition hardForkVersion : string := "1.3.1".

Definition belowHardFork (entry : HostDBEntry) : bool :=
  (build.VersionCmp (Version entry) hardForkVersion <? 0)%Z.

(** The exact value of a finite float, as a fraction [(n, d)] with
    [d] a power of two: the float is [n / d]. *)
Definition exact (f : float) : option (Z * Z) :=
  match Prim2SF f with
  | S754_zero _ => Some (0, 1)%Z
  | S754_finite s m e =>
      let n := if s then Zneg m else Zpos m in
      Some (match e with
            | Zneg p => (n, 2 ^ Zpos p)
            | _ => (n * 2 ^ e, 1)
            end)%Z
  | _ => None
  end.

(** A scan history in chronological order: timestamps never decrease. *)
Definition chronological (scans : list HostDBScan) : Prop :=
  Sorted (fun a b => (Timestamp a <= Timestamp b)%Z) scans.

(** The uptime and downtime that [uptimeAdjustments] measures over the
    scans of an entry (the loop as a release build runs it). *)
Definition measured (entry : HostDBEntry) : option hostdb.scanTotals :=
  match ScanHistory entry with
  | s0 :: rest => hostdb.measure false entry s0 rest
  | [] => None
  end.

(** The allowance as [collateralAdjustments] guards it, zero hosts and a
    zero period becoming one. *)
Definition guarded (allowance : Allowance) : Allowance :=
  {| Funds := Funds allowance;
     Hosts := hostdb.orOne (Hosts allowance);
     Period := hostdb.orOne (Period allowance);
     RenewWindow := RenewWindow allowance |}.

(** The total price of the spec, per byte-block of storage over one period. *)
Definition total_price (entry : HostDBEntry)
           (period expected_storage expected_upload_freq expected_download_freq : N) : N :=
  (StoragePrice entry
   + ContractPrice entry / (period * expected_storage)
   + UploadBandwidthPrice entry / expected_upload_freq
   + DownloadBandwidthPrice entry / expected_download_freq / 3)%N.

(** The price factor of the spec, (min_total_price / max(total_price,
    min_total_price))^5, as an exact fraction. *)
Definition price_factor (min_total_price total : N) : Z * Z :=
  (Z.of_N min_total_price ^ 5, Z.of_N (N.max total min_total_price) ^ 5)%Z.

(** A value above the range of a uint64 is replaced by the largest uint64. *)
Definition saturate64 (n : N) : N :=
  if N.ltb F64.MaxUint64 n then F64.MaxUint64 else n.

(** A float has exactly the value of a fraction. *)
Definition agrees (f : float) (q : Z * Z) : Prop :=
  match exact f with
  | Some (n, d) => (n * snd q = fst q * d)%Z
  | None => False
  end.

End Spec.

(** The price factor the code computes from a total price. *)
Definition normalizedFactor (Pow : float -> float -> float) (total : N) : float :=
  Pow (F64.of_N (Spec.saturate64 (hostdb.minTotalPrice / hostdb.priceDivNormalization)%N)
       / F64.of_N (Spec.saturate64
                     (N.max total hostdb.minTotalPrice / hostdb.priceDivNormalization)%N))%float
      hostdb.priceExponentiation.

(** Record updates used to vary one field of an entry. *)
Definition setRemainingStorage (entry : modules.HostDBEntry) (r : N) : modules.HostDBEntry :=
  {| modules.Collateral := modules.Collateral entry;
     modules.MaxCollateral := modules.MaxCollateral entry;
     modules.ContractPrice := modules.ContractPrice entry;
     modules.StoragePrice := modules.StoragePrice entry;
     modules.UploadBandwidthPrice := modules.UploadBandwidthPrice entry;
     modules.DownloadBandwidthPrice := modules.DownloadBandwidthPrice entry;
     modules.RemainingStorage := r;
     modules.Version := modules.Version entry;
     modules.FirstSeen := modules.FirstSeen entry;
     modules.HistoricDowntime := modules.HistoricDowntime entry;
     modules.HistoricUptime := modules.HistoricUptime entry;
     modules.ScanHistory := modules.ScanHistory entry;
     modules.HistoricFailedInteractions := modules.HistoricFailedInteractions entry;
     modules.HistoricSuccessfulInteractions := modules.HistoricSuccessfulInteractions entry |}.

(** * Concrete inputs *)

Module Examples.

Import modules.

Definition noPrices (collateral maxCollateral : N) (remaining : N)
           (scans : list HostDBScan) : HostDBEntry :=
  {| Collateral := collateral;
     MaxCollateral := maxCollateral;
     ContractPrice := 0%N;
     StoragePrice := 0%N;
     UploadBandwidthPrice := 0%N;
     DownloadBandwidthPrice := 0%N;
     RemainingStorage := remaining;
     Version := "1.3.0";
     FirstSeen := 0%N;
     HistoricDowntime := 0%Z;
     HistoricUptime := 0%Z;
     ScanHistory := scans;
     HistoricFailedInteractions := 0%float;
     HistoricSuccessfulInteractions := 0%float |}.

(** A host that offers a collateral of 1 per byte-block, up to 100. *)
Definition smallCollateral : HostDBEntry := noPrices 1 100 0 [].

Definition allowanceOf (funds hosts period : N) : Allowance :=
  {| Funds := funds; Hosts := hosts; Period := period; RenewWindow := 0%N |}.

Definition hdbAt (h : N) : hostdb.HostDB := {| hostdb.blockHeight := h |}.

Definition contractEnding (id endHeight : N) (goodForRenew : bool) : RenterContract :=
  {| ID := id; HostPublicKey := 0%N; StartHeight := 0%N; EndHeight := endHeight;
     RenterFunds := 0%N; DownloadSpending := 0%N; StorageSpending := 0%N;
     UploadSpending := 0%N;
     Utility := {| GoodForUpload := false; GoodForRenew := goodForRenew |};
     TxnFee := 0%N; ContractFee := 0%N; TotalCost := 0%N |}.

(** A host with the given storage price and no other price, whose
    collateral normalises to 1 and equals the cutoff. *)
Definition pricedAt (storagePrice : N) (failed : float) (scans : list HostDBScan)
  : HostDBEntry :=
  {| Collateral := 2480%N;
     MaxCollateral := 0%N;
     ContractPrice := 0%N;
     StoragePrice := storagePrice;
     UploadBandwidthPrice := 0%N;
     DownloadBandwidthPrice := 0%N;
     RemainingStorage := (200 * 20000000000)%N;
     Version := "1.3.2";
     FirstSeen := 0%N;
     HistoricDowntime := 0%Z;
     HistoricUptime := 0%Z;
     ScanHistory := scans;
     HistoricFailedInteractions := failed;
     HistoricSuccessfulInteractions := 0%float |}.

Definition hour : Z := 3600000000000%Z.

(** Three successful scans, one hour apart. *)
Definition threeGoodScans : list HostDBScan :=
  [ {| Timestamp := 0%Z; Success := true |};
    {| Timestamp := hour; Success := true |};
    {| Timestamp := (2 * hour)%Z; Success := true |} ].

(** A mature host that was always up and never failed an interaction. *)
Definition matureHost : HostDBEntry := pricedAt 0 0%float threeGoodScans.

End Examples.

(** * Further parts of the code base *)

(** ** The location of an unrounded value, as two bits *)

Module RoundX.

(** The position of a value inside a unit interval, as the two bits
    below the mantissa: round bit and sticky bit. *)
Definition code (l : location) : Z :=
  match l with
  | loc_Exact => 0%Z
  | loc_Inexact Lt => 1%Z
  | loc_Inexact Eq => 2%Z
  | loc_Inexact Gt => 3%Z
  end.

End RoundX.

(** ** [strconv]: whether a string is a decimal integer *)

Module strconv.

Definition isDigit (c : ascii) : bool :=
  (48 <=? N_of_ascii c)%N && (N_of_ascii c <=? 57)%N.

Fixpoint digitsValue (acc : N) (s : string) : option N :=
  match s with
  | EmptyString => Some acc
  | String c rest =>
      if isDigit c then digitsValue (10 * acc + (N_of_ascii c - 48))%N rest else None
  end.

(** [strconv.Atoi] is Go library code: it accepts an optional sign
    followed by at least one decimal digit, when the value is in the
    range of a 64-bit [int]. *)
Definition Atoi (s : string) : option Z :=
  match s with
  | EmptyString => None
  | String c rest =>
      let neg := Ascii.eqb c "-"%char in
      let body := if neg || Ascii.eqb c "+"%char then rest else s in
      match body with
      | EmptyString => None
      | _ =>
          match digitsValue 0 body with
          | None => None
          | Some n =>
              if neg then (if (n <=? 2 ^ 63)%N then Some (- Z.of_N n)%Z else None)
              else (if (n <=? 2 ^ 63 - 1)%N then Some (Z.of_N n) else None)
          end
      end
  end.

End strconv.

(** ** [siad]: the checks of the daemon's configuration *)

Module siad.

Record SiadConfig := {
  APIaddr : string;
  RPCaddr : string;
  HostAddr : string;
  Modules : string;
  Profile : string;
  AllowAPIBind : bool;
  AuthenticateAPI : bool
}.

Record Config := {
  Siad : SiadConfig;
  APIPassword : string
}.

(** [Config{}]. *)
Definition zeroConfig : Config :=
  {| Siad := {| APIaddr := ""; RPCaddr := ""; HostAddr := ""; Modules := ""; Profile := "";
                AllowAPIBind := false; AuthenticateAPI := false |};
     APIPassword := "" |}.

(** [strings.Replace(s, string(m), "", 1)] for a one-byte [m]: the first
    occurrence of the byte is removed. *)
Fixpoint removeFirst (m : ascii) (s : string) : string :=
  match s with
  | EmptyString => EmptyString
  | String c rest => if Ascii.eqb c m then rest else String c (removeFirst m rest)
  end.

(** The loop [for _, m := range valid { invalid = strings.Replace(invalid, string(m), "", 1) }]. *)
Definition stripValid (valid : string) (s : string) : string :=
  fold_left (fun invalid m => removeFirst m invalid) (list_ascii_of_string valid) s.

Definition newline : string := String "010"%char EmptyString.

Section Daemon.

(** Library code: [strconv.Atoi], [strings.ToLower], the methods of
    [modules.NetAddress] and [build.JoinErrors]. *)
Variable Atoi : string -> option Z.
Variable ToLower : string -> string.
Variable IsLoopback : string -> bool.
Variable Host : string -> string.
Variable Port : string -> string.
Variable JoinErrors : list (option string) -> string -> option string.

(** [processNetAddr] adds a ':' to a bare integer, so that it is a
    proper port number. *)
Definition processNetAddr (addr : string) : string :=
  match Atoi addr with
  | Some _ => (":" ++ addr)%string
  | None => addr
  end.

(** [processModules] makes the modules string lowercase and returns an
    error if the string contains an invalid module character. *)
Definition processModules (modules : string) : string * option string :=
  let modules := ToLower modules in
  let validModules := "cghmrtwep"%string in
  let invalidModules := stripValid validModules modules in
  if (0 <? String.length invalidModules)%nat then
    (""%string,
     Some ("Unable to parse --modules flag, unrecognized or duplicate modules: "
             ++ invalidModules)%string)
  else (modules, None).

(** [processProfileFlags] checks that the flags given for profiling are
    valid. *)
Definition processProfileFlags (profile : string) : string * option string :=
  let profile := ToLower profile in
  let validProfiles := "cmt"%string in
  let invalidProfiles := stripValid validProfiles profile in
  if (0 <? String.length invalidProfiles)%nat then
    (""%string,
     Some ("Unable to parse --profile flags, unrecognized or duplicate flags: "
             ++ invalidProfiles)%string)
  else (profile, None).

(** [verifyAPISecurity] checks that the security values are consistent
    with a sane, secure system. *)
Definition verifyAPISecurity (config : Config) : option string :=
  if negb (AllowAPIBind (Siad config)) then
    let addr := APIaddr (Siad config) in
    if negb (IsLoopback addr) then
      if String.eqb (Host addr) "" then
        Some ("a blank host will listen on all interfaces, did you mean localhost:"
                ++ Port addr ++ "?" ++ newline
                ++ "you must pass --disable-api-security to bind Siad to a non-localhost address")%string
      else
        Some "you must pass --disable-api-security to bind Siad to a non-localhost address"%string
    else None
  else if AllowAPIBind (Siad config) && negb (AuthenticateAPI (Siad config)) then
    Some "cannot use --disable-api-security without setting an api password"%string
  else None.

(** [processConfig] checks the configuration values and performs cleanup
    on incorrect-but-allowed values. *)
Definition processConfig (config : Config) : Config * option string :=
  let siad := Siad config in
  let apiaddr := processNetAddr (APIaddr siad) in
  let rpcaddr := processNetAddr (RPCaddr siad) in
  let hostaddr := processNetAddr (HostAddr siad) in
  let '(modules, err1) := processModules (Modules siad) in
  let '(profile, err2) := processProfileFlags (Profile siad) in
  let config :=
    {| Siad := {| APIaddr := apiaddr; RPCaddr := rpcaddr; HostAddr := hostaddr;
                  Modules := modules; Profile := profile;
                  AllowAPIBind := AllowAPIBind siad;
                  AuthenticateAPI := AuthenticateAPI siad |};
       APIPassword := APIPassword config |} in
  let err3 := verifyAPISecurity config in
  match JoinErrors [err1; err2; err3] ", and " with
  | Some err => (zeroConfig, Some err)
  | None => (config, None)
  end.

End Daemon.

(** Modelled from the spec: [build.JoinErrors] is not among the sources
    and the spec is silent on it; the theorems take it as a parameter.
    This instance is the behaviour its callers rely on: the messages of
    the errors that are not nil, joined by the separator, and no error
    when there is none. *)
Definition joinErrors (errs : list (option string)) (sep : string) : option string :=
  match flat_map (fun e => match e with Some m => [m] | None => [] end) errs with
  | [] => None
  | m :: ms => Some (fold_left (fun acc x => (acc ++ sep ++ x)%string) ms m)
  end.

End siad.

(** ** The scans that a release build measures *)

Module scans.

Import modules.
(** The scans that the loop of [uptimeAdjustments] keeps in a release
    build: a scan older than the latest kept one is dropped. *)
Fixpoint keptScans (recent : time.Time) (scans : list HostDBScan) : list HostDBScan :=
  match scans with
  | [] => []
  | scan :: rest =>
      if time.After recent (Timestamp scan) then keptScans recent rest
      else scan :: keptScans (Timestamp scan) rest
  end.

(** The timestamp of the last scan of a history that starts at [first]. *)
Definition lastTimestamp (first : HostDBScan) (rest : list HostDBScan) : time.Time :=
  Timestamp (last rest first).
End scans.

(** ** [api]: the handlers of the renter's settings, prices, uploads and downloads *)

Module handlers.

(** A request's form: [req.FormValue(key)], the empty string when the
    key is absent. *)
Definition Form : Type := string -> string.

(** [req.Form.Set(key, value)]. *)
Definition FormSet (req : Form) (key value : string) : Form :=
  fun k => if String.eqb k key then value else req k.

(** What a handler writes: [WriteError], [WriteSuccess] or [WriteJSON]. *)
Inductive Reply (A : Type) : Type :=
| WriteError (msg : string) (status : N)
| WriteSuccess
| WriteJSON (payload : A).

Arguments WriteError {A} msg status.
Arguments WriteSuccess {A}.
Arguments WriteJSON {A} payload.

Definition StatusBadRequest : N := 400.
Definition StatusInternalServerError : N := 500.
Definition StatusNotImplemented : N := 501.

(** The allowance with the fields that the settings handler sets besides
    the four that the host database reads. *)
Record Allowance := {
  base : modules.Allowance;
  ExpectedStorage : N;
  ExpectedUpload : N;
  ExpectedDownload : N;
  ExpectedRedundancy : float
}.

Record RenterSettings := {
  allowance : Allowance;
  MaxDownloadSpeed : Z;
  MaxUploadSpeed : Z;
  StreamCacheSize : N;
  IPViolationsCheck : bool
}.

Definition setBase (f : modules.Allowance -> modules.Allowance) (s : RenterSettings)
  : RenterSettings :=
  {| allowance := {| base := f (base (allowance s));
                     ExpectedStorage := ExpectedStorage (allowance s);
                     ExpectedUpload := ExpectedUpload (allowance s);
                     ExpectedDownload := ExpectedDownload (allowance s);
                     ExpectedRedundancy := ExpectedRedundancy (allowance s) |};
     MaxDownloadSpeed := MaxDownloadSpeed s;
     MaxUploadSpeed := MaxUploadSpeed s;
     StreamCacheSize := StreamCacheSize s;
     IPViolationsCheck := IPViolationsCheck s |}.

Definition setFunds (v : types.Currency) (a : modules.Allowance) : modules.Allowance :=
  {| modules.Funds := v; modules.Hosts := modules.Hosts a;
     modules.Period := modules.Period a; modules.RenewWindow := modules.RenewWindow a |}.

Definition setHosts (v : N) (a : modules.Allowance) : modules.Allowance :=
  {| modules.Funds := modules.Funds a; modules.Hosts := v;
     modules.Period := modules.Period a; modules.RenewWindow := modules.RenewWindow a |}.

Definition setPeriod (v : types.BlockHeight) (a : modules.Allowance) : modules.Allowance :=
  {| modules.Funds := modules.Funds a; modules.Hosts := modules.Hosts a;
     modules.Period := v; modules.RenewWindow := modules.RenewWindow a |}.

Definition setRenewWindow (v : types.BlockHeight) (a : modules.Allowance) : modules.Allowance :=
  {| modules.Funds := modules.Funds a; modules.Hosts := modules.Hosts a;
     modules.Period := modules.Period a; modules.RenewWindow := v |}.

Definition setExpected (es eu ed : N) (er : float) (s : RenterSettings) : RenterSettings :=
  {| allowance := {| base := base (allowance s);
                     ExpectedStorage := es; ExpectedUpload := eu;
                     ExpectedDownload := ed; ExpectedRedundancy := er |};
     MaxDownloadSpeed := MaxDownloadSpeed s;
     MaxUploadSpeed := MaxUploadSpeed s;
     StreamCacheSize := StreamCacheSize s;
     IPViolationsCheck := IPViolationsCheck s |}.

Definition setLimits (down up : Z) (cache : N) (ip : bool) (s : RenterSettings)
  : RenterSettings :=
  {| allowance := allowance s;
     MaxDownloadSpeed := down; MaxUploadSpeed := up;
     StreamCacheSize := cache; IPViolationsCheck := ip |}.

(** [modules.Allowance{}]. *)
Definition zeroAllowance : modules.Allowance :=
  {| modules.Funds := 0%N; modules.Hosts := 0%N;
     modules.Period := 0%N; modules.RenewWindow := 0%N |}.

(** [strings.TrimPrefix(s, "/")]. *)
Definition trimSlash (s : string) : string :=
  match s with
  | String c rest => if Ascii.eqb c "/"%char then rest else s
  | EmptyString => s
  end.

(** An early [return] after [WriteError]: the left side of a sum ends
    the handler. *)
Definition andThen {E A B : Type} (x : E + A) (k : A -> E + B) : E + B :=
  match x with
  | inl e => inl e
  | inr a => k a
  end.

Notation "x <-! c ;; k" := (andThen c (fun x => k))
  (at level 61, c at next level, right associativity) : go_scope.

Section Renter.

(** Library code and constants of other packages: [fmt.Sscan] into the
    types the handlers scan, [scanAmount], the formatting of [%v], and
    [modules.DefaultAllowance]; the release flavour. *)
Variable scanUint64 : string -> string + N.
Variable scanInt64 : string -> string + Z.
Variable scanFloat64 : string -> string + float.
Variable scanBoolean : string -> string + bool.
Variable scanAmount : string -> option types.Currency.
Variable showUint : N -> string.
Variable DefaultAllowance : Allowance.
Variable Release : build.ReleaseType.

(** [requiredHosts] specifies the minimum number of hosts that must be
    set in the renter settings for the renter settings to be valid. *)
Definition requiredHosts : N := build.Select Release 20%N 1%N 1%N.

(** [requiredRenewWindow] establishes the minimum allowed renew window
    for the renter settings. *)
Definition requiredRenewWindow : types.BlockHeight := build.Select Release 288%N 1%N 1%N.

(** [requiredParityPieces] specifies the minimum number of parity pieces
    that must be used when uploading a file. *)
Definition requiredParityPieces : Z := build.Select Release 12%Z 0%Z 0%Z.

(** [requiredRedundancy] specifies the minimum redundancy that will be
    accepted by the renter when uploading a file. *)
Definition requiredRedundancy : float := build.Select Release 2%float 1%float 1%float.

Definition badRequest (msg : string) : string * N := (msg, StatusBadRequest).

(** A present parameter that must scan: [if v := req.FormValue(key); v != "" { ... }]. *)
Definition scanned {A : Type} (scan : string -> string + A) (prefix value : string)
  : (string * N) + A :=
  match scan value with
  | inl err => inl (badRequest (prefix ++ err)%string)
  | inr v => inr v
  end.

Definition hostsError (hosts : N) : string :=
  ("insufficient number of hosts, need at least " ++ showUint requiredHosts
     ++ " but have " ++ showUint hosts)%string.

Definition renewWindowError (renewWindow : N) : string :=
  ("renew window is too small, must be at least " ++ showUint requiredRenewWindow
     ++ " blocks but have " ++ showUint renewWindow ++ " blocks")%string.

(** The first part of [renterHandlerPOST]: the funds, the number of
    hosts, the period and the renew window. *)
Definition scanAllowanceFields (req : Form) (settings : RenterSettings)
  : (string * N) + RenterSettings :=
  (* Scan the allowance amount. *)
  settings <-! (let f := req "funds"%string in
                if negb (String.eqb f "") then
                  match scanAmount f with
                  | None => inl (badRequest "unable to parse funds")
                  | Some funds => inr (setBase (setFunds funds) settings)
                  end
                else inr settings) ;;
  (* Scan the number of hosts to use. *)
  settings <-! (let h := req "hosts"%string in
                if negb (String.eqb h "") then
                  hosts <-! scanned scanUint64 "unable to parse hosts: " h ;;
                  if negb (N.eqb hosts 0) && N.ltb hosts requiredHosts then
                    inl (badRequest (hostsError hosts))
                  else inr (setBase (setHosts hosts) settings)
                else if N.eqb (modules.Hosts (base (allowance settings))) 0 then
                  inr (setBase (setHosts (modules.Hosts (base DefaultAllowance))) settings)
                else inr settings) ;;
  (* Scan the period. *)
  settings <-! (let p := req "period"%string in
                if negb (String.eqb p "") then
                  period <-! scanned scanUint64 "unable to parse period: " p ;;
                  inr (setBase (setPeriod period) settings)
                else if N.eqb (modules.Period (base (allowance settings))) 0 then
                  inl (badRequest "period needs to be set if it hasn't been set before")
                else inr settings) ;;
  (* Scan the renew window. *)
  settings <-! (let rw := req "renewwindow"%string in
                if negb (String.eqb rw "") then
                  renewWindow <-! scanned scanUint64 "unable to parse renewwindow: " rw ;;
                  if negb (N.eqb renewWindow 0) && N.ltb renewWindow requiredRenewWindow then
                    inl (badRequest (renewWindowError renewWindow))
                  else inr (setBase (setRenewWindow renewWindow) settings)
                else if N.eqb (modules.RenewWindow (base (allowance settings))) 0 then
                  inr (setBase (setRenewWindow
                                  (modules.Period (base (allowance settings)) / 2)%N) settings)
                else inr settings) ;;
  inr settings.

(** The second part: the expected usage, the speed limits, the cache
    size and the IP check. *)
Definition scanOtherFields (req : Form) (settings : RenterSettings)
  : (string * N) + RenterSettings :=
  (* Scan the expected storage, upload, download and redundancy. *)
  es <-! (let v := req "expectedstorage"%string in
          if negb (String.eqb v "") then scanned scanUint64 "unable to parse expectedStorage: " v
          else if N.eqb (ExpectedStorage (allowance settings)) 0
               then inr (ExpectedStorage DefaultAllowance)
               else inr (ExpectedStorage (allowance settings))) ;;
  eu <-! (let v := req "expectedupload"%string in
          if negb (String.eqb v "") then scanned scanUint64 "unable to parse expectedUpload: " v
          else if N.eqb (ExpectedUpload (allowance settings)) 0
               then inr (ExpectedUpload DefaultAllowance)
               else inr (ExpectedUpload (allowance settings))) ;;
  ed <-! (let v := req "expecteddownload"%string in
          if negb (String.eqb v "") then scanned scanUint64 "unable to parse expectedDownload: " v
          else if N.eqb (ExpectedDownload (allowance settings)) 0
               then inr (ExpectedDownload DefaultAllowance)
               else inr (ExpectedDownload (allowance settings))) ;;
  er <-! (let v := req "expectedredundancy"%string in
          if negb (String.eqb v "") then
            scanned scanFloat64 "unable to parse expectedRedundancy: " v
          else if PrimFloat.eqb (ExpectedRedundancy (allowance settings)) 0
               then inr (ExpectedRedundancy DefaultAllowance)
               else inr (ExpectedRedundancy (allowance settings))) ;;
  let settings := setExpected es eu ed er settings in
  (* Scan the speed limits, the cache size and the IP check. *)
  down <-! (let v := req "maxdownloadspeed"%string in
            if negb (String.eqb v "") then scanned scanInt64 "unable to parse downloadspeed: " v
            else inr (MaxDownloadSpeed settings)) ;;
  up <-! (let v := req "maxuploadspeed"%string in
          if negb (String.eqb v "") then scanned scanInt64 "unable to parse uploadspeed: " v
          else inr (MaxUploadSpeed settings)) ;;
  cache <-! (let v := req "streamcachesize"%string in
             if negb (String.eqb v "") then
               scanned scanUint64 "unable to parse streamcachesize: " v
             else inr (StreamCacheSize settings)) ;;
  ip <-! (let v := req "checkforipviolation"%string in
          if negb (String.eqb v "") then
            scanned scanBoolean "unable to parse ipviolationcheck: " v
          else inr (IPViolationsCheck settings)) ;;
  inr (setLimits down up cache ip settings).

(** The body of [renterHandlerPOST] up to the call of
    [api.renter.SetSettings]: the settings that the call receives, or
    the error written. *)
Definition scanSettings (req : Form) (settings : RenterSettings)
  : (string * N) + RenterSettings :=
  settings <-! scanAllowanceFields req settings ;;
  scanOtherFields req settings.

(** [renterHandlerPOST] handles the API call to set the Renter's
    settings: the settings handed to [SetSettings], if it is called, and
    what is written. *)
Definition renterHandlerPOST (SetSettings : RenterSettings -> option string)
           (req : Form) (settings : RenterSettings)
  : option RenterSettings * Reply unit :=
  match scanSettings req settings with
  | inl (msg, status) => (None, WriteError msg status)
  | inr settings =>
      match SetSettings settings with
      | Some err => (Some settings, WriteError err StatusBadRequest)
      | None => (Some settings, WriteSuccess)
      end
  end.

(** *** [renterPricesHandler] *)

Section Prices.

(** [api.renter.PriceEstimation], and [reflect.DeepEqual] of the
    allowance with [modules.Allowance{}]. *)
Variable Estimate : Type.
Variable PriceEstimation : modules.Allowance -> string + (Estimate * modules.Allowance).
Variable isZeroValue : modules.Allowance -> bool.

(** The state of the handler: what was written so far, in order. *)
Definition Written : Type := list (Reply (Estimate * modules.Allowance)).

Definition leftEmpty (name : string) : string :=
  ("Allowance not set correctly, `" ++ name ++ "` parameter left empty")%string.

(** The scan of the four parameters; the error of a number of hosts
    below the minimum is written but the handler does not return. *)
Definition scanAllowance (req : Form)
  : (Written + (Written * modules.Allowance)) :=
  let allowance := zeroAllowance in
  allowance <-! (let f := req "funds"%string in
                 if negb (String.eqb f "") then
                   match scanAmount f with
                   | None => inl [WriteError "unable to parse funds" StatusBadRequest]
                   | Some funds => inr (setFunds funds allowance)
                   end
                 else inr allowance) ;;
  wa <-! (let h := req "hosts"%string in
          if negb (String.eqb h "") then
            match scanUint64 h with
            | inl err =>
                inl [WriteError ("unable to parse hosts: " ++ err)%string StatusBadRequest]
            | inr hosts =>
                if negb (N.eqb hosts 0) && N.ltb hosts requiredHosts then
                  inr ([WriteError
                          ("insufficient number of hosts, need at least "
                             ++ showUint (modules.Hosts (base DefaultAllowance))
                             ++ " but have " ++ showUint hosts)%string
                          StatusBadRequest],
                       allowance)
                else inr ([], setHosts hosts allowance)
            end
          else inr ([], allowance)) ;;
  let '(written, allowance) := wa in
  allowance <-! (let p := req "period"%string in
                 if negb (String.eqb p "") then
                   match scanUint64 p with
                   | inl err =>
                       inl (written ++ [WriteError ("unable to parse period: " ++ err)%string
                                                   StatusBadRequest])
                   | inr period => inr (setPeriod period allowance)
                   end
                 else inr allowance) ;;
  allowance <-! (let rw := req "renewwindow"%string in
                 if negb (String.eqb rw "") then
                   match scanUint64 rw with
                   | inl err =>
                       inl (written ++ [WriteError ("unable to parse renewwindow: " ++ err)%string
                                                   StatusBadRequest])
                   | inr renewWindow =>
                       if negb (N.eqb renewWindow 0) && N.ltb renewWindow requiredRenewWindow
                       then inl (written ++ [WriteError (renewWindowError renewWindow)
                                                        StatusBadRequest])
                       else inr (setRenewWindow renewWindow allowance)
                   end
                 else inr allowance) ;;
  inr (written, allowance).

(** The check for a partially set allowance. *)
Definition checkPartial (allowance : modules.Allowance) : option string :=
  if negb (isZeroValue allowance) then
    if (types.Cmp (modules.Funds allowance) 0 =? 0)%Z then Some (leftEmpty "funds")
    else if N.eqb (modules.Period allowance) 0 then Some (leftEmpty "period")
    else if N.eqb (modules.Hosts allowance) 0 then Some (leftEmpty "hosts")
    else if N.eqb (modules.RenewWindow allowance) 0 then Some (leftEmpty "renewwindow")
    else None
  else None.

(** [renterPricesHandler] reports the expected costs of various actions
    given the renter settings and the set of available hosts: the
    allowance handed to [PriceEstimation], if it is called, and what is
    written. *)
Definition renterPricesHandler (req : Form) : option modules.Allowance * Written :=
  match scanAllowance req with
  | inl written => (None, written)
  | inr (written, allowance) =>
      match checkPartial allowance with
      | Some msg => (None, written ++ [WriteError msg StatusBadRequest])
      | None =>
          match PriceEstimation allowance with
          | inl err => (Some allowance, written ++ [WriteError err StatusBadRequest])
          | inr (estimate, a) => (Some allowance, written ++ [WriteJSON (estimate, a)])
          end
      end
  end.

End Prices.

(** *** [renterUploadHandler] *)

Section Upload.

(** Library code: [url.QueryUnescape], [filepath.IsAbs],
    [strconv.ParseBool], [fmt.Sscan] into an [int], the formatting of
    the two messages, [siafile.NewRSCode] and [api.renter.Upload]. *)
Variable QueryUnescape : string -> option string.
Variable IsAbs : string -> bool.
Variable ParseBool : string -> string + bool.
Variable scanInt : string -> string + Z.
Variable showParity : Z -> Z -> string.
Variable showRedundancy : float -> float -> string.
Variable ErasureCoder : Type.
Variable NewRSCode : Z -> Z -> string + ErasureCoder.

Record FileUploadParams := {
  Source : string;
  HyperspacePath : string;
  ErasureCode : option ErasureCoder;
  Force : bool
}.

Variable Upload : FileUploadParams -> option string.

(** What the handler does besides writing: the calls of [NewRSCode] and
    of [Upload], in order. *)
Inductive Call :=
| CallNewRSCode (dataPieces parityPieces : Z)
| CallUpload (params : FileUploadParams).

(** The redundancy of the request, in the 64-bit [int] and [float64]
    arithmetic of the source. *)
Definition redundancyOf (dataPieces parityPieces : Z) : float :=
  (F64.of_Z (time.wrap64 (dataPieces + parityPieces)) / F64.of_Z dataPieces)%float.

(** The erasure coder of the request, if one is asked for. *)
Definition scanErasureCode (req : Form)
  : (list Call * (string * N)) + (list Call * option ErasureCoder) :=
  let data := req "datapieces"%string in
  let parity := req "paritypieces"%string in
  if negb (String.eqb data "") || negb (String.eqb parity "") then
    if String.eqb data "" || String.eqb parity "" then
      inl ([], badRequest
                 "must provide both the datapieces parameter and the paritypieces parameter if specifying erasure coding parameters")
    else
      match scanInt data with
      | inl err => inl ([], badRequest ("unable to read parameter 'datapieces': " ++ err)%string)
      | inr dataPieces =>
          match scanInt parity with
          | inl err =>
              inl ([], badRequest ("unable to read parameter 'paritypieces': " ++ err)%string)
          | inr parityPieces =>
              if (parityPieces <? requiredParityPieces)%Z then
                inl ([], badRequest (showParity parityPieces requiredParityPieces))
              else
                let redundancy := redundancyOf dataPieces parityPieces in
                if (redundancy <? requiredRedundancy)%float then
                  inl ([], badRequest (showRedundancy redundancy requiredRedundancy))
                else
                  match NewRSCode dataPieces parityPieces with
                  | inl err =>
                      inl ([CallNewRSCode dataPieces parityPieces],
                           badRequest
                             ("unable to encode file using the provided parameters: " ++ err)%string)
                  | inr ec => inr ([CallNewRSCode dataPieces parityPieces], Some ec)
                  end
          end
      end
  else inr ([], None).

(** [renterUploadHandler] handles the API call to upload a file; [path]
    is the [hyperspacepath] parameter of the route. *)
Definition renterUploadHandler (req : Form) (path : string) : list Call * Reply unit :=
  match QueryUnescape (req "source"%string) with
  | None => ([], WriteError "failed to unescape the source path" StatusBadRequest)
  | Some source =>
      if negb (IsAbs source) then
        ([], WriteError "source must be an absolute path" StatusBadRequest)
      else
        let force :=
          let f := req "force"%string in
          if negb (String.eqb f "") then
            match ParseBool f with
            | inl err => inl ("unable to parse 'force' parameter: " ++ err)%string
            | inr b => inr b
            end
          else inr false in
        match force with
        | inl msg => ([], WriteError msg StatusBadRequest)
        | inr force =>
            match scanErasureCode req with
            | inl (calls, (msg, status)) => (calls, WriteError msg status)
            | inr (calls, ec) =>
                let params := {| Source := source; HyperspacePath := trimSlash path;
                                 ErasureCode := ec; Force := force |} in
                match Upload params with
                | Some err =>
                    (calls ++ [CallUpload params],
                     WriteError ("upload failed: " ++ err)%string StatusInternalServerError)
                | None => (calls ++ [CallUpload params], WriteSuccess)
                end
            end
        end
  end.

End Upload.

(** *** [parseDownloadParameters] and the download handlers *)

Section Download.

(** Library code: [url.QueryUnescape], [scanBool] of the package, and
    the two download methods of the renter. *)
Variable QueryUnescape : string -> string + string.
Variable scanBool : string -> string + bool.
Variable AddContext : string -> string -> string.

Record RenterDownloadParameters := {
  Async : bool;
  Httpwriter : bool;
  Length : N;
  Offset : N;
  DownloadPath : string;
  Destination : string
}.

Variable Download : RenterDownloadParameters -> option string.
Variable DownloadAsync : RenterDownloadParameters -> option string.

Inductive DownloadCall :=
| CallDownload (params : RenterDownloadParameters)
| CallDownloadAsync (params : RenterDownloadParameters).

(** [parseDownloadParameters] parses the download parameters passed to
    the /renter/download endpoint; [Httpwriter] records whether the
    response writer is handed over. *)
Definition parseDownloadParameters (req : Form) (path : string)
  : string + RenterDownloadParameters :=
  match QueryUnescape (req "destination"%string) with
  | inl err => inl (AddContext err "failed to unescape the destination")
  | inr destination =>
      let offsetparam := req "offset"%string in
      let lengthparam := req "length"%string in
      let httprespparam := req "httpresp"%string in
      let asyncparam := req "async"%string in
      offset <-! (if (0 <? String.length offsetparam)%nat then
                    match scanUint64 offsetparam with
                    | inl err => inl (AddContext err "could not decode the offset as uint64")
                    | inr v => inr v
                    end
                  else inr 0%N) ;;
      length <-! (if (0 <? String.length lengthparam)%nat then
                    match scanUint64 lengthparam with
                    | inl err => inl (AddContext err "could not decode the offset as uint64")
                    | inr v => inr v
                    end
                  else inr 0%N) ;;
      httpresp <-! (match scanBool httprespparam with
                    | inl err => inl (AddContext err "httpresp parameter could not be parsed")
                    | inr b => inr b
                    end) ;;
      async <-! (match scanBool asyncparam with
                 | inl err => inl (AddContext err "async parameter could not be parsed")
                 | inr b => inr b
                 end) ;;
      inr {| Async := async; Httpwriter := httpresp; Length := length; Offset := offset;
             DownloadPath := trimSlash path; Destination := destination |}
  end.

(** [renterDownloadHandler] handles the API call to download a file:
    the call made to the renter and what the handler itself writes
    (nothing after a download that was given the response writer). *)
Definition renterDownloadHandler (req : Form) (path : string)
  : list DownloadCall * option (Reply unit) :=
  match parseDownloadParameters req path with
  | inl err => ([], Some (WriteError err StatusBadRequest))
  | inr params =>
      let call := if Async params then CallDownloadAsync params else CallDownload params in
      let err := if Async params then DownloadAsync params else Download params in
      match err with
      | Some e =>
          ([call], Some (WriteError ("download failed: " ++ e)%string StatusInternalServerError))
      | None => if Httpwriter params then ([call], None) else ([call], Some WriteSuccess)
      end
  end.

(** [renterDownloadAsyncHandler] handles the API call to download a
    file asynchronously. *)
Definition renterDownloadAsyncHandler (req : Form) (path : string)
  : list DownloadCall * option (Reply unit) :=
  renterDownloadHandler (FormSet req "async" "true") path.

End Download.

End Renter.

End handlers.

(** ** [api]: the handlers of the mining pool *)

Module pool.

Record PoolInternalSettings := {
  PoolWallet : N;
  PoolNetworkPort : Z;
  PoolName : string;
  PoolID : N;
  PoolDBConnection : string
}.

(** [modules.PoolInternalSettings{}]. *)
Definition zeroSettings : PoolInternalSettings :=
  {| PoolWallet := 0%N; PoolNetworkPort := 0%Z; PoolName := ""; PoolID := 0%N;
     PoolDBConnection := "" |}.

(** [MiningPoolConfig], as [poolConfigHandler] fills it. *)
Record MiningPoolConfig := {
  NetworkPort : Z;
  DBConnection : string;
  Name : string;
  ConfigPoolID : N;
  ConfigPoolWallet : N;
  OperatorWallet : N
}.

(** [uint64(x)] for an [int]. *)
Definition uint64 (x : Z) : N := Z.to_N (x mod 2 ^ 64).

Section Pool.

(** Library code and the pool module: [scanAddress], [fmt.Sscan] into an
    [int], and [api.pool.SetInternalSettings]. *)
Variable scanAddress : string -> option N.
Variable scanInt : string -> string + Z.
Variable SetInternalSettings : PoolInternalSettings -> option string.

(** [parsePoolSettings], from the request and the settings that
    [api.pool.InternalSettings()] returns: the settings, the error, and
    the settings handed to [SetInternalSettings], in order. *)
Definition parsePoolSettings (req : handlers.Form) (settings : PoolInternalSettings)
  : PoolInternalSettings * option string * list PoolInternalSettings :=
  let failed := (zeroSettings, None, []) in
  let step1 :=
    let v := req "poolwallet"%string in
    if negb (String.eqb v "") then
      match scanAddress v with
      | None => None
      | Some x => Some {| PoolWallet := x; PoolNetworkPort := PoolNetworkPort settings;
                          PoolName := PoolName settings; PoolID := PoolID settings;
                          PoolDBConnection := PoolDBConnection settings |}
      end
    else Some settings in
  match step1 with
  | None => failed
  | Some settings =>
      let step2 :=
        let v := req "networkport"%string in
        if negb (String.eqb v "") then
          match scanInt v with
          | inl _ => None
          | inr x => Some {| PoolWallet := PoolWallet settings; PoolNetworkPort := x;
                             PoolName := PoolName settings; PoolID := PoolID settings;
                             PoolDBConnection := PoolDBConnection settings |}
          end
        else Some settings in
      match step2 with
      | None => failed
      | Some settings =>
          let settings :=
            let v := req "name"%string in
            if negb (String.eqb v "") then
              {| PoolWallet := PoolWallet settings;
                 PoolNetworkPort := PoolNetworkPort settings;
                 PoolName := v; PoolID := PoolID settings;
                 PoolDBConnection := PoolDBConnection settings |}
            else settings in
          let step4 :=
            let v := req "poolid"%string in
            if negb (String.eqb v "") then
              match scanInt v with
              | inl _ => None
              | inr x => Some {| PoolWallet := PoolWallet settings;
                                 PoolNetworkPort := PoolNetworkPort settings;
                                 PoolName := PoolName settings; PoolID := uint64 x;
                                 PoolDBConnection := PoolDBConnection settings |}
              end
            else Some settings in
          match step4 with
          | None => failed
          | Some settings =>
              let settings :=
                let v := req "dbconnection"%string in
                if negb (String.eqb v "") then
                  {| PoolWallet := PoolWallet settings;
                     PoolNetworkPort := PoolNetworkPort settings;
                     PoolName := PoolName settings; PoolID := PoolID settings;
                     PoolDBConnection := v |}
                else settings in
              (settings, SetInternalSettings settings, [settings])
          end
      end
  end.

(** [poolConfigHandlerPOST] handles POST request to the /pool API
    endpoint, which sets the internal settings of the pool. *)
Definition poolConfigHandlerPOST (req : handlers.Form) (current : PoolInternalSettings)
  : list PoolInternalSettings * handlers.Reply unit :=
  let '(settings, err, calls) := parsePoolSettings req current in
  match err with
  | Some e =>
      (calls, handlers.WriteError ("error parsing pool settings: " ++ e)%string
                                  handlers.StatusBadRequest)
  | None =>
      match SetInternalSettings settings with
      | Some e => (calls ++ [settings], handlers.WriteError e handlers.StatusBadRequest)
      | None => (calls ++ [settings], handlers.WriteSuccess)
      end
  end.

(** [poolConfigHandler] handles the API call that queries the pool's
    status. *)
Definition poolConfigHandler (req : handlers.Form) (current : PoolInternalSettings)
  : list PoolInternalSettings * handlers.Reply MiningPoolConfig :=
  let '(settings, err, calls) := parsePoolSettings req current in
  match err with
  | Some e =>
      (calls, handlers.WriteError ("error parsing pool settings: " ++ e)%string
                                  handlers.StatusBadRequest)
  | None =>
      (calls, handlers.WriteJSON {| Name := PoolName settings;
                                    NetworkPort := PoolNetworkPort settings;
                                    DBConnection := PoolDBConnection settings;
                                    ConfigPoolID := PoolID settings;
                                    ConfigPoolWallet := PoolWallet settings;
                                    OperatorWallet := 0%N |})
  end.

End Pool.

End pool.

(** ** [hostdb]: the conversion rate of a score *)

Module conversion.

Section Rate.

(** The weight function of the host tree, and [big.Rat.Float64], the
    nearest double of a fraction. *)
Variable weightFunc : modules.HostDBEntry -> option types.Currency.
Variable ratFloat64 : N -> N -> float.

(** What the scoring functions of [hostdb] take: [math.Pow],
    [Currency.MulFloat], the debug flag and the release flavour. *)
Variable Pow : float -> float -> float.
Variable MulFloat : types.Currency -> float -> types.Currency.
Variable DEBUG : bool.
Variable Release : build.ReleaseType.

(** The loop that adds up the weights of the active hosts. *)
Definition totalOf (activeHosts : list modules.HostDBEntry) : option types.Currency :=
  fold_left (fun acc h => t <- acc ;; w <- weightFunc h ;; Some (types.Add t w))
            activeHosts (Some 0%N).

(** [calculateConversionRate] calculates the conversion rate of the
    provided host score; [SetFrac] panics on a denominator of zero. *)
Definition calculateConversionRate (activeHosts : list modules.HostDBEntry)
           (score : types.Currency) : option float :=
  totalScore <- totalOf activeHosts ;;
  let totalScore :=
    if types.IsZero totalScore then types.NewCurrency64 1 else totalScore in
  if N.eqb totalScore 0 then None
  else
    let conversionRate := ratFloat64 (types.Mul64 score 50) totalScore in
    Some (if (100 <? conversionRate)%float then 100%float else conversionRate).

(** [EstimateHostScore] as a whole: the breakdown that
    [hostdb.EstimateHostScore] fills, together with its [ConversionRate]
    field.  The field is [hdb.calculateConversionRate(estimatedScore)],
    which runs the weight function on every active host and panics when
    that does. *)
Definition EstimateHostScore (activeHosts : list modules.HostDBEntry) (hdb : hostdb.HostDB)
           (entry : modules.HostDBEntry) (allowance : modules.Allowance)
  : option (modules.HostScoreBreakdown * float) :=
  breakdown <- hostdb.EstimateHostScore Pow MulFloat DEBUG Release hdb entry allowance ;;
  conversionRate <- calculateConversionRate activeHosts (modules.Score breakdown) ;;
  Some (breakdown, conversionRate).

End Rate.

End conversion.

(** ** Concrete library functions for the examples *)

Module fmt.

(** [fmt.Sscan] into a [uint64] is Go library code; on a string of
    decimal digits it gives their value, when that is below 2^64. *)
Definition scanUint64 (s : string) : string + N :=
  match s with
  | EmptyString => inl "unexpected EOF"%string
  | _ =>
      match strconv.digitsValue 0 s with
      | Some n => if (n <? 2 ^ 64)%N then inr n else inl "value out of range"%string
      | None => inl "expected integer"%string
      end
  end.

(** [fmt.Sscan] into an [int] or [int64], through [strconv.Atoi]. *)
Definition scanInt (s : string) : string + Z :=
  match strconv.Atoi s with
  | Some z => inr z
  | None => inl "expected integer"%string
  end.

(** [fmt.Sscan] into a [float64], on decimal integers only. *)
Definition scanFloat64 (s : string) : string + float :=
  match scanUint64 s with
  | inl e => inl e
  | inr n => inr (F64.of_N n)
  end.

(** Modelled from the spec: [scanBool] of the [api] package is not
    among the sources and the spec is silent on it; the theorems take it
    as a parameter, and this instance reads the three values the
    examples use. It also stands for [fmt.Sscan] into a [bool]. *)
Definition scanBool (s : string) : string + bool :=
  if String.eqb s "true" then inr true
  else if String.eqb s "false" || String.eqb s "" then inr false
  else inl "invalid syntax"%string.

(** Modelled from the spec: [scanAmount] of the [api] package is not
    among the sources; the spec has currency values as non-negative
    integers of any size, and this instance reads a decimal one. *)
Definition scanAmount (s : string) : option types.Currency :=
  match s with
  | EmptyString => None
  | _ => strconv.digitsValue 0 s
  end.

Fixpoint showDigits (fuel : nat) (n : N) (acc : string) : string :=
  match fuel with
  | O => acc
  | S fuel =>
      let acc := String (ascii_of_N (48 + n mod 10)) acc in
      if (n / 10 =? 0)%N then acc else showDigits fuel (n / 10)%N acc
  end.

(** The formatting of an unsigned integer by [%v]. *)
Definition showUint (n : N) : string := showDigits (S (N.to_nat (N.log2 n))) n "".

End fmt.

Module big.

(** [big.Rat.Float64] is Go library code: the float64 nearest to the
    fraction, ties to even, and an infinity beyond the range.  A
    denominator of zero does not reach it, [SetFrac] panics before. *)
Definition ratFloat64 (n d : N) : float :=
  match n, d with
  | N0, _ => 0%float
  | Npos _, N0 => infinity
  | Npos pn, Npos pd =>
      SF2Prim (SFdiv prec emax (S754_finite false pn 0) (S754_finite false pd 0))
  end.

End big.

Module netaddr.

(** Modelled from the spec: the methods of [modules.NetAddress] are not
    among the sources and the spec is silent on them; the theorems take
    them as parameters, and these instances serve the examples: the part
    of an address before its last colon, and the part after it. *)
Fixpoint splitLast (s : string) : option (string * string) :=
  match s with
  | EmptyString => None
  | String c rest =>
      match splitLast rest with
      | Some (h, p) => Some (String c h, p)
      | None => if Ascii.eqb c ":"%char then Some (EmptyString, rest) else None
      end
  end.

Definition Host (s : string) : string :=
  match splitLast s with Some (h, _) => h | None => EmptyString end.

Definition Port (s : string) : string :=
  match splitLast s with Some (_, p) => p | None => EmptyString end.

(** Modelled from the spec: [NetAddress.IsLoopback], which is not among
    the sources either, on the two loopback hosts of the examples. *)
Definition IsLoopback (s : string) : bool :=
  String.eqb (Host s) "localhost" || String.eqb (Host s) "127.0.0.1".

Definition lowerByte (c : ascii) : ascii :=
  let n := N_of_ascii c in
  if (65 <=? n)%N && (n <=? 90)%N then ascii_of_N (n + 32) else c.

(** [strings.ToLower] on ASCII. *)
Fixpoint ToLower (s : string) : string :=
  match s with
  | EmptyString => EmptyString
  | String c rest => String (lowerByte c) (ToLower rest)
  end.

End netaddr.

Module Requests.

(** A form with the given parameters. *)
Definition form (pairs : list (string * string)) : handlers.Form :=
  fun key =>
    match find (fun kv => String.eqb (fst kv) key) pairs with
    | Some kv => snd kv
    | None => EmptyString
    end.

(** Modelled from the spec: [modules.DefaultAllowance] is not among the
    sources and the spec does not give its values; the theorems take it
    as a parameter, and this allowance stands for it in the examples. *)
Definition fallback : handlers.Allowance :=
  {| handlers.base := {| modules.Funds := 500%N; modules.Hosts := 50%N;
                         modules.Period := 12096%N; modules.RenewWindow := 4032%N |};
     handlers.ExpectedStorage := 1000000000000%N;
     handlers.ExpectedUpload := 46%N;
     handlers.ExpectedDownload := 23%N;
     handlers.ExpectedRedundancy := 3%float |}.

(** The settings of a renter that was never configured. *)
Definition unset : handlers.RenterSettings :=
  {| handlers.allowance :=
       {| handlers.base := handlers.zeroAllowance;
          handlers.ExpectedStorage := 0%N; handlers.ExpectedUpload := 0%N;
          handlers.ExpectedDownload := 0%N; handlers.ExpectedRedundancy := 0%float |};
     handlers.MaxDownloadSpeed := 0%Z; handlers.MaxUploadSpeed := 0%Z;
     handlers.StreamCacheSize := 0%N; handlers.IPViolationsCheck := false |}.

(** The settings of a configured renter. *)
Definition configured : handlers.RenterSettings :=
  {| handlers.allowance := fallback;
     handlers.MaxDownloadSpeed := 0%Z; handlers.MaxUploadSpeed := 0%Z;
     handlers.StreamCacheSize := 2%N; handlers.IPViolationsCheck := true |}.

(** [reflect.DeepEqual(allowance, modules.Allowance{})]. *)
Definition isZeroValue (a : modules.Allowance) : bool :=
  (modules.Funds a =? 0)%N && (modules.Hosts a =? 0)%N
  && (modules.Period a =? 0)%N && (modules.RenewWindow a =? 0)%N.

(** A host first seen at the given height. *)
Definition seenAt (h : N) : modules.HostDBEntry :=
  {| modules.Collateral := 2480%N; modules.MaxCollateral := 0%N;
     modules.ContractPrice := 0%N; modules.StoragePrice := 0%N;
     modules.UploadBandwidthPrice := 0%N; modules.DownloadBandwidthPrice := 0%N;
     modules.RemainingStorage := 0%N; modules.Version := "1.3.2";
     modules.FirstSeen := h; modules.HistoricDowntime := 0%Z;
     modules.HistoricUptime := 0%Z; modules.ScanHistory := Examples.threeGoodScans;
     modules.HistoricFailedInteractions := 0%float;
     modules.HistoricSuccessfulInteractions := 0%float |}.

(** A host whose three scans carry the same timestamp. *)
Definition scannedAtOnce : modules.HostDBEntry :=
  Examples.noPrices 1 100 0
    [ {| modules.Timestamp := 5%Z; modules.Success := true |};
      {| modules.Timestamp := 5%Z; modules.Success := false |};
      {| modules.Timestamp := 5%Z; modules.Success := true |} ].


(** A configuration of the daemon that listens on the local host. *)
Definition localConfig : siad.Config :=
  {| siad.Siad := {| siad.APIaddr := "localhost:9980"; siad.RPCaddr := "9981";
                     siad.HostAddr := "9982"; siad.Modules := "CGHRTW";
                     siad.Profile := ""; siad.AllowAPIBind := false;
                     siad.AuthenticateAPI := false |};
     siad.APIPassword := "" |}.

End Requests.
(** * Theorems *)

(** ** IEEE-754 rounding as SpecFloat computes it *)

Section Rounding.

Import F64 Round.
Local Open Scope Z_scope.

Lemma fexp_eq (e : Z) : fexp prec emax e = Z.max (e - 53) (-1074).
Proof. reflexivity. Qed.

Lemma digits2_pos_size (p : positive) : digits2_pos p = Pos.size p.
Proof. induction p as [p IH | p IH | ]; cbn; now rewrite ?IH. Qed.

Lemma Zdigits2_log2 (m : Z) : 0 < m -> Zdigits2 m = Z.log2 m + 1.
Proof.
  destruct m as [ | p | p]; try lia. intros _. cbn [Zdigits2].
  rewrite digits2_pos_size. destruct p; cbn; lia.
Qed.

Lemma Zdigits2_bounds (m : Z) : 0 < m -> 2 ^ (Zdigits2 m - 1) <= m < 2 ^ Zdigits2 m.
Proof.
  intros H. rewrite Zdigits2_log2 by assumption.
  replace (Z.log2 m + 1 - 1) with (Z.log2 m) by lia.
  replace (Z.log2 m + 1) with (Z.succ (Z.log2 m)) by lia.
  now apply Z.log2_spec.
Qed.

Lemma Zdigits2_unique (m d : Z) : 0 < d -> 2 ^ (d - 1) <= m < 2 ^ d -> Zdigits2 m = d.
Proof.
  intros Hd H. assert (0 < m) by (pose proof (Z.pow_pos_nonneg 2 (d - 1)); lia).
  rewrite Zdigits2_log2 by assumption.
  rewrite (Z.log2_unique m (d - 1)); try lia.
  replace (Z.succ (d - 1)) with d by lia. assumption.
Qed.

Lemma Zdigits2_pos (m : Z) : 0 < m -> 0 < Zdigits2 m.
Proof. intros H. rewrite Zdigits2_log2 by assumption. pose proof (Z.log2_nonneg m). lia. Qed.

Lemma shr_1_m (mrs : shr_record) : 0 <= shr_m mrs -> shr_m (shr_1 mrs) = shr_m mrs / 2.
Proof.
  destruct mrs as [m r s]. cbn [shr_m]. intros H.
  destruct m as [ | [p | p | ] | p]; cbn [shr_1 shr_m]; try reflexivity.
  - rewrite Pos2Z.inj_xI. apply Z.div_unique with (r := 1); lia.
  - rewrite Pos2Z.inj_xO. apply Z.div_unique with (r := 0); lia.
  - lia.
Qed.

Lemma iter_shr_m (p : positive) (mrs : shr_record) :
  0 <= shr_m mrs -> shr_m (iter_pos shr_1 p mrs) = shr_m mrs / 2 ^ Zpos p.
Proof.
  revert mrs. induction p as [p IH | p IH | ]; intros mrs H; cbn [iter_pos].
  - assert (H1 : 0 <= shr_m (shr_1 mrs)) by (rewrite shr_1_m by assumption; apply Z.div_pos; lia).
    assert (H2 : 0 <= shr_m (iter_pos shr_1 p (shr_1 mrs)))
      by (rewrite IH by assumption; apply Z.div_pos; lia).
    rewrite IH, IH, shr_1_m by assumption.
    rewrite !Z.div_div by lia. f_equal.
    rewrite (Pos2Z.inj_xI p). replace (2 * Z.pos p + 1) with (Z.pos p + Z.pos p + 1) by lia.
    rewrite !Z.pow_add_r by lia. ring.
  - assert (H2 : 0 <= shr_m (iter_pos shr_1 p mrs))
      by (rewrite IH by assumption; apply Z.div_pos; lia).
    rewrite IH, IH by assumption.
    rewrite !Z.div_div by lia. f_equal.
    rewrite (Pos2Z.inj_xO p). replace (2 * Z.pos p) with (Z.pos p + Z.pos p) by lia.
    rewrite !Z.pow_add_r by lia. ring.
  - rewrite shr_1_m by assumption. reflexivity.
Qed.

Lemma shr_record_of_loc_m (m : Z) (l : location) : shr_m (shr_record_of_loc m l) = m.
Proof. destruct l as [ | [ | | ]]; reflexivity. Qed.

Lemma shr_spec (mrs : shr_record) (e n : Z) :
  0 <= shr_m mrs ->
  shr_m (fst (shr mrs e n)) = shr_m mrs / 2 ^ Z.max 0 n /\ snd (shr mrs e n) = e + Z.max 0 n.
Proof.
  intros H. destruct n as [ | p | p]; cbn [shr fst snd].
  - rewrite Z.max_id. cbn. rewrite Z.div_1_r. lia.
  - rewrite iter_shr_m by assumption. rewrite Z.max_r by lia. lia.
  - rewrite Z.max_l by lia. cbn. rewrite Z.div_1_r. lia.
Qed.

Lemma shr_fexp_spec (m e : Z) (l : location) :
  0 <= m ->
  let n := Z.max 0 (fexp prec emax (Zdigits2 m + e) - e) in
  shr_m (fst (shr_fexp prec emax m e l)) = m / 2 ^ n /\ snd (shr_fexp prec emax m e l) = e + n.
Proof.
  intros H n. unfold shr_fexp.
  pose proof (shr_spec (shr_record_of_loc m l) e (fexp prec emax (Zdigits2 m + e) - e)) as S.
  rewrite shr_record_of_loc_m in S. now apply S.
Qed.

Lemma round_nearest_even_bounds (m : Z) (l : location) :
  m <= round_nearest_even m l <= m + 1.
Proof.
  destruct l as [ | [ | | ]]; cbn [round_nearest_even]; try lia.
  destruct (Z.even m); lia.
Qed.

(** The result of [binary_round_aux] on a non-negative mantissa. *)
Lemma binary_round_aux_spec (s : bool) (m e : Z) (l : location) :
  0 <= m ->
  let n := Z.max 0 (fexp prec emax (Zdigits2 m + e) - e) in
  exists m2,
    m / 2 ^ n <= m2 <= m / 2 ^ n + 1 /\
    let n2 := Z.max 0 (fexp prec emax (Zdigits2 m2 + (e + n)) - (e + n)) in
    binary_round_aux prec emax s m e l = pack s (m2 / 2 ^ n2) (e + n + n2).
Proof.
  intros H n. unfold binary_round_aux.
  destruct (shr_fexp_spec m e l H) as [Hm He]. fold n in Hm, He.
  destruct (shr_fexp prec emax m e l) as [mrs' e'] eqn:E1. cbn [fst snd] in Hm, He.
  set (m2 := round_nearest_even (shr_m mrs') (loc_of_shr_record mrs')).
  exists m2.
  assert (Hb : m / 2 ^ n <= m2 <= m / 2 ^ n + 1).
  { rewrite <- Hm. apply round_nearest_even_bounds. }
  split; [exact Hb | ].
  assert (H2 : 0 <= m2).
  { assert (0 <= m / 2 ^ n) by (apply Z.div_pos; lia). lia. }
  subst e'. cbv zeta.
  destruct (shr_fexp_spec m2 (e + n) loc_Exact H2) as [Hm2 He2].
  destruct (shr_fexp prec emax m2 (e + n) loc_Exact) as [mrs'' e''].
  cbn [fst snd] in Hm2, He2. rewrite Hm2, He2. reflexivity.
Qed.

Lemma pack_signed (s : bool) (m e : Z) : 0 <= m -> signed s (pack s m e).
Proof.
  intros H. destruct m as [ | p | p]; unfold pack, signed; try reflexivity; try lia.
  destruct (e <=? emax - prec); reflexivity.
Qed.

Lemma binary_round_aux_signed (s : bool) (m e : Z) (l : location) :
  0 <= m -> signed s (binary_round_aux prec emax s m e l).
Proof.
  intros H. destruct (binary_round_aux_spec s m e l H) as [m2 [Hb Hr]].
  cbv zeta in Hr. rewrite Hr.
  apply pack_signed. apply Z.div_pos; [ | lia].
  assert (0 <= m / 2 ^ Z.max 0 (fexp prec emax (Zdigits2 m + e) - e)) by (apply Z.div_pos; lia).
  lia.
Qed.

Lemma binary_round_signed (s : bool) (m : positive) (e : Z) :
  signed s (binary_round prec emax s m e).
Proof.
  unfold binary_round. destruct (shl_align m e _) as [mz ez].
  apply binary_round_aux_signed. lia.
Qed.

Lemma binary_normalize_signed (m e : Z) :
  signed (m <? 0) (binary_normalize prec emax m e false).
Proof.
  destruct m as [ | p | p]; cbn [binary_normalize].
  - unfold signed. reflexivity.
  - apply binary_round_signed.
  - apply binary_round_signed.
Qed.

Lemma Zdigits2_0 : Zdigits2 0 = 0.
Proof. reflexivity. Qed.

Lemma Zdigits2_nonneg (m : Z) : 0 <= Zdigits2 m.
Proof. destruct m; cbn; lia. Qed.

Lemma Zdigits2_le (m j : Z) : 0 <= m -> 0 <= j -> m < 2 ^ j -> Zdigits2 m <= j.
Proof.
  intros Hm Hj H. destruct (Z.eq_dec m 0) as [-> | Hn]; [cbn; lia | ].
  destruct (Z.le_gt_cases (Zdigits2 m) j) as [Hle | Hgt]; [assumption | exfalso].
  pose proof (Zdigits2_bounds m ltac:(lia)) as [Hlo _].
  assert (2 ^ j <= 2 ^ (Zdigits2 m - 1)) by (apply Z.pow_le_mono_r; lia). lia.
Qed.

Lemma Zdigits2_gt (m j : Z) : 0 <= j -> 2 ^ j <= m -> j < Zdigits2 m.
Proof.
  intros Hj H. assert (0 < m) by (pose proof (Z.pow_pos_nonneg 2 j); lia).
  pose proof (Zdigits2_bounds m ltac:(lia)) as [_ Hhi].
  destruct (Z.lt_ge_cases j (Zdigits2 m)) as [Hlt | Hge]; [assumption | exfalso].
  assert (2 ^ Zdigits2 m <= 2 ^ j) by (apply Z.pow_le_mono_r; lia). lia.
Qed.

Lemma Zdigits2_mul_pow2 (m j : Z) : 0 < m -> 0 <= j -> Zdigits2 (m * 2 ^ j) = Zdigits2 m + j.
Proof.
  intros Hm Hj. pose proof (Zdigits2_bounds m Hm) as [Hlo Hhi].
  pose proof (Zdigits2_pos m Hm) as Hd.
  apply Zdigits2_unique; [lia | ].
  replace (Zdigits2 m + j - 1) with (Zdigits2 m - 1 + j) by lia.
  rewrite !Z.pow_add_r by lia.
  assert (0 < 2 ^ j) by (apply Z.pow_pos_nonneg; lia). nia.
Qed.

Lemma div_pow2_lt (m a n : Z) : 0 <= n <= a -> m < 2 ^ a -> m / 2 ^ n < 2 ^ (a - n).
Proof.
  intros Hn H. apply Z.div_lt_upper_bound; [apply Z.pow_pos_nonneg; lia | ].
  rewrite <- Z.pow_add_r by lia. replace (n + (a - n)) with a by lia. assumption.
Qed.

Lemma pos_iter_xO (d m : positive) : Zpos (Pos.iter xO m d) = Zpos m * 2 ^ Zpos d.
Proof.
  induction d as [ | d IH] using Pos.peano_ind.
  - cbn. lia.
  - rewrite Pos.iter_succ, Pos2Z.inj_xO, IH, Pos2Z.inj_succ, Z.pow_succ_r by lia. ring.
Qed.

Lemma shl_align_spec (mx : positive) (ex ex' : Z) :
  let r := shl_align mx ex ex' in
  snd r = Z.min ex ex' /\ Zpos (fst r) = Zpos mx * 2 ^ (ex - snd r).
Proof.
  unfold shl_align. destruct (ex' - ex) as [ | d | d] eqn:E; cbn [fst snd].
  - rewrite Z.min_l by lia. rewrite Z.sub_diag. cbn. lia.
  - rewrite Z.min_l by lia. rewrite Z.sub_diag. cbn. lia.
  - rewrite Z.min_r by lia. split; [reflexivity | ].
    rewrite pos_iter_xO. f_equal. f_equal. lia.
Qed.

(** Rounding a positive value below [2^k] gives at most [2^k]. *)
Lemma binary_round_below_pow2 (s : bool) (X : positive) (ez k : Z) :
  -1021 <= k <= 1023 -> ez <= k -> Zpos X < 2 ^ (k - ez) ->
  match binary_round prec emax s X ez with
  | S754_finite s' m3 e3 => s' = s /\ (e3 < k - 52 \/ (e3 = k - 52 /\ Zpos m3 = 2 ^ 52))
  | S754_zero s' => s' = s
  | _ => False
  end.
Proof.
  intros Hk Hez HX. unfold binary_round.
  pose proof (shl_align_spec X ez (fexp prec emax (Zpos (digits2_pos X) + ez))) as [He0 Hm0].
  destruct (shl_align X ez _) as [mz e0]. cbn [fst snd] in He0, Hm0.
  change (Zpos (digits2_pos X)) with (Zdigits2 (Zpos X)) in He0.
  set (D := Zdigits2 (Zpos X) + ez) in *.
  assert (HdX : Zdigits2 (Zpos X) <= k - ez) by (apply Zdigits2_le; lia).
  assert (HD : D <= k) by (unfold D; lia).
  assert (Hdz : Zdigits2 (Zpos mz) + e0 = D).
  { rewrite Hm0, Zdigits2_mul_pow2 by lia. unfold D. lia. }
  destruct (binary_round_aux_spec s (Zpos mz) e0 loc_Exact ltac:(lia)) as [m2 [Hb Hr]].
  cbv zeta in Hr. rewrite Hr. clear Hr.
  rewrite Hdz in *. rewrite !fexp_eq in *.
  set (e1 := Z.max (D - 53) (-1074)) in *.
  assert (Hn : Z.max 0 (e1 - e0) = e1 - e0) by lia.
  rewrite Hn in *. replace (e0 + (e1 - e0)) with e1 in * by lia.
  set (q := Zpos mz / 2 ^ (e1 - e0)) in *.
  assert (Hq0 : 0 <= q) by (apply Z.div_pos; lia).
  assert (Hmz : Zpos mz < 2 ^ (D - e0)).
  { rewrite <- Hdz. replace (Zdigits2 (Zpos mz) + e0 - e0) with (Zdigits2 (Zpos mz)) by lia.
    apply Zdigits2_bounds. lia. }
  assert (HDe0 : 0 < D - e0).
  { rewrite <- Hdz. pose proof (Zdigits2_pos (Zpos mz)). lia. }
  set (dq := Z.max 0 (D - e1)).
  assert (Hq : q < 2 ^ dq).
  { destruct (Z.le_gt_cases e1 D) as [Hle | Hgt].
    - unfold q, dq. rewrite Z.max_r by lia.
      replace (D - e1) with (D - e0 - (e1 - e0)) by lia.
      apply div_pow2_lt; lia.
    - unfold q, dq. rewrite Z.max_l by lia. rewrite Z.div_small; [cbn; lia | ].
      split; [lia | ].
      assert (2 ^ (D - e0) <= 2 ^ (e1 - e0)) by (apply Z.pow_le_mono_r; lia). lia. }
  assert (Hdq : 0 <= dq <= 53) by (unfold dq, e1; lia).
  assert (Hm2 : 0 <= m2 <= 2 ^ dq) by lia.
  set (n2 := Z.max 0 (Z.max (Zdigits2 m2 + e1 - 53) (-1074) - e1)).
  assert (Hd2 : Zdigits2 m2 <= dq + 1).
  { apply Zdigits2_le; try lia.
    rewrite Z.pow_add_r by lia. change (2 ^ 1) with 2.
    assert (0 < 2 ^ dq) by (apply Z.pow_pos_nonneg; lia). lia. }
  assert (Hm3 : 0 <= m2 / 2 ^ n2) by (apply Z.div_pos; lia).
  destruct (m2 / 2 ^ n2) as [ | m3 | m3] eqn:E3; cbn [pack]; [reflexivity | | lia].
  assert (He3 : e1 + n2 < k - 52 \/ (e1 + n2 = k - 52 /\ Zpos m3 = 2 ^ 52)).
  { destruct (Z.eq_dec (Zdigits2 m2 + e1) (k + 1)) as [Heq | Hne].
    - right. assert (HDk : D = k) by (unfold dq in Hd2; lia).
      assert (He1 : e1 = k - 53) by (unfold e1; lia).
      assert (Hdq53 : dq = 53) by (unfold dq; lia).
      assert (Hn2 : n2 = 1) by (unfold n2; lia).
      assert (m2 = 2 ^ 53).
      { assert (2 ^ (Zdigits2 m2 - 1) <= m2).
        { apply Zdigits2_bounds.
          destruct (Z.eq_dec m2 0) as [-> | ]; [cbn in Heq; lia | lia]. }
        replace (Zdigits2 m2 - 1) with 53 in * by lia.
        rewrite Hdq53 in Hm2. lia. }
      subst m2. rewrite Hn2 in E3. split; [lia | ].
      change (2 ^ 53 / 2 ^ 1) with (2 ^ 52) in E3. lia.
    - left. unfold n2, dq, e1 in *. lia. }
  assert ((e1 + n2 <=? emax - prec) = true) as ->.
  { apply Z.leb_le. change (emax - prec) with 971. lia. }
  split; [reflexivity | exact He3].
Qed.

Lemma div_pow2_ge (m a n : Z) : 0 <= n <= a -> 2 ^ a <= m -> 2 ^ (a - n) <= m / 2 ^ n.
Proof.
  intros Hn H. apply Z.div_le_lower_bound; [apply Z.pow_pos_nonneg; lia | ].
  rewrite <- Z.pow_add_r by lia. replace (n + (a - n)) with a by lia. assumption.
Qed.

(** The two shapes of a rounded value: the quotient or its successor at
    the exponent of the format, or a carry into the next binade. *)
Lemma binary_round_aux_cases (s : bool) (m e : Z) (l : location) :
  0 <= m ->
  let D := Zdigits2 m + e in
  let e1 := Z.max (D - 53) (-1074) in
  e <= e1 ->
  let q := m / 2 ^ (e1 - e) in
  q < 2 ^ Z.max 0 (D - e1) /\
  ((exists m3, q <= m3 <= q + 1 /\ m3 < 2 ^ 53 /\
               binary_round_aux prec emax s m e l = pack s m3 e1)
   \/ (q + 1 = 2 ^ 53 /\ e1 = D - 53 /\
       binary_round_aux prec emax s m e l = pack s (2 ^ 52) (e1 + 1))).
Proof.
  intros Hm D e1 He q.
  destruct (binary_round_aux_spec s m e l Hm) as [m2 [Hb Hr]].
  cbv zeta in Hr. rewrite Hr. clear Hr. rewrite !fexp_eq in *.
  fold D in Hb |- *. fold e1 in Hb |- *.
  rewrite (Z.max_r 0 (e1 - e)) in * by lia.
  replace (e + (e1 - e)) with e1 by lia. fold q in Hb.
  assert (Hq0 : 0 <= q) by (apply Z.div_pos; lia).
  set (dq := Z.max 0 (D - e1)).
  assert (Hdq : 0 <= dq <= 53) by (unfold dq, e1; lia).
  assert (Hq : q < 2 ^ dq).
  { destruct (Z.eq_dec m 0) as [-> | Hm0].
    - unfold q. rewrite Z.div_0_l by (apply Z.pow_nonzero; lia).
      apply Z.pow_pos_nonneg; lia.
    - pose proof (Zdigits2_bounds m ltac:(lia)) as [_ Hhi].
      pose proof (Zdigits2_pos m ltac:(lia)) as Hdp.
      destruct (Z.le_gt_cases e1 D) as [Hle | Hgt].
      + unfold q, dq. rewrite Z.max_r by lia.
        replace (D - e1) with (Zdigits2 m - (e1 - e)) by (unfold D; lia).
        apply div_pow2_lt; [unfold D in *; lia | assumption].
      + unfold q, dq. rewrite Z.max_l by lia. rewrite Z.div_small; [cbn; lia | ].
        split; [lia | ].
        assert (2 ^ Zdigits2 m <= 2 ^ (e1 - e)) by (apply Z.pow_le_mono_r; unfold D in *; lia).
        lia. }
  split; [exact Hq | ].
  assert (H53 : 2 ^ dq <= 2 ^ 53) by (apply Z.pow_le_mono_r; lia).
  destruct (Z.lt_ge_cases m2 (2 ^ 53)) as [Hlt | Hge].
  - left. exists m2. repeat split; try lia.
    assert (Zdigits2 m2 <= 53) by (apply Zdigits2_le; lia).
    rewrite (Z.max_l 0) by (unfold e1 in *; lia).
    change (2 ^ 0) with 1. rewrite Z.div_1_r, Z.add_0_r. reflexivity.
  - right. assert (Hm2 : m2 = 2 ^ 53) by lia.
    assert (dq = 53).
    { destruct (Z.eq_dec dq 53); [assumption | exfalso].
      assert (2 ^ dq <= 2 ^ 52) by (apply Z.pow_le_mono_r; lia).
      change (2 ^ 52) with 4503599627370496 in *.
      change (2 ^ 53) with 9007199254740992 in *. lia. }
    repeat split; [lia | unfold dq, e1 in *; lia | ].
    subst m2. change (Zdigits2 (2 ^ 53)) with 54.
    assert (e1 = D - 53) by (unfold dq, e1 in *; lia).
    rewrite (Z.max_r 0) by lia.
    replace (Z.max (54 + e1 - 53) (-1074) - e1) with 1 by lia.
    reflexivity.
Qed.

Lemma pack_valid (s : bool) (m e : Z) :
  (0 < m -> Z.max (Zdigits2 m + e - 53) (-1074) = e) ->
  valid_binary (pack s m e) = true.
Proof.
  intros H. destruct m as [ | p | p]; cbn [pack]; try reflexivity.
  destruct (e <=? emax - prec) eqn:E; [ | reflexivity].
  cbn [SpecFloat.valid_binary]. unfold bounded, canonical_mantissa.
  rewrite E, andb_true_r. apply Z.eqb_eq. rewrite fexp_eq.
  apply (H ltac:(lia)).
Qed.

Lemma binary_round_aux_valid (s : bool) (m e : Z) (l : location) :
  0 <= m -> e <= Z.max (Zdigits2 m + e - 53) (-1074) ->
  valid_binary (binary_round_aux prec emax s m e l) = true.
Proof.
  intros Hm He.
  destruct (binary_round_aux_cases s m e l Hm He) as [Hq [[m3 [Hb [H53 ->]]] | [Hc [He1 ->]]]].
  - apply pack_valid. intros Hm3.
    set (D := Zdigits2 m + e) in *. set (e1 := Z.max (D - 53) (-1074)) in *.
    assert (Zdigits2 m3 <= 53) by (apply Zdigits2_le; lia).
    destruct (Z.eq_dec e1 (-1074)) as [Hmin | Hnmin]; [lia | ].
    assert (He1 : e1 = D - 53) by (unfold e1 in *; lia).
    assert (Hm0 : 0 < m).
    { destruct (Z.eq_dec m 0) as [-> | ]; [ | lia].
      unfold D in *. cbn [Zdigits2] in *. unfold e1 in *. lia. }
    pose proof (Zdigits2_bounds m Hm0) as [Hlo _].
    assert (2 ^ 52 <= m / 2 ^ (e1 - e)).
    { replace 52 with (Zdigits2 m - 1 - (e1 - e)) by (unfold D in *; lia).
      apply div_pow2_ge; [unfold D in *; lia | assumption]. }
    assert (52 < Zdigits2 m3) by (apply Zdigits2_gt; lia).
    lia.
  - apply pack_valid. intros _. change (Zdigits2 (2 ^ 52)) with 53. lia.
Qed.

Lemma binary_round_valid (s : bool) (X : positive) (ez : Z) :
  valid_binary (binary_round prec emax s X ez) = true.
Proof.
  unfold binary_round.
  pose proof (shl_align_spec X ez (fexp prec emax (Zpos (digits2_pos X) + ez))) as [He0 Hm0].
  destruct (shl_align X ez _) as [mz e0]. cbn [fst snd] in He0, Hm0.
  change (Zpos (digits2_pos X)) with (Zdigits2 (Zpos X)) in He0.
  rewrite fexp_eq in He0.
  assert (Hdz : Zdigits2 (Zpos mz) + e0 = Zdigits2 (Zpos X) + ez).
  { rewrite Hm0, Zdigits2_mul_pow2 by lia. lia. }
  apply binary_round_aux_valid; [lia | ]. rewrite Hdz. lia.
Qed.

Lemma binary_normalize_valid (m e : Z) :
  valid_binary (binary_normalize prec emax m e false) = true.
Proof.
  destruct m; cbn [binary_normalize]; [reflexivity | apply binary_round_valid ..].
Qed.

(** Rounding a value of at least [2^j], in the normal range, gives a
    finite value of at least [2^j] or overflows. *)
Lemma binary_round_above_pow2 (s : bool) (X : positive) (ez j : Z) :
  -1022 <= j -> (ez <= j -> 2 ^ (j - ez) <= Zpos X) ->
  match binary_round prec emax s X ez with
  | S754_finite s' m3 e3 => s' = s /\ j - 52 <= e3
  | S754_infinity s' => s' = s
  | _ => False
  end.
Proof.
  intros Hj HX. unfold binary_round.
  pose proof (shl_align_spec X ez (fexp prec emax (Zpos (digits2_pos X) + ez))) as [He0 Hm0].
  destruct (shl_align X ez _) as [mz e0]. cbn [fst snd] in He0, Hm0.
  change (Zpos (digits2_pos X)) with (Zdigits2 (Zpos X)) in He0.
  rewrite fexp_eq in He0.
  assert (Hdz : Zdigits2 (Zpos mz) + e0 = Zdigits2 (Zpos X) + ez).
  { rewrite Hm0, Zdigits2_mul_pow2 by lia. lia. }
  assert (HD : j < Zdigits2 (Zpos X) + ez).
  { destruct (Z.le_gt_cases ez j) as [Hle | Hgt].
    - assert (j - ez < Zdigits2 (Zpos X)) by (apply Zdigits2_gt; [lia | auto]). lia.
    - pose proof (Zdigits2_pos (Zpos X)). lia. }
  assert (He : e0 <= Z.max (Zdigits2 (Zpos mz) + e0 - 53) (-1074)) by (rewrite Hdz; lia).
  destruct (binary_round_aux_cases s (Zpos mz) e0 loc_Exact ltac:(lia) He)
    as [Hq [[m3 [Hb [H53 ->]]] | [Hc [He1 ->]]]].
  - rewrite Hdz in *.
    set (D := Zdigits2 (Zpos X) + ez) in *. set (e1 := Z.max (D - 53) (-1074)) in *.
    pose proof (Zdigits2_bounds (Zpos mz) ltac:(lia)) as [Hlo _].
    pose proof (Zdigits2_pos (Zpos mz) ltac:(lia)).
    assert (2 ^ 0 <= Zpos mz / 2 ^ (e1 - e0)).
    { assert (2 ^ (Zdigits2 (Zpos mz) - 1 - (e1 - e0)) <= Zpos mz / 2 ^ (e1 - e0))
        by (apply div_pow2_ge; [unfold e1 in *; lia | assumption]).
      assert (2 ^ 0 <= 2 ^ (Zdigits2 (Zpos mz) - 1 - (e1 - e0)))
        by (apply Z.pow_le_mono_r; unfold e1 in *; lia).
      lia. }
    change (2 ^ 0) with 1 in *.
    destruct m3 as [ | m3 | m3]; try lia. cbn [pack].
    destruct (e1 <=? emax - prec); [ | reflexivity]. split; [reflexivity | unfold e1; lia].
  - rewrite Hdz in *. change (2 ^ 52) with 4503599627370496. cbn [pack].
    destruct (_ <=? emax - prec); [ | reflexivity]. split; [reflexivity | lia].
Qed.

Lemma signed_not_negative (x : spec_float) : signed false x -> not_negative x = true.
Proof. destruct x as [s | s | | s m e]; cbn; intros H; try subst s; try reflexivity; contradiction. Qed.

Lemma SFltb_one_below (s : bool) (m : positive) (e : Z) :
  (s = true \/ e < -52 \/ (e = -52 /\ Zpos m = 2 ^ 52)) ->
  SFltb sf_one (S754_finite s m e) = false.
Proof.
  intros H. unfold SFltb, SFcompare, sf_one. destruct s; [reflexivity | ].
  destruct H as [H | [H | [H1 H2]]]; [discriminate | | ].
  - assert (E : (-52 ?= e) = Gt) by (apply Z.compare_gt_iff; lia). now rewrite E.
  - subst e. cbn. assert (m = 4503599627370496%positive) as -> by lia. reflexivity.
Qed.

(** Subtracting a float that is not negative from one never gives more
    than one. *)
Lemma SFsub_one_le (a : spec_float) :
  a = S754_nan \/ not_negative a = true ->
  SFltb sf_one (SFsub prec emax sf_one a) = false.
Proof.
  intros [-> | Ha]; [reflexivity | ].
  destruct a as [s | s | | s m e]; try (destruct s; try discriminate; reflexivity).
  - reflexivity.
  - destruct s; [discriminate | ]. clear Ha.
    unfold SFsub, sf_one. cbv zeta.
    set (ez := Z.min (-52) e).
    pose proof (shl_align_spec 4503599627370496 (-52) ez) as [Hs1 Hf1].
    pose proof (shl_align_spec m e ez) as [Hs2 Hf2].
    cbv zeta in Hs1, Hf1, Hs2, Hf2.
    rewrite Hs1 in Hf1. rewrite Hs2 in Hf2.
    rewrite (Z.min_r (-52) ez) in Hf1 by (unfold ez; lia).
    rewrite (Z.min_r e ez) in Hf2 by (unfold ez; lia).
    unfold cond_Zopp. rewrite Hf1, Hf2.
    assert (H1 : 4503599627370496 * 2 ^ (-52 - ez) = 2 ^ (0 - ez)).
    { change 4503599627370496 with (2 ^ 52). rewrite <- Z.pow_add_r by (unfold ez; lia).
      f_equal. lia. }
    rewrite H1.
    assert (HB : 0 < Zpos m * 2 ^ (e - ez)).
    { assert (0 < 2 ^ (e - ez)) by (apply Z.pow_pos_nonneg; unfold ez; lia). lia. }
    destruct (2 ^ (0 - ez) - Zpos m * 2 ^ (e - ez)) as [ | X | X] eqn:EX;
      cbn [binary_normalize].
    + reflexivity.
    + pose proof (binary_round_below_pow2 false X ez 0 ltac:(lia) ltac:(unfold ez; lia)
                                          ltac:(lia)) as HR.
      destruct (binary_round prec emax false X ez) as [s' | s' | | s' m3 e3];
        try contradiction.
      * reflexivity.
      * apply SFltb_one_below. right. destruct HR as [_ HR]. exact HR.
    + pose proof (binary_round_signed true X ez) as HR.
      destruct (binary_round prec emax true X ez) as [s' | s' | | s' m3 e3];
        cbn in HR; try contradiction; subst s'; try reflexivity.
Qed.

(** ** Rounding an exact mantissa: closed form and monotonicity *)

Lemma iter_pos_iter {A : Type} (f : A -> A) (p : positive) (x : A) :
  iter_pos f p x = Pos.iter f x p.
Proof.
  revert x. induction p as [p IH | p IH | ]; intros x; cbn [iter_pos Pos.iter].
  - rewrite !IH. now rewrite <- !Pos.iter_swap.
  - now rewrite !IH.
  - reflexivity.
Qed.

Lemma shr_1_r (mrs : shr_record) : 0 <= shr_m mrs -> shr_r (shr_1 mrs) = Z.odd (shr_m mrs).
Proof.
  destruct mrs as [m r s]. cbn [shr_m]. intros H.
  destruct m as [ | [p | p | ] | p]; cbn; try reflexivity. lia.
Qed.

Lemma shr_1_s (mrs : shr_record) : shr_s (shr_1 mrs) = shr_r mrs || shr_s mrs.
Proof.
  destruct mrs as [m r s]. destruct m as [ | [p | p | ] | [p | p | ]]; reflexivity.
Qed.

(** The round and sticky bits after a shift by [n] places of an exact
    mantissa compare twice the remainder with [2^n]. *)
Lemma iter_shr_bits (n : positive) (m : Z) :
  0 <= m ->
  let mrs := iter_pos shr_1 n {| shr_m := m; shr_r := false; shr_s := false |} in
  let rem := m mod 2 ^ Zpos n in
  shr_m mrs = m / 2 ^ Zpos n
  /\ shr_r mrs = (2 ^ (Zpos n - 1) <=? rem)
  /\ shr_s mrs = negb (rem mod 2 ^ (Zpos n - 1) =? 0).
Proof.
  intros Hm. cbv zeta. rewrite iter_pos_iter.
  induction n as [ | n IH] using Pos.peano_ind.
  - cbn [Pos.iter]. rewrite shr_1_m, shr_1_r, shr_1_s by (cbn; lia). cbn [shr_m shr_r shr_s].
    change (2 ^ (1 - 1)) with 1. change (2 ^ 1) with 2. rewrite Z.mod_1_r. cbn [orb Z.eqb negb].
    repeat split. rewrite Zodd_mod. destruct (Z.mod_pos_bound m 2 ltac:(lia)).
    destruct (Z.eqb_spec (m mod 2) 1), (Z.leb_spec 1 (m mod 2)); try reflexivity; lia.
  - rewrite Pos.iter_succ. destruct IH as [IHm [IHr IHs]].
    set (mrs := Pos.iter shr_1 _ n) in *.
    assert (H0 : 0 <= shr_m mrs) by (rewrite IHm; apply Z.div_pos; lia).
    rewrite shr_1_m, shr_1_r, shr_1_s by assumption. rewrite IHm, IHr, IHs.
    rewrite Pos2Z.inj_succ. replace (Z.succ (Zpos n) - 1) with (Zpos n) by lia.
    set (N := 2 ^ Zpos n). set (H := 2 ^ (Zpos n - 1)).
    assert (HN : N = 2 * H).
    { unfold N, H. rewrite <- Z.pow_succ_r by lia. f_equal. lia. }
    assert (HH : 0 < H) by (apply Z.pow_pos_nonneg; lia).
    rewrite Z.pow_succ_r by lia. fold N.
    assert (Hmod2 : m mod (2 * N) = m mod N + N * ((m / N) mod 2)).
    { rewrite (Z.mul_comm 2 N). apply Z.rem_mul_r; lia. }
    pose proof (Z.mod_pos_bound m N ltac:(lia)) as Hb1.
    pose proof (Z.mod_pos_bound (m / N) 2 ltac:(lia)) as Hb2.
    repeat split.
    + rewrite Z.div_div by lia. f_equal. lia.
    + rewrite Zodd_mod, Hmod2.
      destruct (Z.eqb_spec ((m / N) mod 2) 1), (Z.leb_spec N (m mod N + N * ((m / N) mod 2)));
        try reflexivity; nia.
    + assert (Hmm : (m mod (2 * N)) mod N = m mod N).
      { rewrite Hmod2. rewrite Z.mul_comm, Z.mod_add by lia. apply Z.mod_mod. lia. }
      rewrite Hmm.
      assert (Hmh : m mod N = (m mod N) mod H + H * ((m mod N / H) mod 2)).
      { rewrite <- Z.rem_mul_r by lia. rewrite <- (Z.mul_comm 2 H), <- HN.
        symmetry. apply Z.mod_mod. lia. }
      pose proof (Z.mod_pos_bound (m mod N) H ltac:(lia)) as Hb3.
      pose proof (Z.mod_pos_bound (m mod N / H) 2 ltac:(lia)) as Hb4.
      destruct (Z.leb_spec H (m mod N)), (Z.eqb_spec ((m mod N) mod H) 0),
        (Z.eqb_spec (m mod N) 0); cbn; try reflexivity; try nia.
      rewrite Z.mod_small in e by lia. contradiction.
Qed.


Lemma rne_bounds (m n : Z) : m / 2 ^ n <= rne m n <= m / 2 ^ n + 1.
Proof. unfold rne. cbv zeta. destruct (_ || _); lia. Qed.

Lemma rne_0 (m : Z) : rne m 0 = m.
Proof.
  unfold rne. cbv zeta. change (2 ^ 0) with 1. rewrite Z.mod_1_r, Z.div_1_r. reflexivity.
Qed.

Lemma shr_fexp_exact (m e : Z) :
  0 <= m ->
  let n := Z.max 0 (fexp prec emax (Zdigits2 m + e) - e) in
  let mrs := fst (shr_fexp prec emax m e loc_Exact) in
  round_nearest_even (shr_m mrs) (loc_of_shr_record mrs) = rne m n.
Proof.
  intros Hm. cbv zeta. unfold shr_fexp, shr. cbn [shr_record_of_loc].
  destruct (fexp prec emax (Zdigits2 m + e) - e) as [ | p | p] eqn:E; cbn [fst].
  - cbn [loc_of_shr_record round_nearest_even shr_m]. now rewrite Z.max_id, rne_0.
  - rewrite Z.max_r by lia.
    destruct (iter_shr_bits p m Hm) as [Hq [Hr Hs]].
    set (mrs := iter_pos shr_1 p _) in *.
    destruct mrs as [q r s]. cbn [shr_m shr_r shr_s] in *. subst q.
    unfold rne. cbv zeta.
    set (N := 2 ^ Zpos p) in *. set (H := 2 ^ (Zpos p - 1)) in *.
    assert (HN : N = 2 * H).
    { unfold N, H. rewrite <- Z.pow_succ_r by lia. f_equal. lia. }
    assert (HH : 0 < H) by (apply Z.pow_pos_nonneg; lia).
    pose proof (Z.mod_pos_bound m N ltac:(lia)) as Hb.
    set (rem := m mod N) in *.
    destruct (Z.leb_spec H rem) as [Hge | Hlt]; subst r.
    + assert (Hrem : rem mod H = rem - H).
      { symmetry. apply Z.mod_unique with (q := 1); lia. }
      rewrite Hrem in Hs.
      destruct (Z.eqb_spec (rem - H) 0) as [E0 | E0]; subst s; cbn [negb loc_of_shr_record].
      * cbn [round_nearest_even].
        assert ((N <? 2 * rem) = false) as -> by (apply Z.ltb_ge; lia).
        assert ((2 * rem =? N) = true) as -> by (apply Z.eqb_eq; lia).
        cbn [orb andb]. rewrite <- Z.negb_odd. now destruct (Z.odd (m / N)).
      * cbn [round_nearest_even].
        assert ((N <? 2 * rem) = true) as -> by (apply Z.ltb_lt; lia). reflexivity.
    + rewrite (Z.mod_small rem H) in Hs by lia.
      assert ((N <? 2 * rem) = false) as -> by (apply Z.ltb_ge; lia).
      assert ((2 * rem =? N) = false) as -> by (apply Z.eqb_neq; lia).
      cbn [orb andb].
      destruct (Z.eqb_spec rem 0); subst s; reflexivity.
  - cbn [loc_of_shr_record round_nearest_even shr_m]. rewrite Z.max_l by lia. now rewrite rne_0.
Qed.

(** The rounding of an exact mantissa, in closed form. *)
Lemma binary_round_aux_exact (s : bool) (m e : Z) :
  0 <= m ->
  let e1 := Z.max (Zdigits2 m + e - 53) (-1074) in
  e <= e1 ->
  rne m (e1 - e) <= 2 ^ 53 /\
  binary_round_aux prec emax s m e loc_Exact =
  if rne m (e1 - e) <? 2 ^ 53 then pack s (rne m (e1 - e)) e1 else pack s (2 ^ 52) (e1 + 1).
Proof.
  intros Hm e1 He.
  destruct (binary_round_aux_cases s m e loc_Exact Hm He) as [Hq _]. fold e1 in Hq.
  pose proof (rne_bounds m (e1 - e)) as Hb.
  set (D := Zdigits2 m + e) in *.
  assert (Hdq : 0 <= Z.max 0 (D - e1) <= 53) by (unfold e1; lia).
  assert (H53 : 2 ^ Z.max 0 (D - e1) <= 2 ^ 53) by (apply Z.pow_le_mono_r; lia).
  split; [lia | ].
  unfold binary_round_aux.
  pose proof (shr_fexp_exact m e Hm) as Hx. cbv zeta in Hx.
  pose proof (shr_fexp_spec m e loc_Exact Hm) as [_ He'].
  rewrite fexp_eq in Hx, He'. fold D in Hx, He'. fold e1 in Hx, He'.
  rewrite (Z.max_r 0 (e1 - e)) in Hx, He' by lia.
  destruct (shr_fexp prec emax m e loc_Exact) as [mrs' e']. cbn [fst snd] in Hx, He'.
  rewrite Hx. subst e'. replace (e + (e1 - e)) with e1 by lia.
  set (m2 := rne m (e1 - e)) in *.
  assert (Hm2 : 0 <= m2) by (assert (0 <= m / 2 ^ (e1 - e)) by (apply Z.div_pos; lia); lia).
  pose proof (shr_fexp_spec m2 e1 loc_Exact Hm2) as [Hm3 He3]. rewrite fexp_eq in Hm3, He3.
  destruct (shr_fexp prec emax m2 e1 loc_Exact) as [mrs'' e'']. cbn [fst snd] in Hm3, He3.
  change (match shr_m mrs'' with
          | 0 => S754_zero s
          | Z.pos m0 => if e'' <=? emax - prec then S754_finite s m0 e'' else S754_infinity s
          | Z.neg _ => S754_nan
          end) with (pack s (shr_m mrs'') e'').
  rewrite Hm3, He3.
  destruct (Z.ltb_spec m2 (2 ^ 53)) as [Hlt | Hge].
  - assert (Zdigits2 m2 <= 53) by (apply Zdigits2_le; lia).
    rewrite (Z.max_l 0) by (unfold e1 in *; lia).
    change (2 ^ 0) with 1. now rewrite Z.div_1_r, Z.add_0_r.
  - assert (Hm2' : m2 = 2 ^ 53) by lia.
    assert (Z.max 0 (D - e1) = 53).
    { destruct (Z.eq_dec (Z.max 0 (D - e1)) 53); [assumption | exfalso].
      assert (2 ^ Z.max 0 (D - e1) <= 2 ^ 52) by (apply Z.pow_le_mono_r; lia).
      change (2 ^ 52) with 4503599627370496 in *.
      change (2 ^ 53) with 9007199254740992 in *. lia. }
    rewrite Hm2'. change (Zdigits2 (2 ^ 53)) with 54.
    assert (e1 = D - 53) by (unfold e1 in *; lia).
    rewrite (Z.max_r 0) by lia.
    replace (Z.max (54 + e1 - 53) (-1074) - e1) with 1 by lia.
    reflexivity.
Qed.

(** Rounding to nearest even is monotone in the value [m / 2^n]. *)
Lemma rne_mono (m n m' n' : Z) :
  0 <= m -> 0 <= m' -> 0 <= n -> 0 <= n' ->
  m * 2 ^ n' <= m' * 2 ^ n -> rne m n <= rne m' n'.
Proof.
  intros Hm Hm' Hn Hn' Hle. unfold rne. cbv zeta.
  set (N := 2 ^ n) in *. set (N' := 2 ^ n') in *.
  assert (HN : 0 < N) by (apply Z.pow_pos_nonneg; lia).
  assert (HN' : 0 < N') by (apply Z.pow_pos_nonneg; lia).
  pose proof (Z.div_mod m N ltac:(lia)) as Hd.
  pose proof (Z.div_mod m' N' ltac:(lia)) as Hd'.
  pose proof (Z.mod_pos_bound m N HN) as Hb.
  pose proof (Z.mod_pos_bound m' N' HN') as Hb'.
  set (q := m / N) in *. set (r := m mod N) in *.
  set (q' := m' / N') in *. set (r' := m' mod N') in *.
  clearbody q r q' r'.
  assert (Hq : q <= q').
  { destruct (Z.le_gt_cases q q'); [assumption | exfalso].
    assert (q' + 1 <= q) by lia.
    assert ((q' + 1) * N * N' <= q * N * N') by nia.
    assert (m' * N < (q' + 1) * N * N') by nia. nia. }
  destruct (Z.eq_dec q q') as [Heq | Hne].
  - subst q'. assert (Hr : r * N' <= r' * N) by nia.
    destruct (Z.ltb_spec N (2 * r)) as [H1 | H1]; cbn [orb].
    + assert ((N' <? 2 * r') = true) as -> by (apply Z.ltb_lt; nia). cbn [orb]. lia.
    + destruct (Z.eqb_spec (2 * r) N) as [H2 | H2]; cbn [andb].
      * destruct (Z.odd q) eqn:Eo.
        -- destruct (Z.ltb_spec N' (2 * r')) as [H3 | H3]; cbn [orb]; [lia | ].
           assert ((2 * r' =? N') = true) as -> by (apply Z.eqb_eq; nia).
           cbn [andb orb]. lia.
        -- destruct (_ || _); lia.
      * destruct (_ || _); lia.
  - destruct (_ || _), (_ || _); lia.
Qed.

Lemma pack_leb_same (r r' e : Z) :
  0 <= r <= r' -> SFleb (pack false r e) (pack false r' e) = true.
Proof.
  intros H. unfold pack.
  destruct r as [ | p | p], r' as [ | p' | p']; try lia;
    destruct (e <=? emax - prec); try reflexivity.
  unfold SFleb. cbn [SFcompare]. rewrite Z.compare_refl.
  change (Pcompare p p' Eq) with (p ?= p')%positive.
  destruct (Pos.compare_spec p p'); try reflexivity. lia.
Qed.

Lemma pack_leb_lt (r r' e e' : Z) :
  0 <= r -> 0 < r' -> e < e' -> SFleb (pack false r e) (pack false r' e') = true.
Proof.
  intros Hr Hr' He. unfold pack.
  destruct r as [ | p | p], r' as [ | p' | p']; try lia.
  - destruct (e' <=? emax - prec); reflexivity.
  - destruct (Z.leb_spec e' (emax - prec)).
    + assert ((e <=? emax - prec) = true) as -> by (apply Z.leb_le; lia).
      unfold SFleb. cbn [SFcompare].
      assert ((e ?= e') = Lt) as -> by (apply Z.compare_lt_iff; lia). reflexivity.
    + destruct (e <=? emax - prec); reflexivity.
Qed.

Lemma pow2_pos (k : Z) : 0 <= k -> 0 < 2 ^ k.
Proof. intros H. apply Z.pow_pos_nonneg; lia. Qed.

(** Rounding is monotone: of two positive values [m * 2^e <= m' * 2^e']
    the roundings are in the same order. *)
Lemma binary_round_aux_mono (m e m' e' b : Z) :
  0 < m -> 0 < m' ->
  e <= Z.max (Zdigits2 m + e - 53) (-1074) ->
  e' <= Z.max (Zdigits2 m' + e' - 53) (-1074) ->
  b <= e -> b <= e' ->
  m * 2 ^ (e - b) <= m' * 2 ^ (e' - b) ->
  SFleb (binary_round_aux prec emax false m e loc_Exact)
        (binary_round_aux prec emax false m' e' loc_Exact) = true.
Proof.
  intros Hm Hm' He He' Hb Hb' Hle.
  destruct (binary_round_aux_exact false m e ltac:(lia) He) as [Hr ->].
  destruct (binary_round_aux_exact false m' e' ltac:(lia) He') as [Hr' ->].
  pose proof (Zdigits2_bounds m Hm) as [Hlo Hhi].
  pose proof (Zdigits2_bounds m' Hm') as [Hlo' Hhi'].
  pose proof (Zdigits2_pos m Hm) as Hd.
  pose proof (Zdigits2_pos m' Hm') as Hd'.
  set (d := Zdigits2 m) in *. set (d' := Zdigits2 m') in *.
  assert (HD : d + e <= d' + e').
  { assert (H1 : 2 ^ (d - 1 + (e - b)) <= m * 2 ^ (e - b)).
    { rewrite Z.pow_add_r by lia. apply Z.mul_le_mono_nonneg_r; [ | assumption].
      apply Z.lt_le_incl, pow2_pos. lia. }
    assert (H2 : m' * 2 ^ (e' - b) < 2 ^ (d' + (e' - b))).
    { rewrite Z.pow_add_r by lia. apply Z.mul_lt_mono_pos_r; [ | assumption].
      apply pow2_pos. lia. }
    assert (H3 : 2 ^ (d - 1 + (e - b)) < 2 ^ (d' + (e' - b))) by lia.
    apply Z.pow_lt_mono_r_iff in H3; lia. }
  set (e1 := Z.max (d + e - 53) (-1074)) in *.
  set (e1' := Z.max (d' + e' - 53) (-1074)) in *.
  assert (He1 : e1 <= e1') by (unfold e1, e1'; lia).
  pose proof (rne_bounds m (e1 - e)) as Hrb.
  pose proof (rne_bounds m' (e1' - e')) as Hrb'.
  assert (Hq : 0 <= m / 2 ^ (e1 - e)) by (apply Z.div_pos; [lia | apply pow2_pos; lia]).
  assert (Hq' : 0 <= m' / 2 ^ (e1' - e')) by (apply Z.div_pos; [lia | apply pow2_pos; lia]).
  set (r := rne m (e1 - e)) in *. set (r' := rne m' (e1' - e')) in *.
  change (2 ^ 53) with 9007199254740992 in *. change (2 ^ 52) with 4503599627370496.
  destruct (Z.eq_dec e1 e1') as [Heq | Hne].
  - assert (Hrr : r <= r').
    { unfold r, r'. apply rne_mono; try lia. rewrite <- Heq.
      assert (HK : 0 < 2 ^ (e1 - b)) by (apply pow2_pos; lia).
      assert (E1 : m * 2 ^ (e1 - e') * 2 ^ (e1 - b)
                   = m * 2 ^ (e - b) * (2 ^ (e1 - e') * 2 ^ (e1 - e))).
      { replace (e1 - b) with ((e - b) + (e1 - e)) at 1 by lia.
        rewrite Z.pow_add_r by lia. ring. }
      assert (E2 : m' * 2 ^ (e1 - e) * 2 ^ (e1 - b)
                   = m' * 2 ^ (e' - b) * (2 ^ (e1 - e') * 2 ^ (e1 - e))).
      { replace (e1 - b) with ((e' - b) + (e1 - e')) at 1 by lia.
        rewrite Z.pow_add_r by lia. ring. }
      assert (HP : 0 < 2 ^ (e1 - e') * 2 ^ (e1 - e)).
      { apply Z.mul_pos_pos; apply pow2_pos; lia. }
      apply (Z.mul_le_mono_pos_r _ _ (2 ^ (e1 - b)) HK).
      rewrite E1, E2. apply Z.mul_le_mono_nonneg_r; lia. }
    rewrite <- Heq.
    destruct (Z.ltb_spec r 9007199254740992), (Z.ltb_spec r' 9007199254740992).
    + apply pack_leb_same. lia.
    + apply pack_leb_lt; lia.
    + lia.
    + apply pack_leb_same. lia.
  - assert (Hlt : e1 < e1') by lia.
    assert (He1' : e1' = d' + e' - 53) by (unfold e1, e1' in *; lia).
    assert (Hr52 : 4503599627370496 <= r').
    { change 4503599627370496 with (2 ^ 52).
      replace 52 with ((d' - 1) - (e1' - e')) by lia.
      etransitivity; [ | apply Hrb'].
      apply div_pow2_ge; lia. }
    destruct (Z.ltb_spec r 9007199254740992), (Z.ltb_spec r' 9007199254740992).
    + apply pack_leb_lt; lia.
    + apply pack_leb_lt; lia.
    + destruct (Z.eq_dec (e1 + 1) e1') as [<- | ].
      * apply pack_leb_same. lia.
      * apply pack_leb_lt; lia.
    + apply pack_leb_lt; lia.
Qed.


Lemma valid_finite (s : bool) (m : positive) (e : Z) :
  valid_binary (S754_finite s m e) = true ->
  Z.max (Zdigits2 (Zpos m) + e - 53) (-1074) = e /\ e <= 971.
Proof.
  cbn [SpecFloat.valid_binary]. unfold bounded, canonical_mantissa.
  intros H. apply andb_true_iff in H as [H1 H2].
  apply Z.eqb_eq in H1. apply Z.leb_le in H2. rewrite fexp_eq in H1.
  split; [exact H1 | exact H2].
Qed.



(** On valid positive floats the comparison of the data is the order of
    the values. *)
Lemma SFleb_value (mx my : positive) (ex ey : Z) :
  valid_binary (S754_finite false mx ex) = true ->
  valid_binary (S754_finite false my ey) = true ->
  SFleb (S754_finite false mx ex) (S754_finite false my ey) = true ->
  Zpos mx * 2 ^ (ex + 1074) <= Zpos my * 2 ^ (ey + 1074).
Proof.
  intros Vx Vy. apply valid_finite in Vx as [Hx _]. apply valid_finite in Vy as [Hy _].
  unfold SFleb. cbn [SFcompare].
  pose proof (Zdigits2_bounds (Zpos mx) ltac:(lia)) as [_ Hhx].
  pose proof (Zdigits2_bounds (Zpos my) ltac:(lia)) as [Hly _].
  destruct (Z.compare_spec ex ey) as [Heq | Hlt | Hgt]; try discriminate.
  - change (Pcompare mx my Eq) with (mx ?= my)%positive.
    destruct (Pos.compare_spec mx my); try discriminate; intros _; subst ey;
      apply Z.mul_le_mono_nonneg_r; try lia; apply Z.lt_le_incl, pow2_pos; lia.
  - intros _.
    assert (Hdy : Zdigits2 (Zpos my) = 53) by lia.
    assert (Hdx : Zdigits2 (Zpos mx) <= 53) by lia.
    rewrite Hdy in Hly.
    assert (H1 : Zpos mx * 2 ^ (ex + 1074) < 2 ^ (53 + (ex + 1074))).
    { rewrite (Z.pow_add_r 2 53 (ex + 1074)) by lia.
      apply Z.mul_lt_mono_pos_r; [apply pow2_pos; lia | ].
      eapply Z.lt_le_trans; [exact Hhx | apply Z.pow_le_mono_r; lia]. }
    assert (H2 : 2 ^ (52 + (ey + 1074)) <= Zpos my * 2 ^ (ey + 1074)).
    { rewrite (Z.pow_add_r 2 52 (ey + 1074)) by lia.
      apply Z.mul_le_mono_nonneg_r; [ | exact Hly].
      apply Z.lt_le_incl, pow2_pos; lia. }
    assert (H3 : 2 ^ (53 + (ex + 1074)) <= 2 ^ (52 + (ey + 1074))).
    { apply Z.pow_le_mono_r; lia. }
    lia.
Qed.

Lemma SFleb_zero_signed (s : bool) (r : spec_float) :
  signed false r -> SFleb (S754_zero s) r = true.
Proof.
  destruct r as [s' | s' | | s' m e]; cbn [signed]; intros H; try contradiction;
    subst; reflexivity.
Qed.




Lemma SFleb_refl (x : spec_float) : finite_nonneg x = true -> SFleb x x = true.
Proof.
  destruct x as [s | s | | [ | ] m e]; intros H; try discriminate; try reflexivity.
  unfold SFleb. cbn [SFcompare]. rewrite Z.compare_refl.
  change (Pcompare m m Eq) with (m ?= m)%positive. now rewrite Pos.compare_refl.
Qed.



End Rounding.

(** ** Facts about float64 operations *)

Section Float64.

Import F64 Round.
Local Open Scope float_scope.

Lemma of_Z_spec (z : Z) : Prim2SF (of_Z z) = binary_normalize prec emax z 0 false.
Proof. unfold of_Z. apply Prim2SF_SF2Prim, binary_normalize_valid. Qed.

Lemma of_Z_not_negative (z : Z) : (0 <= z)%Z -> not_negative (Prim2SF (of_Z z)) = true.
Proof.
  intros H. rewrite of_Z_spec. apply signed_not_negative.
  pose proof (binary_normalize_signed z 0) as S.
  assert (E : (z <? 0)%Z = false) by (apply Z.ltb_ge; lia). now rewrite E in S.
Qed.

(** A product of two floats that are not negative is not negative, or a
    NaN (zero times infinity). *)
Lemma mul_not_negative (x y : float) :
  not_negative (Prim2SF x) = true -> not_negative (Prim2SF y) = true ->
  Prim2SF (x * y) = S754_nan \/ not_negative (Prim2SF (x * y)) = true.
Proof.
  rewrite mul_spec. unfold SF64mul.
  destruct (Prim2SF x) as [sx | [ | ] | | [ | ] mx ex];
    destruct (Prim2SF y) as [sy | [ | ] | | [ | ] my ey];
    intros Hx Hy; try discriminate; cbn [SFmul xorb];
    try (right; reflexivity); try (left; reflexivity).
  right. apply signed_not_negative, binary_round_aux_signed. lia.
Qed.

Lemma sub_one_le (a : float) :
  Prim2SF a = S754_nan \/ not_negative (Prim2SF a) = true ->
  (1 <? 1 - a) = false.
Proof.
  intros H. rewrite ltb_spec, sub_spec. change (Prim2SF 1) with sf_one.
  now apply SFsub_one_le.
Qed.

(** The floor that the length of the scan history puts under the uptime
    ratio never exceeds one. *)
Lemma history_floor_at_most_one (scans : nat) :
  (1 <? 1 - 0.03 * of_Z (Z.of_nat scans)) = false.
Proof.
  apply sub_one_le, mul_not_negative; [reflexivity | ].
  apply of_Z_not_negative. lia.
Qed.

Lemma SFcompare_finite_eq (m : positive) (e : Z) (y : spec_float) :
  SFcompare (S754_finite false m e) y = Some Eq -> y = S754_finite false m e.
Proof.
  destruct y as [s | s | | s m' e']; cbn [SFcompare]; try discriminate;
    try (destruct s; discriminate).
  destruct s; [discriminate | ].
  destruct (e ?= e')%Z eqn:E; try discriminate.
  intros H. injection H as H. apply Pos.compare_eq in H. apply Z.compare_eq in E.
  now subst.
Qed.

(** A float that is at least, and not above, a positive finite float is
    that float. *)
Lemma leb_not_ltb_eq (c q : float) (m : positive) (e : Z) :
  Prim2SF c = S754_finite false m e ->
  (c <=? q) = true -> (c <? q) = false -> q = c.
Proof.
  intros Hc. rewrite leb_spec, ltb_spec. unfold SFleb, SFltb. rewrite Hc.
  destruct (SFcompare (S754_finite false m e) (Prim2SF q)) as [[ | | ] | ] eqn:E;
    try discriminate.
  intros _ _. apply SFcompare_finite_eq in E. apply Prim2SF_inj. now rewrite Hc.
Qed.

Lemma of_N_positive_finite (k : N) :
  (1 <= k <= MaxUint64)%N -> is_positive_finite (of_N k) = true.
Proof.
  intros Hk. unfold is_positive_finite, of_N. rewrite of_Z_spec.
  destruct k as [ | p]; [lia | ]. cbn [Z.of_N binary_normalize].
  pose proof (binary_round_above_pow2 false p 0 0 ltac:(lia) ltac:(cbn; lia)) as Hlo.
  assert (Hp : (Zpos p < 2 ^ (64 - 0))%Z) by (unfold MaxUint64 in Hk; cbn; lia).
  pose proof (binary_round_below_pow2 false p 0 64 ltac:(lia) ltac:(lia) Hp) as Hhi.
  destruct (binary_round prec emax false p 0) as [s | s | | s m e]; try contradiction.
  now destruct Hlo as [-> _].
Qed.

Lemma of_N_nonneg_finite (c : N) :
  (c <= MaxUint64)%N -> is_nonneg_finite (of_N c) = true.
Proof.
  intros Hc. destruct (N.eq_dec c 0) as [-> | Hn]; [reflexivity | ].
  pose proof (of_N_positive_finite c ltac:(lia)) as H.
  unfold is_positive_finite in H. unfold is_nonneg_finite.
  destruct (Prim2SF (of_N c)) as [s | s | | [ | ] m e]; try discriminate. reflexivity.
Qed.

Lemma SFdiv_core_binary_nonneg (m1 m2 : positive) (e1 e2 : Z) :
  (0 <= fst (fst (SFdiv_core_binary prec emax (Zpos m1) e1 (Zpos m2) e2)))%Z.
Proof.
  unfold SFdiv_core_binary. cbv zeta.
  set (s := (e1 - e2 - _)%Z).
  set (m' := match s with Z0 => Zpos m1 | Zpos _ => Z.shiftl (Zpos m1) s | Zneg _ => 0%Z end).
  assert (Hm' : (0 <= m')%Z).
  { unfold m'. destruct s; try lia. apply Z.shiftl_nonneg. lia. }
  pose proof (Z.div_eucl_eq m' (Zpos m2) ltac:(lia)) as Hdiv.
  pose proof (Z.mod_pos_bound m' (Zpos m2) ltac:(lia)) as Hmod.
  unfold Z.modulo in Hmod.
  destruct (Z.div_eucl m' (Zpos m2)) as [q r]. cbn [fst snd] in *. nia.
Qed.

(** A quotient of a finite float that is not negative by a finite
    positive float is not a NaN and not negative. *)
Lemma div_nonneg (x y : float) :
  is_nonneg_finite x = true -> is_positive_finite y = true -> is_nonneg (x / y) = true.
Proof.
  unfold is_nonneg_finite, is_positive_finite, is_nonneg. rewrite div_spec. unfold SF64div.
  destruct (Prim2SF x) as [sx | sx | | [ | ] mx ex];
    destruct (Prim2SF y) as [sy | sy | | [ | ] my ey];
    intros Hx Hy; try discriminate; cbn [SFdiv xorb]; try reflexivity.
  pose proof (SFdiv_core_binary_nonneg mx my ex ey) as Hq.
  destruct (SFdiv_core_binary prec emax (Zpos mx) ex (Zpos my) ey) as [[mz ez] lz].
  cbn [fst] in Hq. now apply signed_not_negative, binary_round_aux_signed.
Qed.

(** A product of two finite floats that are not negative is not a NaN
    and not negative. *)
Lemma mul_nonneg_finite (x y : float) :
  is_nonneg_finite x = true -> is_nonneg_finite y = true -> is_nonneg (x * y) = true.
Proof.
  unfold is_nonneg_finite, is_nonneg. rewrite mul_spec. unfold SF64mul.
  destruct (Prim2SF x) as [sx | sx | | [ | ] mx ex];
    destruct (Prim2SF y) as [sy | sy | | [ | ] my ey];
    intros Hx Hy; try discriminate; cbn [SFmul xorb]; try reflexivity.
  apply signed_not_negative, binary_round_aux_signed. lia.
Qed.

(** ** The order of floats and multiplication *)

Lemma is_nonneg_finite_sf (x : float) : is_nonneg_finite x = finite_nonneg (Prim2SF x).
Proof. reflexivity. Qed.

Lemma leb_refl (x : float) : is_nonneg_finite x = true -> (x <=? x) = true.
Proof. rewrite leb_spec. apply SFleb_refl. Qed.









End Float64.
(** ** Collateral: the cap on the collateral used for scoring *)

Section CollateralCap.

Import modules hostdb.
Local Open Scope N_scope.

Lemma Div64_nonzero (x y : N) : y <> 0 -> types.Div64 x y = Some (x / y).
Proof.
  intros Hy. unfold types.Div64.
  destruct (N.eqb_spec y 0) as [E | _]; [contradiction | reflexivity].
Qed.

Lemma Div_nonzero (x y : N) : y <> 0 -> types.Div x y = Some (x / y).
Proof.
  intros Hy. unfold types.Div.
  destruct (N.eqb_spec y 0) as [E | _]; [contradiction | reflexivity].
Qed.

Lemma Cmp_lt (x y : N) : (types.Cmp x y <? 0)%Z = (x <? y).
Proof.
  unfold types.Cmp, N.ltb. destruct (x ?= y); reflexivity.
Qed.

Lemma orOne_nonzero (v : N) : orOne v <> 0.
Proof.
  unfold orOne. destruct (N.eqb_spec v 0); [discriminate | assumption].
Qed.

(** The collateral that the code scores with is the larger of the
    advertised collateral and the cap, not the smaller. *)
Lemma hostCollateralFor_max (entry : HostDBEntry) (period expectedStorage : N) :
  period <> 0 -> expectedStorage <> 0 ->
  hostCollateralFor entry period expectedStorage =
  Some (N.max (Collateral entry)
              (MaxCollateral entry / (2 * period * expectedStorage))).
Proof.
  intros Hp He. unfold hostCollateralFor, bind.
  rewrite !Div64_nonzero by (assumption || discriminate).
  rewrite Cmp_lt. unfold types.Mul64.
  assert (Hcap : MaxCollateral entry / period / expectedStorage / 2 =
                 MaxCollateral entry / (2 * period * expectedStorage)).
  { rewrite !N.Div0.div_div. f_equal. lia. }
  assert (Hhalf : MaxCollateral entry / (2 * period * expectedStorage) =
                  MaxCollateral entry / 2 / (period * expectedStorage)).
  { rewrite N.Div0.div_div. f_equal. lia. }
  assert (Hpos : 0 < period * expectedStorage) by lia.
  destruct (N.ltb_spec (Collateral entry * period * expectedStorage)
                       (MaxCollateral entry / 2)) as [Hlt | Hge].
  - rewrite Hcap.
    f_equal. symmetry. apply N.max_r. rewrite Hhalf.
    apply N.div_le_lower_bound; lia.
  - f_equal. symmetry. apply N.max_l. rewrite Hhalf.
    apply N.Div0.div_le_upper_bound; lia.
Qed.

End CollateralCap.

(** C1, evaluated on the code: a host that advertises a collateral of 1
    per byte-block and a maximum collateral of 100, scored for a period of
    one block and an expected storage of one byte.  The claim's formula
    min(collateral, max_collateral / (2 * period * expected_storage)) gives
    1; the code scores with 50, the value of the cap, which is the larger
    of the two. *)
Theorem collateral_cap_is_reversed :
  hostdb.hostCollateralFor Examples.smallCollateral
    (hostdb.orOne 1) (hostdb.orOne 1) = Some 50%N /\
  Spec.host_collateral Examples.smallCollateral 1 1 = 1%N.
Proof. split; reflexivity. Qed.

(** ** Storage remaining: the step function *)

Lemma setRemainingStorage_get (entry : modules.HostDBEntry) (r : N) :
  modules.RemainingStorage (setRemainingStorage entry r) = r.
Proof. reflexivity. Qed.

Ltac split_thresholds :=
  repeat match goal with
         | |- context [N.ltb ?a ?b] => destruct (N.ltb a b)
         end.

(** The cascade of the code, which divides by 2, computes the same
    floats as the fold of the spec, which multiplies by 0.5. *)
Lemma storageRemainingAdjustments_fold (release : build.ReleaseType)
      (entry : modules.HostDBEntry) :
  hostdb.storageRemainingAdjustments release entry =
  Spec.storage_factor (hostdb.requiredStorage release) (modules.RemainingStorage entry).
Proof.
  unfold hostdb.storageRemainingAdjustments, Spec.storage_factor, Spec.storageThresholds.
  cbn [fold_left]. rewrite N.mul_1_l.
  split_thresholds; reflexivity.
Qed.

Lemma storage_factor_below_150 (required : N) :
  (1000 <= required)%N ->
  Spec.storage_factor required (150 * required - 1) = 0.25%float.
Proof.
  intros H. unfold Spec.storage_factor, Spec.storageThresholds. cbn [fold_left].
  repeat match goal with
         | |- context [N.ltb ?a ?b] =>
             let E := fresh "E" in
             destruct (N.ltb_spec a b) as [E | E]; try lia
         end.
  reflexivity.
Qed.

Lemma storage_factor_above_150 (required : N) :
  (1000 <= required)%N ->
  Spec.storage_factor required (150 * required + 1) = 0.5%float.
Proof.
  intros H. unfold Spec.storage_factor, Spec.storageThresholds. cbn [fold_left].
  repeat match goal with
         | |- context [N.ltb ?a ?b] =>
             let E := fresh "E" in
             destruct (N.ltb_spec a b) as [E | E]; try lia
         end.
  reflexivity.
Qed.

Lemma requiredStorage_ge (release : build.ReleaseType) :
  (1000 <= hostdb.requiredStorage release)%N.
Proof. destruct release; cbn; lia. Qed.

(** C4: for every build flavour and entry, the storage-remaining factor of
    the code is the cumulative step function of the spec (start at 1,
    times 0.5 for each threshold of 200, 150, 100, 80, 40, 20, 15, 10, 5,
    3, 2, 1 times the required storage that the remaining storage lies
    strictly below); with a remaining storage of 150 * required - 1 the
    factor is exactly 1/4, with 150 * required + 1 it is exactly 1/2. *)
Theorem storage_factor_steps (release : build.ReleaseType) (entry : modules.HostDBEntry) :
  hostdb.storageRemainingAdjustments release entry =
    Spec.storage_factor (hostdb.requiredStorage release) (modules.RemainingStorage entry)
  /\ hostdb.storageRemainingAdjustments release
       (setRemainingStorage entry (150 * hostdb.requiredStorage release - 1)) = 0.25%float
  /\ hostdb.storageRemainingAdjustments release
       (setRemainingStorage entry (150 * hostdb.requiredStorage release + 1)) = 0.5%float.
Proof.
  repeat split.
  - apply storageRemainingAdjustments_fold.
  - rewrite storageRemainingAdjustments_fold, setRemainingStorage_get.
    apply storage_factor_below_150, requiredStorage_ge.
  - rewrite storageRemainingAdjustments_fold, setRemainingStorage_get.
    apply storage_factor_above_150, requiredStorage_ge.
Qed.

(** ** Version: the table is disabled *)

Lemma float_neq (x y : float) : Prim2SF x <> Prim2SF y -> x <> y.
Proof. intros H E. apply H. now rewrite E. Qed.

(** C6, the claim as stated fails: a host that advertises version 1.3.0,
    below the hard-fork threshold 1.3.1 of the source's commented-out
    table, has a version factor of 1 and not the smallest positive
    double; and a host on the outdated version 1.3.1 has a factor that is
    not below 1. *)
Lemma version_penalty_not_applied :
  Spec.belowHardFork Examples.smallCollateral = true
  /\ hostdb.versionAdjustments Examples.smallCollateral <> F64.SmallestNonzeroFloat64
  /\ (hostdb.versionAdjustments (Examples.noPrices 0 0 0 []) <? 1)%float = false.
Proof.
  split; [reflexivity | split; [ | reflexivity ] ].
  apply float_neq. vm_compute. discriminate.
Qed.

(** C6, amended: whatever version an entry advertises, its version
    adjustment factor is exactly 1. *)
Theorem versionAdjustments_is_one (entry : modules.HostDBEntry) :
  hostdb.versionAdjustments entry = 1%float.
Proof. reflexivity. Qed.

(** ** The contracts listing *)

Section ContractsListing.

Import api.
Local Open Scope N_scope.

Variables (inactive expired : bool) (blockHeight : types.BlockHeight).

Let isExpired (c : modules.RenterContract) : bool :=
  expired && (modules.EndHeight c <? blockHeight).

Let isInactiveOld (c : modules.RenterContract) : bool :=
  inactive && (blockHeight <=? modules.EndHeight c).

Lemma filter_none {A : Type} (l : list A) : filter (fun _ => false) l = [].
Proof. induction l as [ | a l IH]; [reflexivity | exact IH]. Qed.

Lemma stepContract_expired (cs : list modules.RenterContract) (acc : RenterContracts) :
  ExpiredContracts (fold_left (stepContract inactive) cs acc) = ExpiredContracts acc.
Proof.
  revert acc. induction cs as [ | c cs IH]; intros acc; cbn [fold_left].
  - reflexivity.
  - rewrite IH. reflexivity.
Qed.

Lemma stepContract_inactive (cs : list modules.RenterContract) (acc : RenterContracts) :
  InactiveContracts (fold_left (stepContract inactive) cs acc) =
  InactiveContracts acc ++
  map build (filter (fun c => inactive && negb (modules.GoodForRenew (modules.Utility c))) cs).
Proof.
  revert acc. induction cs as [ | c cs IH]; intros acc; cbn [fold_left filter].
  - now rewrite app_nil_r.
  - rewrite IH. unfold stepContract. cbn [InactiveContracts].
    destruct (modules.GoodForRenew (modules.Utility c)), inactive; cbn;
      rewrite <- ?app_assoc; reflexivity.
Qed.

Lemma stepOldContract_expired (olds : list modules.RenterContract) (acc : RenterContracts) :
  ExpiredContracts (fold_left (stepOldContract inactive expired blockHeight) olds acc) =
  ExpiredContracts acc ++ map build (filter isExpired olds).
Proof.
  revert acc. induction olds as [ | c olds IH]; intros acc; cbn [fold_left filter].
  - now rewrite app_nil_r.
  - rewrite IH. unfold stepOldContract, isExpired.
    destruct (expired && (modules.EndHeight c <? blockHeight)); cbn.
    + now rewrite <- app_assoc.
    + destruct (inactive && (blockHeight <=? modules.EndHeight c)); reflexivity.
Qed.

Lemma stepOldContract_inactive (olds : list modules.RenterContract) (acc : RenterContracts) :
  InactiveContracts (fold_left (stepOldContract inactive expired blockHeight) olds acc) =
  InactiveContracts acc ++ map build (filter isInactiveOld olds).
Proof.
  revert acc. induction olds as [ | c olds IH]; intros acc; cbn [fold_left filter].
  - now rewrite app_nil_r.
  - rewrite IH. unfold stepOldContract, isInactiveOld.
    destruct (N.ltb_spec (modules.EndHeight c) blockHeight) as [Hlt | Hge];
      destruct (N.leb_spec blockHeight (modules.EndHeight c)) as [Hle | Hgt];
      try lia; destruct expired, inactive; cbn; rewrite <- ?app_assoc; reflexivity.
Qed.

(** The expired list holds the archived contracts that ended strictly
    before the current height, when the expired flag is set. *)
Lemma handler_expired (cs olds : list modules.RenterContract) :
  ExpiredContracts (renterContractsHandler inactive expired blockHeight cs olds) =
  map build (filter isExpired olds).
Proof.
  unfold renterContractsHandler.
  destruct (expired || inactive) eqn:E.
  - rewrite stepOldContract_expired, stepContract_expired. reflexivity.
  - rewrite stepContract_expired. apply orb_false_elim in E as [E _]. cbn.
    unfold isExpired. rewrite E. cbn [andb].
    now rewrite (filter_none olds).
Qed.

Lemma handler_inactive (cs olds : list modules.RenterContract) :
  InactiveContracts (renterContractsHandler inactive expired blockHeight cs olds) =
  map build (filter (fun c => inactive && negb (modules.GoodForRenew (modules.Utility c))) cs)
  ++ map build (filter isInactiveOld olds).
Proof.
  unfold renterContractsHandler.
  destruct (expired || inactive) eqn:E.
  - rewrite stepOldContract_inactive, stepContract_inactive. reflexivity.
  - rewrite stepContract_inactive. apply orb_false_elim in E as [_ E]. cbn [InactiveContracts app].
    unfold isInactiveOld. rewrite E. cbn [andb].
    rewrite (filter_none olds). cbn [map]. now rewrite app_nil_r.
Qed.

(** C9, amended: an archived contract whose end height is strictly below
    the current block height is listed as expired when the expired flag
    is set; one whose end height is at or above the current block height
    is listed as inactive when the inactive flag is set; and every contract
    of the expired list has an end height strictly below the current
    block height, so a contract that ends at the current height is
    reported as inactive, never as expired. *)
Theorem archived_contract_classification
        (cs olds : list modules.RenterContract) (c : modules.RenterContract) :
  In c olds ->
  let r := renterContractsHandler inactive expired blockHeight cs olds in
  (expired = true -> modules.EndHeight c < blockHeight -> In (build c) (ExpiredContracts r))
  /\ (inactive = true -> blockHeight <= modules.EndHeight c ->
      In (build c) (InactiveContracts r))
  /\ (forall x, In x (ExpiredContracts r) -> EndHeight x < blockHeight).
Proof.
  intros Hin r. subst r. rewrite handler_expired, handler_inactive.
  repeat split.
  - intros He Hlt. apply in_map, filter_In. split; [assumption | ].
    unfold isExpired. rewrite He. cbn. now apply N.ltb_lt.
  - intros Hi Hle. apply in_or_app. right. apply in_map, filter_In.
    split; [assumption | ]. unfold isInactiveOld. rewrite Hi. cbn. now apply N.leb_le.
  - intros x Hx. apply in_map_iff in Hx as [c' [<- Hc']].
    apply filter_In in Hc' as [_ Hc']. unfold isExpired in Hc'.
    apply andb_prop in Hc' as [_ Hc']. now apply N.ltb_lt in Hc'.
Qed.

End ContractsListing.

(** C9, the claim as stated fails: with both flags set and a current
    block height of 100, an archived contract whose end height is 100
    (so that current_height >= end_height) is reported as inactive and
    not as expired. *)
Lemma contract_ending_now_is_inactive :
  let c := Examples.contractEnding 7%N 100%N false in
  let r := api.renterContractsHandler true true 100%N [] [c] in
  (modules.EndHeight c <= 100)%N
  /\ api.ExpiredContracts r = []
  /\ api.InactiveContracts r = [api.build c].
Proof. cbv zeta. split; [ | split]; [ apply N.le_refl | reflexivity | reflexivity ]. Qed.

Lemma archived_contract_classification_witness :
  let c := Examples.contractEnding 7%N 100%N false in
  let r := api.renterContractsHandler true true 100%N [] [c] in
  (true = true -> (modules.EndHeight c < 100)%N -> In (api.build c) (api.ExpiredContracts r))
  /\ (true = true -> (100 <= modules.EndHeight c)%N ->
      In (api.build c) (api.InactiveContracts r))
  /\ (forall x, In x (api.ExpiredContracts r) -> (api.EndHeight x < 100)%N).
Proof.
  exact (archived_contract_classification true true 100%N []
           [Examples.contractEnding 7%N 100%N false] (Examples.contractEnding 7%N 100%N false)
           (or_introl eq_refl)).
Defined.

(** ** Price: the normalised ratio *)

Section Price.

Import modules hostdb.
Local Open Scope N_scope.

Variable Pow : float -> float -> float.
Variable DEBUG : bool.

Lemma priceDivNormalization_value : priceDivNormalization = 2480.
Proof. reflexivity. Qed.

Lemma minTotalPrice_value : minTotalPrice = 248015873.
Proof. reflexivity. Qed.

Lemma Cmp_gt (x y : N) : (0 <? types.Cmp x y)%Z = (y <? x).
Proof.
  unfold types.Cmp, N.ltb. rewrite (N.compare_antisym x y).
  destruct (x ?= y); reflexivity.
Qed.

Lemma normalizedU64_value (c : types.Currency) :
  normalizedU64 c = Some (Spec.saturate64 (c / priceDivNormalization)).
Proof.
  unfold normalizedU64, bind. rewrite Div_nonzero by (rewrite priceDivNormalization_value; discriminate).
  unfold types.Uint64, types.NewCurrency64, Spec.saturate64. rewrite Cmp_gt.
  destruct (F64.MaxUint64 <? c / priceDivNormalization); reflexivity.
Qed.

Lemma totalPriceOf_spec (entry : HostDBEntry) (allowance : Allowance) (es uf df : N) :
  Period allowance <> 0 -> es <> 0 -> uf <> 0 -> df <> 0 ->
  totalPriceOf entry allowance es uf df =
  Some (Spec.total_price entry (Period allowance) es uf df).
Proof.
  intros Hp He Hu Hd. unfold totalPriceOf, bind.
  rewrite !Div64_nonzero by (assumption || discriminate).
  unfold Spec.total_price, types.Add. now rewrite N.Div0.div_div.
Qed.

Lemma totalPriceOf_zero_period (entry : HostDBEntry) (allowance : Allowance) (es uf df : N) :
  Period allowance = 0 -> totalPriceOf entry allowance es uf df = None.
Proof. intros Hp. unfold totalPriceOf. now rewrite Hp. Qed.

Lemma sanity_check_passes :
  (if DEBUG then
     t <- types.Div64 minTotalPrice 1000 ;;
     if (types.Cmp t priceDivNormalization <? 0)%Z then None else Some tt
   else Some tt) = Some tt.
Proof. destruct DEBUG; reflexivity. Qed.

Lemma priceAdjustments_zero_period (entry : HostDBEntry) (allowance : Allowance)
      (es uf df : N) :
  Period allowance = 0 -> priceAdjustments Pow DEBUG entry allowance es uf df = None.
Proof.
  intros Hp. unfold priceAdjustments. rewrite sanity_check_passes.
  cbn [bind]. now rewrite totalPriceOf_zero_period.
Qed.

Lemma priceAdjustments_value (entry : HostDBEntry) (allowance : Allowance) (es uf df : N) :
  Period allowance <> 0 -> es <> 0 -> uf <> 0 -> df <> 0 ->
  priceAdjustments Pow DEBUG entry allowance es uf df =
  Some (normalizedFactor Pow (Spec.total_price entry (Period allowance) es uf df)).
Proof.
  intros Hp He Hu Hd. unfold priceAdjustments. rewrite sanity_check_passes.
  cbn [bind]. rewrite totalPriceOf_spec by assumption. cbn [bind].
  rewrite !normalizedU64_value. cbn [bind]. rewrite Cmp_lt.
  unfold normalizedFactor. do 4 f_equal.
  destruct (N.ltb_spec (Spec.total_price entry (Period allowance) es uf df) minTotalPrice).
  - now rewrite N.max_r by lia.
  - now rewrite N.max_l by lia.
Qed.

Lemma normalizedFactor_at_min : normalizedFactor Pow minTotalPrice = Pow 1 5.
Proof. reflexivity. Qed.

Lemma normalizedFactor_at_twice_min : normalizedFactor Pow (2 * minTotalPrice) = Pow 0.5 5.
Proof. reflexivity. Qed.

(** C3, amended: when the period, the expected storage and the two
    frequencies are not zero, the price factor is Pow(b / a, 5), where b is
    the minimum total price and a the total price clamped from below by
    the minimum, each divided by the normalisation constant with
    truncation, saturated to 64 bits and converted to a double; the total
    price is storage_price + contract_price / (period * expected_storage)
    + upload_bw_price / upload_freq + (download_bw_price / download_freq) / 3
    in truncating integer division.  For a host whose total price is the
    minimum and one whose total price is twice the minimum the quotient
    b / a is exactly 1 and exactly 1/2, so with Pow(1, 5) = 1 and
    Pow(1/2, 5) = 1/32 the ratio of their factors is exactly 32. *)
Theorem price_factor_normalized
        (entry entryA entryB : HostDBEntry) (allowance : Allowance) (es uf df : N) :
  Period allowance <> 0 -> es <> 0 -> uf <> 0 -> df <> 0 ->
  priceAdjustments Pow DEBUG entry allowance es uf df =
    Some (normalizedFactor Pow (Spec.total_price entry (Period allowance) es uf df))
  /\ (Spec.total_price entryA (Period allowance) es uf df = minTotalPrice ->
      Spec.total_price entryB (Period allowance) es uf df = 2 * minTotalPrice ->
      Pow 1 5 = 1%float -> Pow 0.5 5 = 0.03125%float ->
      exists fA fB,
        priceAdjustments Pow DEBUG entryA allowance es uf df = Some fA
        /\ priceAdjustments Pow DEBUG entryB allowance es uf df = Some fB
        /\ (fA / fB)%float = 32%float).
Proof.
  intros Hp He Hu Hd. split.
  - now apply priceAdjustments_value.
  - intros HA HB H1 H2. exists 1%float, 0.03125%float.
    rewrite !priceAdjustments_value by assumption. rewrite HA, HB.
    rewrite normalizedFactor_at_min, normalizedFactor_at_twice_min, H1, H2.
    repeat split; reflexivity.
Qed.

End Price.

Lemma price_factor_normalized_witness :
  let a := Examples.allowanceOf 0 1 1 in
  let eA := Examples.pricedAt hostdb.minTotalPrice 0%float [] in
  let eB := Examples.pricedAt (2 * hostdb.minTotalPrice) 0%float [] in
  exists fA fB,
    hostdb.priceAdjustments math.Pow false eA a hostdb.expectedStorage
      hostdb.expectedUploadFrequency hostdb.expectedDownloadFrequency = Some fA
    /\ hostdb.priceAdjustments math.Pow false eB a hostdb.expectedStorage
         hostdb.expectedUploadFrequency hostdb.expectedDownloadFrequency = Some fB
    /\ (fA / fB)%float = 32%float.
Proof.
  cbv zeta.
  refine (proj2 (price_factor_normalized math.Pow false
                   (Examples.pricedAt hostdb.minTotalPrice 0%float [])
                   (Examples.pricedAt hostdb.minTotalPrice 0%float [])
                   (Examples.pricedAt (2 * hostdb.minTotalPrice) 0%float [])
                   (Examples.allowanceOf 0 1 1) hostdb.expectedStorage
                   hostdb.expectedUploadFrequency hostdb.expectedDownloadFrequency
                   _ _ _ _) _ _ _ _);
    solve [ discriminate | reflexivity ].
Defined.

(** C3, the claim as stated fails: a host whose only price is a storage
    price of one more than the minimum total price has a total price
    above the minimum, so that (min / total)^5 is below 1; but the code
    divides both prices by the normalisation constant 2480 with
    truncation, both quotients are 100006, and the factor is exactly 1. *)
Lemma price_factor_is_not_the_exact_ratio :
  let e := Examples.pricedAt (hostdb.minTotalPrice + 1) 0%float [] in
  let total := Spec.total_price e 1 hostdb.expectedStorage
                 hostdb.expectedUploadFrequency hostdb.expectedDownloadFrequency in
  total = (hostdb.minTotalPrice + 1)%N
  /\ hostdb.priceAdjustments math.Pow false e (Examples.allowanceOf 0 1 1)
       hostdb.expectedStorage hostdb.expectedUploadFrequency
       hostdb.expectedDownloadFrequency = Some 1%float
  /\ ~ Spec.agrees 1%float (Spec.price_factor hostdb.minTotalPrice total).
Proof.
  cbv zeta. split; [reflexivity | split; [reflexivity | ] ].
  vm_compute. discriminate.
Qed.

(** ** The weight function on an allowance without a period *)

Section ZeroPeriod.

Import modules hostdb.

Variable Pow : float -> float -> float.
Variable MulFloat : types.Currency -> float -> types.Currency.
Variable DEBUG : bool.
Variable Release : build.ReleaseType.

(** C2, evaluated on the code: for an allowance whose period is 0 the
    weight function returns no weight at all.  [collateralAdjustments]
    guards its own copy of the allowance against a zero period, but
    [priceAdjustments] divides the contract price by the period as it is,
    and the division of a currency by zero panics. *)
Theorem weight_panics_on_zero_period
        (hdb : HostDB) (funds : types.Currency) (hosts : N) (renew : types.BlockHeight)
        (entry : HostDBEntry) :
  calculateHostWeightFn Pow MulFloat DEBUG Release hdb
    {| Funds := funds; Hosts := hosts; Period := 0%N; RenewWindow := renew |} entry = None.
Proof.
  unfold calculateHostWeightFn.
  destruct (collateralAdjustments Pow entry _ expectedStorage) as [c | ]; [ | reflexivity].
  cbn [bind]. now rewrite priceAdjustments_zero_period.
Qed.

End ZeroPeriod.

(** ** The score estimate *)

(** C7, evaluated on the code: a host first seen 100000 blocks ago, with
    three successful scans an hour apart and no failed interaction, has an
    age factor of 1 and an uptime factor of 1, so replacing them by 1
    changes nothing; its weight is 10^80 times the interaction factor
    (30/31)^15, but its estimated score is 10^80: the estimate leaves the
    interaction factor out as well. *)
Theorem estimate_drops_interaction_factor :
  let hdb := Examples.hdbAt 100000 in
  let a := Examples.allowanceOf 0 1 1 in
  let e := Examples.matureHost in
  hostdb.lifetimeAdjustments hdb e = 1%float
  /\ hostdb.uptimeAdjustments math.Pow false e = Some 1%float
  /\ hostdb.interactionAdjustments math.Pow e = 0.61149570820845522%float
  /\ option_map modules.Score
       (hostdb.EstimateHostScore math.Pow types.MulFloat false build.Standard hdb e a)
     = Some (10 ^ 80)%N
  /\ hostdb.calculateHostWeightFn math.Pow types.MulFloat false build.Standard hdb a e
     = Some 61149570820845522423070406148326583206653594970703125000000000000000000000000000%N.
Proof. cbv zeta. repeat split; vm_compute; reflexivity. Qed.

(** ** Uptime: 98% and more is full marks *)

Section Uptime.

Import modules hostdb F64.

Variable Pow : float -> float -> float.
Variable DEBUG : bool.

(** On scans in chronological order the loop never meets the [Critical]
    log, so a debug build measures what a release build measures. *)
Lemma scan_loop_chronological (rest : list HostDBScan) (acc : scanTotals) :
  Sorted (fun a b => (Timestamp a <= Timestamp b)%Z) rest ->
  HdRel (fun a b => (Timestamp a <= Timestamp b)%Z)
        {| Timestamp := recentTime acc; Success := recentSuccess acc |} rest ->
  fold_left (scanStep DEBUG) rest (Some acc) = fold_left (scanStep false) rest (Some acc).
Proof.
  revert acc. induction rest as [ | scan rest IH]; intros acc Hs Hh; [reflexivity | ].
  cbn [fold_left]. unfold scanStep at 2 4. cbn [bind].
  inversion Hh as [ | b l Hle]; subst. cbn [Timestamp] in Hle.
  unfold time.After.
  assert (E : (Timestamp scan <? recentTime acc)%Z = false) by (apply Z.ltb_ge; lia).
  rewrite E. inversion Hs as [ | a l Hs' Hh']; subst.
  apply IH; [assumption | ].
  destruct Hh' as [ | b l Hb]; constructor. exact Hb.
Qed.

Lemma measure_chronological (entry : HostDBEntry) (s0 : HostDBScan) (rest : list HostDBScan) :
  Spec.chronological (s0 :: rest) ->
  measure DEBUG entry s0 rest = measure false entry s0 rest.
Proof.
  intros Hs. unfold measure. inversion Hs as [ | a l Hs' Hh]; subst.
  apply scan_loop_chronological; [assumption | ].
  destruct Hh as [ | b l Hb]; constructor. exact Hb.
Qed.

Lemma uptimePenalty_full (uptime downtime : time.Duration) (scans : nat) :
  (0 < uptime + downtime)%Z ->
  (0.98 <=? of_Z uptime / of_Z (time.add uptime downtime))%float = true ->
  Pow 1 0 = 1%float ->
  uptimePenalty Pow uptime downtime scans = 1%float.
Proof.
  intros Hpos Hq HPow. unfold uptimePenalty.
  assert (E0 : ((uptime =? 0)%Z && (downtime =? 0)%Z) = false).
  { destruct (Z.eqb_spec uptime 0), (Z.eqb_spec downtime 0); try reflexivity. lia. }
  rewrite E0. set (q := (of_Z uptime / of_Z (time.add uptime downtime))%float) in *.
  assert (Hr : (if (0.98 <? q)%float then 0.98%float else q) = 0.98%float).
  { destruct (0.98 <? q)%float eqn:E; [reflexivity | ].
    apply (leb_not_ltb_eq 0.98 q 8827055269646172 (-53)); [reflexivity | assumption ..]. }
  rewrite Hr. change (0.98 + 0.02)%float with 1%float.
  rewrite history_floor_at_most_one.
  change (200 * math.Min (1 - 1) 0.30)%float with 0%float. exact HPow.
Qed.

(** C5: for an entry with at least three scans in chronological order
    whose measured uptime plus downtime is positive, if the measured
    uptime ratio float64(uptime) / float64(uptime + downtime) is at least
    0.98, the uptime adjustment factor is exactly 1: the ratio is capped
    at 0.98, the shift by 0.02 gives 1, the floor set by the number of
    scans is not above 1, the exponent 200 * min(1 - 1, 0.30) is 0, and
    Pow(1, 0) is 1. *)
Theorem uptime_at_98_percent (entry : HostDBEntry) (t : scanTotals) :
  (3 <= List.length (ScanHistory entry))%nat ->
  Spec.chronological (ScanHistory entry) ->
  Spec.measured entry = Some t ->
  (0 < uptime t + downtime t)%Z ->
  (0.98 <=? of_Z (uptime t) / of_Z (time.add (uptime t) (downtime t)))%float = true ->
  Pow 1 0 = 1%float ->
  uptimeAdjustments Pow DEBUG entry = Some 1%float.
Proof.
  intros Hlen Hs Hm Hpos Hq HPow. unfold uptimeAdjustments, Spec.measured in *.
  destruct (ScanHistory entry) as [ | s0 [ | s1 [ | s2 rest]]] eqn:E;
    cbn [List.length] in Hlen; try lia.
  rewrite measure_chronological by assumption. rewrite Hm. cbn [bind].
  f_equal. now apply uptimePenalty_full.
Qed.

End Uptime.

Lemma uptime_at_98_percent_witness :
  hostdb.uptimeAdjustments math.Pow true Examples.matureHost = Some 1%float.
Proof.
  apply (uptime_at_98_percent math.Pow true Examples.matureHost
           {| hostdb.uptime := (2 * Examples.hour)%Z; hostdb.downtime := 0%Z;
              hostdb.recentTime := (2 * Examples.hour)%Z; hostdb.recentSuccess := true |}).
  - cbn. lia.
  - repeat constructor; cbn; unfold Examples.hour; lia.
  - reflexivity.
  - reflexivity.
  - reflexivity.
  - reflexivity.
Defined.

(** ** Collateral: no division by zero *)

Section CollateralTotal.

Import modules hostdb F64.
Local Open Scope N_scope.

Variable Pow : float -> float -> float.

Lemma orOne_idempotent (v : N) : orOne (orOne v) = orOne v.
Proof. unfold orOne. destruct (N.eqb_spec v 0) as [-> | H]; [reflexivity | ].
       destruct (N.eqb_spec v 0); [contradiction | reflexivity]. Qed.

Lemma cutoffFor_value (allowance : Allowance) (hosts period es : N) (h : types.Currency) :
  hosts <> 0 -> period <> 0 -> es <> 0 ->
  cutoffFor allowance hosts period es h =
  Some (N.max (Funds allowance / hosts / period / es / 3) h).
Proof.
  intros Hh Hp He. unfold cutoffFor, bind.
  rewrite !Div64_nonzero by (assumption || discriminate). rewrite Cmp_lt.
  destruct (N.ltb_spec (Funds allowance / hosts / period / es / 3) h).
  - now rewrite N.max_r by lia.
  - now rewrite N.max_l by lia.
Qed.

Lemma Uint64_bound (c : types.Currency) : fst (types.Uint64 c) <= MaxUint64.
Proof.
  unfold types.Uint64, types.NewCurrency64. rewrite Cmp_gt.
  destruct (N.ltb_spec MaxUint64 c); cbn [fst]; [unfold MaxUint64 | ]; lia.
Qed.

Lemma normalized64_value (h k : types.Currency) :
  exists collateral64 cutoff64,
    normalized64 h k = Some (collateral64, cutoff64)
    /\ collateral64 <= MaxUint64 /\ 1 <= cutoff64 <= MaxUint64.
Proof.
  unfold normalized64, bind.
  rewrite !Div_nonzero by (rewrite priceDivNormalization_value; discriminate).
  eexists _, _. split; [reflexivity | ]. split; [apply Uint64_bound | ].
  pose proof (Uint64_bound (k / priceDivNormalization)) as Hb.
  destruct (N.eqb_spec (fst (types.Uint64 (k / priceDivNormalization))) 0);
    [unfold MaxUint64 | ]; lia.
Qed.

(** C10: for every entry, allowance and expected storage the collateral
    adjustment returns a float and divides by no zero.  A zero number of
    hosts, period or expected storage is treated as 1 (the result is the
    one for the guarded values); the normalised cutoff used as divisor is
    a 64-bit value of at least 1, whose conversion is a finite positive
    float, so the ratio collateral64 / cutoff64 is a float that is not a
    NaN and not negative; and the result, the product of Pow(cutoff64,
    5.5) and Pow(ratio, 0.65), is not a NaN and not negative whenever
    these two powers are finite and not negative. *)
Theorem collateralAdjustments_total
        (entry : HostDBEntry) (allowance : Allowance) (expectedStorage : N) :
  collateralAdjustments Pow entry allowance expectedStorage =
    collateralAdjustments Pow entry (Spec.guarded allowance) (orOne expectedStorage)
  /\ exists collateral64 cutoff64 : N,
      collateralAdjustments Pow entry allowance expectedStorage =
        Some (collateralWeight Pow collateral64 cutoff64)
      /\ collateral64 <= MaxUint64 /\ 1 <= cutoff64 <= MaxUint64
      /\ is_positive_finite (of_N cutoff64) = true
      /\ is_nonneg (of_N collateral64 / of_N cutoff64)%float = true
      /\ (is_nonneg_finite (Pow (of_N cutoff64) collateralExponentiationSmall) = true ->
          is_nonneg_finite (Pow (of_N collateral64 / of_N cutoff64)%float
                                collateralExponentiationLarge) = true ->
          is_nonneg (collateralWeight Pow collateral64 cutoff64) = true).
Proof.
  split.
  - unfold collateralAdjustments, Spec.guarded. cbn [Hosts Period Funds].
    now rewrite !orOne_idempotent.
  - unfold collateralAdjustments.
    rewrite hostCollateralFor_max by apply orOne_nonzero. cbn [bind].
    rewrite cutoffFor_value by apply orOne_nonzero. cbn [bind].
    destruct (normalized64_value
                (N.max (Collateral entry)
                   (MaxCollateral entry / (2 * orOne (Period allowance) * orOne expectedStorage)))
                (N.max (Funds allowance / orOne (Hosts allowance) / orOne (Period allowance)
                        / orOne expectedStorage / 3)
                   (N.max (Collateral entry)
                      (MaxCollateral entry
                       / (2 * orOne (Period allowance) * orOne expectedStorage)))))
      as [c64 [k64 [E [Hc Hk]]]].
    rewrite E. cbn [bind fst snd]. exists c64, k64.
    pose proof (of_N_positive_finite k64 Hk) as Hkf.
    pose proof (of_N_nonneg_finite c64 Hc) as Hcf.
    repeat split; try assumption; try lia.
    + now apply div_nonneg.
    + intros H1 H2. unfold collateralWeight. now apply mul_nonneg_finite.
Qed.

End CollateralTotal.

(** ** The storage factor is monotone *)

Section StorageMonotone.

Import F64.

Variable required : N.






End StorageMonotone.

(** ** [types.MulFloat], as modelled, is monotone *)

Section CurrencyFloat.

Local Open Scope Z_scope.



End CurrencyFloat.

(** ** Weight and remaining storage *)

Section StorageWeight.

Import modules hostdb F64.

Variable Pow : float -> float -> float.
Variable MulFloat : types.Currency -> float -> types.Currency.
Variable DEBUG : bool.
Variable release : build.ReleaseType.



End StorageWeight.



(** ** The weight is at least one whenever it is returned *)

Section WeightFloor.

Import modules hostdb.

Variable Pow : float -> float -> float.
Variable MulFloat : types.Currency -> float -> types.Currency.
Variable DEBUG : bool.
Variable Release : build.ReleaseType.

(** A release build logs an unsorted scan and goes on: its loop over the
    scans always ends with totals. *)
Lemma scan_loop_release (rest : list HostDBScan) (acc : scanTotals) :
  exists t, fold_left (scanStep false) rest (Some acc) = Some t.
Proof.
  revert acc. induction rest as [ | scan rest IH]; intros acc; cbn [fold_left].
  - now exists acc.
  - unfold scanStep at 2. cbn [bind].
    destruct (time.After (recentTime acc) (Timestamp scan)); apply IH.
Qed.

Lemma uptimeAdjustments_returns (entry : HostDBEntry) :
  DEBUG = false \/ Spec.chronological (ScanHistory entry) ->
  exists u, uptimeAdjustments Pow DEBUG entry = Some u.
Proof.
  intros H. unfold uptimeAdjustments.
  destruct (ScanHistory entry) as [ | s0 [ | s1 [ | s2 rest]]];
    try (eexists; reflexivity).
  assert (E : measure DEBUG entry s0 (s1 :: s2 :: rest)
              = measure false entry s0 (s1 :: s2 :: rest)).
  { destruct H as [-> | Hs]; [reflexivity | now apply measure_chronological]. }
  rewrite E. unfold measure.
  destruct (scan_loop_release (s1 :: s2 :: rest)
              {| uptime := HistoricUptime entry; downtime := HistoricDowntime entry;
                 recentTime := Timestamp s0; recentSuccess := Success s0 |}) as [t Ht].
  rewrite Ht. cbn [bind]. eexists; reflexivity.
Qed.

Lemma collateralAdjustments_returns (entry : HostDBEntry) (allowance : Allowance) (es : N) :
  exists c, collateralAdjustments Pow entry allowance es = Some c.
Proof.
  unfold collateralAdjustments.
  rewrite hostCollateralFor_max by apply orOne_nonzero. cbn [bind].
  rewrite cutoffFor_value by apply orOne_nonzero. cbn [bind].
  match goal with
  | |- context [normalized64 ?h ?k] =>
      destruct (normalized64_value h k) as [c64 [k64 [E _]]]; rewrite E
  end.
  cbn [bind]. eexists; reflexivity.
Qed.

Lemma priceAdjustments_returns (entry : HostDBEntry) (allowance : Allowance) :
  Period allowance <> 0%N ->
  exists p, priceAdjustments Pow DEBUG entry allowance expectedStorage
                             expectedUploadFrequency expectedDownloadFrequency = Some p.
Proof.
  intros Hp. rewrite priceAdjustments_value; [eexists; reflexivity | assumption | .. ];
    discriminate.
Qed.

(** X1: for an allowance with a period that is not zero, on a release
    build or on scans in chronological order, the weight function returns
    a weight, and the weight is at least 1.  [Currency.MulFloat] is library
    code outside the sources and is taken as a function that returns. *)
Theorem weight_at_least_one (hdb : HostDB) (allowance : Allowance) (entry : HostDBEntry) :
  Period allowance <> 0%N ->
  DEBUG = false \/ Spec.chronological (ScanHistory entry) ->
  exists w : types.Currency,
    calculateHostWeightFn Pow MulFloat DEBUG Release hdb allowance entry = Some w
    /\ (1 <= w)%N.
Proof.
  intros Hp Hs. unfold calculateHostWeightFn.
  destruct (collateralAdjustments_returns entry allowance expectedStorage) as [c ->].
  destruct (priceAdjustments_returns entry allowance Hp) as [p ->].
  destruct (uptimeAdjustments_returns entry Hs) as [u ->].
  cbn [bind]. cbv zeta.
  set (w := MulFloat baseWeight _).
  unfold types.IsZero, types.NewCurrency64.
  destruct (N.eqb_spec w 0) as [E | E]; eexists; (split; [reflexivity | lia]).
Qed.

End WeightFloor.

Lemma weight_at_least_one_witness :
  exists w : types.Currency,
    hostdb.calculateHostWeightFn math.Pow types.MulFloat false build.Standard
      (Examples.hdbAt 20000) (Examples.allowanceOf 0 1 1) Examples.matureHost = Some w
    /\ (1 <= w)%N.
Proof.
  apply (weight_at_least_one math.Pow types.MulFloat false build.Standard
           (Examples.hdbAt 20000) (Examples.allowanceOf 0 1 1) Examples.matureHost).
  - discriminate.
  - left. reflexivity.
Defined.

(** X2: the collateral that [collateralAdjustments] scores with is the
    larger of the advertised collateral and the cap taken from the
    maximum collateral; it is never below the smaller of the two, and
    equals it only when the two are equal. *)
Theorem scored_collateral_is_the_larger
        (entry : modules.HostDBEntry) (allowance : modules.Allowance) (expectedStorage : N) :
  let period := hostdb.orOne (modules.Period allowance) in
  let es := hostdb.orOne expectedStorage in
  let cap := (modules.MaxCollateral entry / (2 * period * es))%N in
  hostdb.hostCollateralFor entry period es = Some (N.max (modules.Collateral entry) cap)
  /\ (Spec.host_collateral entry period es <= N.max (modules.Collateral entry) cap)%N
  /\ (Spec.host_collateral entry period es = N.max (modules.Collateral entry) cap
      <-> modules.Collateral entry = cap).
Proof.
  cbv zeta. split; [apply hostCollateralFor_max; apply orOne_nonzero | ].
  unfold Spec.host_collateral. split; lia.
Qed.

(** * Further properties of the host database *)

(** ** Lifetime: the age step function *)

Section Lifetime.

Import modules hostdb F64.
Local Open Scope N_scope.

Ltac split_ages :=
  repeat match goal with
         | |- context [N.ltb ?a ?b] =>
             let E := fresh "E" in
             destruct (N.ltb_spec a b) as [E | E]; try lia
         end.

(** X3: For a host first seen at or before the current block height, the
    lifetime factor is a positive finite float; it never decreases when
    the block height grows, it never exceeds 1, and it is exactly 1 once
    the host is 12000 blocks old. *)
Theorem lifetime_grows_with_age (entry : HostDBEntry) (h1 h2 : HostDB) :
  FirstSeen entry <= blockHeight h1 -> blockHeight h1 <= blockHeight h2 ->
  is_positive_finite (lifetimeAdjustments h1 entry) = true
  /\ (lifetimeAdjustments h1 entry <=? lifetimeAdjustments h2 entry)%float = true
  /\ (lifetimeAdjustments h2 entry <=? 1)%float = true
  /\ (12000 <= blockHeight h2 - FirstSeen entry -> lifetimeAdjustments h2 entry = 1%float).
Proof.
  intros H1 H2. unfold lifetimeAdjustments.
  assert (E1 : (FirstSeen entry <=? blockHeight h1) = true) by (apply N.leb_le; lia).
  assert (E2 : (FirstSeen entry <=? blockHeight h2) = true) by (apply N.leb_le; lia).
  rewrite E1, E2. cbv zeta.
  assert (Ha : blockHeight h1 - FirstSeen entry <= blockHeight h2 - FirstSeen entry) by lia.
  set (a1 := blockHeight h1 - FirstSeen entry) in *.
  set (a2 := blockHeight h2 - FirstSeen entry) in *.
  clearbody a1 a2.
  split_ages; repeat split; try reflexivity; intros; lia.
Qed.

(** X4: A host whose first-seen height is above the current block height
    gets the lifetime factor 1, the factor of a host older than 12000
    blocks, whereas the same host at the block height of its first sight
    gets the smallest factor, which is below 0.00103. *)
Theorem lifetime_of_a_host_from_the_future (entry : HostDBEntry) (hdb : HostDB) :
  blockHeight hdb < FirstSeen entry ->
  lifetimeAdjustments hdb entry = 1%float
  /\ (lifetimeAdjustments {| blockHeight := FirstSeen entry |} entry <? 0.00103)%float = true.
Proof.
  intros H. unfold lifetimeAdjustments. cbn [blockHeight].
  assert (E1 : (FirstSeen entry <=? blockHeight hdb) = false) by (apply N.leb_gt; lia).
  rewrite E1, N.leb_refl, N.sub_diag. split; reflexivity.
Qed.

End Lifetime.


Section UptimeLoop.

Import modules hostdb.
Local Open Scope Z_scope.

Variable Pow : float -> float -> float.

Let le_ts (a b : HostDBScan) : Prop := Timestamp a <= Timestamp b.
Let asScan (acc : scanTotals) : HostDBScan :=
  {| Timestamp := recentTime acc; Success := recentSuccess acc |}.

Lemma scanStep_some (DEBUG : bool) (acc : scanTotals) (scan : HostDBScan) :
  scanStep DEBUG (Some acc) scan =
  if time.After (recentTime acc) (Timestamp scan) then (if DEBUG then None else Some acc)
  else
    let d := time.Sub (Timestamp scan) (recentTime acc) in
    Some {| uptime := if recentSuccess acc then time.add (uptime acc) d else uptime acc;
            downtime := if recentSuccess acc then downtime acc else time.add (downtime acc) d;
            recentTime := Timestamp scan;
            recentSuccess := Success scan |}.
Proof. reflexivity. Qed.

Lemma scan_loop_none (DEBUG : bool) (rest : list HostDBScan) :
  fold_left (scanStep DEBUG) rest None = None.
Proof. induction rest as [ | s rest IH]; [reflexivity | exact IH]. Qed.

(** A debug build gets through the loop only on scans in chronological
    order. *)
Lemma scan_loop_debug_sorted (rest : list HostDBScan) (acc t : scanTotals) :
  fold_left (scanStep true) rest (Some acc) = Some t ->
  Sorted le_ts rest /\ HdRel le_ts (asScan acc) rest.
Proof.
  revert acc. induction rest as [ | scan rest IH]; intros acc H.
  - split; constructor.
  - cbn [fold_left] in H. unfold scanStep at 2 in H. cbn [bind] in H.
    unfold time.After in H.
    destruct (Z.ltb_spec (Timestamp scan) (recentTime acc)) as [Hlt | Hge].
    + rewrite scan_loop_none in H. discriminate.
    + apply IH in H as [Hs Hh]. cbn [recentTime recentSuccess] in Hh.
      split; constructor; try assumption.
      destruct Hh as [ | b l Hb]; constructor. exact Hb.
Qed.

(** X5: In a debug build uptimeAdjustments panics exactly when the entry
    has at least three scans and their timestamps are not in
    chronological order. *)
Theorem uptime_debug_panics_iff_unsorted (entry : HostDBEntry) :
  uptimeAdjustments Pow true entry = None <->
  (3 <= List.length (ScanHistory entry))%nat /\ ~ Spec.chronological (ScanHistory entry).
Proof.
  unfold uptimeAdjustments, Spec.chronological.
  destruct (ScanHistory entry) as [ | s0 [ | s1 [ | s2 rest]]] eqn:E.
  - split; [discriminate | cbn; lia].
  - split; [discriminate | cbn; lia].
  - split; [discriminate | cbn; lia].
  - set (l := s1 :: s2 :: rest) in *.
    destruct (measure true entry s0 l) as [t | ] eqn:Hm; cbn [bind].
    + split; [discriminate | ]. intros [_ Hn]. exfalso. apply Hn.
      unfold measure in Hm. apply scan_loop_debug_sorted in Hm as [Hs Hh].
      constructor; [exact Hs | ].
      destruct Hh as [ | b l' Hb]; constructor. exact Hb.
    + split; [ | reflexivity]. intros _. split; [cbn; lia | ].
      intros Hs. rewrite (measure_chronological true entry s0 l Hs) in Hm.
      unfold measure in Hm.
      destruct (scan_loop_release l
                  {| uptime := HistoricUptime entry; downtime := HistoricDowntime entry;
                     recentTime := Timestamp s0; recentSuccess := Success s0 |}) as [t Ht].
      rewrite Ht in Hm. discriminate.
Qed.

(** A release build measures what it would measure on the scans it keeps. *)
Lemma scan_loop_kept (rest : list HostDBScan) (acc : scanTotals) :
  fold_left (scanStep false) rest (Some acc) =
  fold_left (scanStep false) (scans.keptScans (recentTime acc) rest) (Some acc).
Proof.
  revert acc. induction rest as [ | scan rest IH]; intros acc; [reflexivity | ].
  cbn [fold_left scans.keptScans]. rewrite scanStep_some.
  destruct (time.After (recentTime acc) (Timestamp scan)) eqn:E.
  - apply IH.
  - cbn [fold_left]. rewrite scanStep_some, E. cbv zeta.
    rewrite IH. reflexivity.
Qed.

Lemma keptScans_sorted (rest : list HostDBScan) (recent : time.Time) :
  Sorted le_ts (scans.keptScans recent rest)
  /\ HdRel le_ts {| Timestamp := recent; Success := true |} (scans.keptScans recent rest).
Proof.
  revert recent. induction rest as [ | scan rest IH]; intros recent; cbn [scans.keptScans].
  - split; constructor.
  - unfold time.After. destruct (Z.ltb_spec (Timestamp scan) recent) as [Hlt | Hge].
    + apply IH.
    + destruct (IH (Timestamp scan)) as [Hs Hh]. split.
      * constructor; [exact Hs | ].
        destruct Hh as [ | b l Hb]; constructor. exact Hb.
      * constructor. exact Hge.
Qed.

(** X6: A release build measures a scan history as if every scan older
    than the latest scan kept so far had been removed: the scans it
    keeps are in chronological order, measuring them gives the same
    totals in either build, and a history in chronological order is kept
    whole. *)
Theorem release_build_skips_unsorted_scans
        (entry : HostDBEntry) (s0 : HostDBScan) (rest : list HostDBScan) :
  let kept := scans.keptScans (Timestamp s0) rest in
  Spec.chronological (s0 :: kept)
  /\ measure false entry s0 rest = measure false entry s0 kept
  /\ measure false entry s0 rest = measure true entry s0 kept
  /\ (Spec.chronological (s0 :: rest) -> kept = rest).
Proof.
  cbv zeta. destruct (keptScans_sorted rest (Timestamp s0)) as [Hs Hh].
  assert (Hc : Spec.chronological (s0 :: scans.keptScans (Timestamp s0) rest)).
  { constructor; [exact Hs | ]. destruct Hh as [ | b l Hb]; constructor. exact Hb. }
  split; [exact Hc | ].
  assert (E : measure false entry s0 rest
              = measure false entry s0 (scans.keptScans (Timestamp s0) rest)).
  { unfold measure. now rewrite scan_loop_kept. }
  split; [exact E | ]. split.
  - rewrite E. symmetry. now apply measure_chronological.
  - clear. intros Hc. inversion Hc as [ | a l Hs Hh]; subst. clear Hc.
    revert s0 Hs Hh. induction rest as [ | scan rest IH]; intros s0 Hs Hh; [reflexivity | ].
    cbn [scans.keptScans]. inversion Hh as [ | b l Hle]; subst.
    unfold time.After.
    assert ((Timestamp scan <? Timestamp s0) = false) as -> by (apply Z.ltb_ge; exact Hle).
    f_equal. inversion Hs; subst. now apply IH.
Qed.

Lemma last_cons_default {A : Type} (l : list A) (x d : A) : last (x :: l) d = last l x.
Proof.
  revert x d. induction l as [ | y l IH]; intros x d; [reflexivity | ].
  change (last (x :: y :: l) d) with (last (y :: l) d).
  now rewrite (IH y d), (IH y x).
Qed.

Lemma sorted_last (rest : list HostDBScan) (scan : HostDBScan) :
  Sorted le_ts rest -> HdRel le_ts scan rest -> Timestamp scan <= Timestamp (last rest scan).
Proof.
  revert scan. induction rest as [ | x rest IH]; intros scan Hs Hh; [cbn; lia | ].
  inversion Hh; subst. inversion Hs; subst. rewrite last_cons_default.
  specialize (IH x ltac:(assumption) ltac:(assumption)). unfold le_ts in *. lia.
Qed.

(** The totals of the loop over scans in chronological order, as long as
    no duration overflows: the measured time is the historic time plus
    the time from the first scan to the last. *)
Lemma scan_loop_totals (rest : list HostDBScan) (acc : scanTotals) :
  Sorted le_ts rest -> HdRel le_ts (asScan acc) rest ->
  0 <= uptime acc -> 0 <= downtime acc ->
  uptime acc + downtime acc + (Timestamp (last rest (asScan acc)) - recentTime acc)
    <= time.maxDuration ->
  exists t,
    fold_left (scanStep false) rest (Some acc) = Some t
    /\ uptime acc <= uptime t /\ downtime acc <= downtime t
    /\ uptime t + downtime t
       = uptime acc + downtime acc + (Timestamp (last rest (asScan acc)) - recentTime acc)
    /\ recentTime t = Timestamp (last rest (asScan acc))
    /\ (forallb Success (removelast (asScan acc :: rest)) = true -> downtime t = downtime acc)
    /\ (forallb (fun s => negb (Success s)) (removelast (asScan acc :: rest)) = true ->
        uptime t = uptime acc).
Proof.
  revert acc. induction rest as [ | scan rest IH]; intros acc Hs Hh Hu Hd Hb.
  - exists acc. cbn. repeat split; try lia; reflexivity.
  - inversion Hh as [ | b l Hle]; subst. unfold le_ts, asScan in Hle. cbn [Timestamp] in Hle.
    inversion Hs as [ | a l Hs' Hh']; subst.
    pose proof (sorted_last rest scan Hs' Hh') as Hlast.
    assert (Elast : last (scan :: rest) (asScan acc) = last rest scan)
      by apply last_cons_default.
    rewrite Elast in *.
    cbn [fold_left]. rewrite scanStep_some. unfold time.After.
    assert ((Timestamp scan <? recentTime acc) = false) as -> by (apply Z.ltb_ge; exact Hle).
    cbv zeta.
    set (d := time.Sub (Timestamp scan) (recentTime acc)).
    assert (Ed : d = Timestamp scan - recentTime acc).
    { unfold d, time.Sub, time.minDuration. unfold time.maxDuration in *. lia. }
    set (acc' := {| uptime := if recentSuccess acc then time.add (uptime acc) d else uptime acc;
                    downtime := if recentSuccess acc then downtime acc
                                else time.add (downtime acc) d;
                    recentTime := Timestamp scan; recentSuccess := Success scan |}).
    assert (Eadd : forall x, 0 <= x -> x + d <= time.maxDuration -> time.add x d = x + d).
    { intros x Hx Hxd. unfold time.add, time.wrap64. unfold time.maxDuration in *.
      rewrite Z.mod_small by lia. lia. }
    assert (Hacc' : uptime acc' + downtime acc' = uptime acc + downtime acc + d
                    /\ uptime acc <= uptime acc' /\ downtime acc <= downtime acc').
    { unfold acc'. cbn [uptime downtime].
      destruct (recentSuccess acc); rewrite Eadd by lia; lia. }
    destruct Hacc' as [Hsum [Hu' Hd']].
    assert (EasScan : asScan acc' = scan) by (unfold asScan, acc'; now destruct scan).
    destruct (IH acc') as [t [Ht [H1 [H2 [H3 [H4 [H5 H6]]]]]]].
    + exact Hs'.
    + rewrite EasScan. exact Hh'.
    + lia.
    + lia.
    + rewrite EasScan. change (recentTime acc') with (Timestamp scan). lia.
    + rewrite EasScan in *. change (recentTime acc') with (Timestamp scan) in *.
      exists t. split; [exact Ht | ]. split; [lia | ]. split; [lia | ].
      split; [lia | ]. split; [exact H4 | ].
      change (removelast (asScan acc :: scan :: rest))
        with (asScan acc :: removelast (scan :: rest)).
      cbn [forallb asScan Success]. split.
      * intros Hall. apply andb_true_iff in Hall as [Hr Hall].
        rewrite (H5 Hall). unfold acc'. cbn [downtime]. now rewrite Hr.
      * intros Hall. apply andb_true_iff in Hall as [Hr Hall].
        rewrite (H6 Hall). unfold acc'. cbn [uptime].
        now destruct (recentSuccess acc).
Qed.

End UptimeLoop.

Section UptimeTotals.

Import modules hostdb.
Local Open Scope Z_scope.

Variable Pow : float -> float -> float.
Variable DEBUG : bool.

(** X7: On scans in chronological order, with historic uptime and
    downtime that are not negative and totals within the range of a
    Duration, the measured uptime and downtime add up to the historic
    uptime and downtime plus the time between the first and the last
    scan; neither is below its historic value; when every scan but the
    last succeeded the downtime is the historic one, and when every scan
    but the last failed the uptime is the historic one. *)
Theorem measured_time_is_historic_plus_span
        (entry : HostDBEntry) (s0 : HostDBScan) (rest : list HostDBScan) :
  Spec.chronological (s0 :: rest) ->
  0 <= HistoricUptime entry -> 0 <= HistoricDowntime entry ->
  HistoricUptime entry + HistoricDowntime entry
    + (Timestamp (last rest s0) - Timestamp s0) <= time.maxDuration ->
  exists t,
    measure DEBUG entry s0 rest = Some t
    /\ uptime t + downtime t
       = HistoricUptime entry + HistoricDowntime entry
         + (Timestamp (last rest s0) - Timestamp s0)
    /\ HistoricUptime entry <= uptime t /\ HistoricDowntime entry <= downtime t
    /\ (forallb Success (removelast (s0 :: rest)) = true ->
        downtime t = HistoricDowntime entry)
    /\ (forallb (fun s => negb (Success s)) (removelast (s0 :: rest)) = true ->
        uptime t = HistoricUptime entry).
Proof.
  intros Hc Hu Hd Hb. rewrite (measure_chronological DEBUG entry s0 rest Hc).
  unfold measure. inversion Hc as [ | a l Hs Hh]; subst.
  destruct s0 as [ts0 ok0]. cbn [Timestamp Success] in *.
  destruct (scan_loop_totals rest
              {| uptime := HistoricUptime entry; downtime := HistoricDowntime entry;
                 recentTime := ts0; recentSuccess := ok0 |} Hs Hh Hu Hd Hb)
    as [t [Ht [H1 [H2 [H3 [_ [H5 H6]]]]]]].
  exists t. cbn [uptime downtime recentTime recentSuccess] in *.
  repeat split; assumption.
Qed.

(** X8: An entry with at least three scans that all carry the same
    timestamp and with no historic uptime or downtime has measured no
    time at all, and its uptime factor is 0.001. *)
Theorem uptime_of_scans_at_one_instant (entry : HostDBEntry) :
  (3 <= List.length (ScanHistory entry))%nat ->
  (forall s, In s (ScanHistory entry) ->
             Timestamp s = Timestamp (hd s (ScanHistory entry))) ->
  HistoricUptime entry = 0 -> HistoricDowntime entry = 0 ->
  uptimeAdjustments Pow DEBUG entry = Some 0.001%float.
Proof.
  intros Hlen Hall Hu Hd. unfold uptimeAdjustments.
  destruct (ScanHistory entry) as [ | s0 [ | s1 [ | s2 rest]]] eqn:E;
    cbn [List.length] in Hlen; try lia.
  set (l := s1 :: s2 :: rest) in *. cbn [hd] in Hall.
  assert (Hc : Spec.chronological (s0 :: l)).
  { assert (Hs : forall l', (forall s, In s l' -> Timestamp s = Timestamp s0) ->
                            forall x, Timestamp x = Timestamp s0 ->
                            Sorted (fun a b => Timestamp a <= Timestamp b) (x :: l')).
    { induction l' as [ | y l' IH]; intros Hl x Hx.
      - repeat constructor.
      - constructor.
        + apply IH; [intros s Hin; apply Hl; now right | apply Hl; now left].
        + constructor. rewrite Hx, (Hl y (or_introl eq_refl)). lia. }
    apply Hs; [intros s Hin; apply Hall; now right | reflexivity]. }
  assert (Hlast : Timestamp (last l s0) = Timestamp s0).
  { apply Hall. right. unfold l.
    assert (Hne : l <> []) by discriminate.
    fold l. clear - Hne. destruct (exists_last Hne) as [l' [x ->]].
    rewrite last_last. apply in_or_app. right. now left. }
  rewrite (measure_chronological DEBUG entry s0 l Hc). unfold measure.
  inversion Hc as [ | a l0 Hs Hh]; subst a l0.
  destruct s0 as [ts0 ok0]. cbn [Timestamp Success] in *.
  destruct (scan_loop_totals l
              {| uptime := HistoricUptime entry; downtime := HistoricDowntime entry;
                 recentTime := ts0; recentSuccess := ok0 |} Hs Hh)
    as [t [Ht [H2 [H3 [H1 _]]]]];
    cbn [uptime downtime recentTime recentSuccess] in *; try lia.
  { rewrite Hu, Hd, Hlast. unfold time.maxDuration. lia. }
  rewrite Ht. cbn [bind]. unfold uptimePenalty.
  assert (uptime t = 0) as -> by lia. assert (downtime t = 0) as -> by lia.
  reflexivity.
Qed.

End UptimeTotals.

Section MulOne.
Import F64 Round.
Local Open Scope Z_scope.

(** Multiplying a float by one gives the float, whatever its class and
    sign. *)
Lemma SFmul_one_r_valid (x : spec_float) :
  valid_binary x = true -> SFmul prec emax x sf_one = x.
Proof.
  destruct x as [s | s | | s m e]; intros V; unfold sf_one; cbn [SFmul];
    rewrite ?xorb_false_r; try reflexivity.
  apply valid_finite in V as [He H971].
  pose proof (Zdigits2_bounds (Zpos m) ltac:(lia)) as [_ Hhi].
  rewrite Pos2Z.inj_mul. change (Zpos 4503599627370496) with (2 ^ 52).
  assert (Hd : Zdigits2 (Zpos m * 2 ^ 52) = Zdigits2 (Zpos m) + 52).
  { apply Zdigits2_mul_pow2; lia. }
  destruct (binary_round_aux_exact s (Zpos m * 2 ^ 52) (e + -52)) as [_ ->].
  - change (2 ^ 52) with 4503599627370496. lia.
  - rewrite Hd. lia.
  - rewrite Hd.
    replace (Z.max (Zdigits2 (Zpos m) + 52 + (e + -52) - 53) (-1074)) with e by lia.
    replace (e - (e + -52)) with 52 by lia.
    assert (Hr : rne (Zpos m * 2 ^ 52) 52 = Zpos m).
    { unfold rne. cbv zeta. rewrite Z.div_mul, Z.mod_mul by (apply Z.pow_nonzero; lia).
      reflexivity. }
    rewrite Hr.
    assert (Hm53 : Zpos m < 2 ^ 53).
    { eapply Z.lt_le_trans; [exact Hhi | apply Z.pow_le_mono_r; lia]. }
    assert ((Zpos m <? 2 ^ 53) = true) as -> by (apply Z.ltb_lt; exact Hm53).
    unfold pack.
    assert ((e <=? emax - prec) = true) as -> by (apply Z.leb_le; exact H971).
    reflexivity.
Qed.

Lemma mul_one_r_any (x : float) : (x * 1)%float = x.
Proof.
  apply Prim2SF_inj. rewrite mul_spec. apply SFmul_one_r_valid, Prim2SF_valid.
Qed.

End MulOne.

Section PriceFloor.

Import modules hostdb.
Local Open Scope N_scope.

Variable Pow : float -> float -> float.
Variable DEBUG : bool.

(** X9: For an allowance with a period and non-zero expected storage and
    frequencies, the price factor is Pow(1, 5) for every total price at
    or below minTotalPrice, and it is one and the same value, Pow(100006
    / (2^64 - 1), 5), for every total price whose normalised value
    exceeds the range of a uint64. *)
Theorem price_factor_is_flat_at_both_ends
        (entry : HostDBEntry) (allowance : Allowance) (es uf df : N) :
  Period allowance <> 0 -> es <> 0 -> uf <> 0 -> df <> 0 ->
  let total := Spec.total_price entry (Period allowance) es uf df in
  (total <= minTotalPrice ->
   priceAdjustments Pow DEBUG entry allowance es uf df = Some (Pow 1 5))
  /\ (F64.MaxUint64 < total / priceDivNormalization ->
      priceAdjustments Pow DEBUG entry allowance es uf df =
      Some (Pow (100006 / 18446744073709551615)%float 5)).
Proof.
  intros Hp He Hu Hd total. rewrite priceAdjustments_value by assumption. fold total.
  split; intros H.
  - rewrite <- (normalizedFactor_at_min Pow). unfold normalizedFactor.
    now rewrite N.max_r by exact H.
  - unfold normalizedFactor.
    assert (Hm : minTotalPrice <= total).
    { rewrite priceDivNormalization_value in H. rewrite minTotalPrice_value.
      unfold F64.MaxUint64 in H.
      destruct (N.le_gt_cases 248015873 total) as [Hle | Hgt]; [exact Hle | exfalso].
      assert (total / 2480 <= 248015873 / 2480) by (apply N.Div0.div_le_mono; lia).
      change (248015873 / 2480) with 100006 in *. lia. }
    rewrite N.max_l by exact Hm.
    unfold Spec.saturate64 at 2.
    assert ((F64.MaxUint64 <? total / priceDivNormalization) = true) as ->
        by (apply N.ltb_lt; exact H).
    reflexivity.
Qed.

End PriceFloor.


(** * Division of floats *)


Section RoundLoc.
Import F64 Round RoundX.
Local Open Scope Z_scope.

Lemma shr_1_twice (m : Z) (l : location) :
  0 <= m ->
  shr_1 (shr_1 {| shr_m := 4 * m + code l; shr_r := false; shr_s := false |})
  = shr_record_of_loc m l.
Proof.
  intros Hm.
  destruct m as [ | p | p]; [ | | lia]; destruct l as [ | [ | | ]]; reflexivity.
Qed.

Lemma iter_pos_succ_succ {A : Type} (f : A -> A) (p : positive) (x : A) :
  iter_pos f (p + 2) x = iter_pos f p (f (f x)).
Proof.
  rewrite !iter_pos_iter. rewrite Pos.iter_add. reflexivity.
Qed.

Lemma Zdigits2_code (m : Z) (l : location) :
  0 < m -> Zdigits2 (4 * m + code l) = Zdigits2 m + 2.
Proof.
  intros Hm. pose proof (Zdigits2_bounds m Hm) as [Hlo Hhi].
  pose proof (Zdigits2_pos m Hm) as Hd.
  apply Zdigits2_unique; [lia | ].
  replace (Zdigits2 m + 2 - 1) with (2 + (Zdigits2 m - 1)) by lia.
  rewrite (Z.add_comm (Zdigits2 m) 2).
  rewrite (Z.pow_add_r 2 2 (Zdigits2 m - 1)), (Z.pow_add_r 2 2 (Zdigits2 m)) by lia.
  change (2 ^ 2) with 4.
  assert (0 <= code l <= 3) by (destruct l as [ | [ | | ]]; cbn; lia).
  lia.
Qed.

(** A mantissa with a location rounds like the exact mantissa that
    carries the location in two more bits. *)
Lemma binary_round_aux_loc (s : bool) (m e : Z) (l : location) :
  0 < m -> e <= Z.max (Zdigits2 m + e - 53) (-1074) ->
  binary_round_aux prec emax s m e l
  = binary_round_aux prec emax s (4 * m + code l) (e - 2) loc_Exact.
Proof.
  intros Hm He. unfold binary_round_aux.
  assert (E : shr_fexp prec emax (4 * m + code l) (e - 2) loc_Exact
              = shr_fexp prec emax m e l).
  { unfold shr_fexp. rewrite !fexp_eq, Zdigits2_code by exact Hm.
    replace (Zdigits2 m + 2 + (e - 2)) with (Zdigits2 m + e) by lia.
    set (e1 := Z.max (Zdigits2 m + e - 53) (-1074)) in *.
    cbn [shr_record_of_loc]. unfold shr.
    destruct (e1 - e) as [ | p | p] eqn:En; try lia.
    - replace (e1 - (e - 2)) with 2 by lia.
      change (iter_pos shr_1 2 ?x) with (shr_1 (shr_1 x)).
      rewrite shr_1_twice by lia. f_equal. lia.
    - replace (e1 - (e - 2)) with (Zpos (p + 2)) by lia.
      rewrite iter_pos_succ_succ, shr_1_twice by lia. f_equal. lia. }
  rewrite E. reflexivity.
Qed.


Lemma new_location_code (m2 r : Z) :
  0 < m2 -> 0 <= r < m2 ->
  let c := code (new_location m2 r) in
  (c = 0 /\ r = 0) \/ (c = 1 /\ 0 < 2 * r < m2) \/ (c = 2 /\ 2 * r = m2)
  \/ (c = 3 /\ m2 < 2 * r).
Proof.
  intros Hm Hr. cbv zeta. unfold new_location, new_location_even, new_location_odd.
  destruct (Z.even m2) eqn:Ev.
  - destruct (Z.eqb_spec r 0) as [-> | Hne]; [left; split; reflexivity | ].
    destruct (Z.compare_spec (2 * r) m2); cbn [code]; lia.
  - destruct (Z.eqb_spec r 0) as [-> | Hne]; [left; split; reflexivity | ].
    assert (Hodd : m2 <> 2 * r).
    { intros E. rewrite E, Z.even_mul in Ev. discriminate. }
    destruct (Z.compare_spec (2 * r + 1) m2); cbn [code]; lia.
Qed.

Lemma shift_mantissa (m s : Z) :
  0 <= s ->
  match s with 0 => m | Zpos _ => Z.shiftl m s | Zneg _ => 0 end = m * 2 ^ s.
Proof.
  intros Hs. destruct s as [ | p | p]; [ | | lia].
  - rewrite Z.pow_0_r. lia.
  - now rewrite Z.shiftl_mul_pow2 by lia.
Qed.

(** The quotient that [SFdiv] rounds: mantissas [m1 * 2^s = q * m2 + r],
    exponent [e1 - e2 - s], and the location of [r / m2]. *)
Lemma SFdiv_core_spec (m1 m2 : positive) (e1 e2 : Z) :
  Z.max (Zdigits2 (Zpos m1) + e1 - 53) (-1074) = e1 ->
  Z.max (Zdigits2 (Zpos m2) + e2 - 53) (-1074) = e2 ->
  exists q e' l s r,
    SFdiv_core_binary prec emax (Zpos m1) e1 (Zpos m2) e2 = (q, e', l)
    /\ 0 <= s /\ e1 - e2 = s + e' /\ -2148 <= e' + e2
    /\ Zpos m1 * 2 ^ s = q * Zpos m2 + r /\ 0 <= r < Zpos m2 /\ 0 <= q
    /\ ((code l = 0 /\ r = 0) \/ (code l = 1 /\ 0 < 2 * r < Zpos m2)
        \/ (code l = 2 /\ 2 * r = Zpos m2) \/ (code l = 3 /\ Zpos m2 < 2 * r))
    /\ (-1074 < e' -> 2 ^ 52 <= q).
Proof.
  intros Hx Hy. unfold SFdiv_core_binary. cbv zeta. rewrite fexp_eq.
  set (d1 := Zdigits2 (Zpos m1)) in *. set (d2 := Zdigits2 (Zpos m2)) in *.
  set (e' := Z.min (Z.max (d1 + e1 - (d2 + e2) - 53) (-1074)) (e1 - e2)).
  set (s := e1 - e2 - e').
  assert (Hs : 0 <= s) by (unfold s, e'; lia).
  set (m' := match s with 0 => Zpos m1 | Zpos _ => Z.shiftl (Zpos m1) s | Zneg _ => 0 end).
  assert (Em' : m' = Zpos m1 * 2 ^ s) by (apply shift_mantissa; exact Hs).
  pose proof (Z.div_eucl_eq m' (Zpos m2) ltac:(lia)) as Hdiv.
  pose proof (Z.mod_pos_bound m' (Zpos m2) ltac:(lia)) as Hmod.
  assert (Hm'pos : 0 < m').
  { rewrite Em'. apply Z.mul_pos_pos; [lia | apply pow2_pos; lia]. }
  assert (Hq0 : 0 <= m' / Zpos m2) by (apply Z.div_pos; lia).
  unfold Z.modulo, Z.div in Hmod, Hq0.
  destruct (Z.div_eucl m' (Zpos m2)) as [q r] eqn:Ediv.
  exists q, e', (new_location (Zpos m2) r), s, r.
  split; [reflexivity | ]. split; [exact Hs | ]. split; [unfold s; lia | ].
  split; [unfold e'; lia | ].
  split; [rewrite <- Em'; lia | ]. split; [exact Hmod | ]. split; [exact Hq0 | ].
  split; [apply new_location_code; lia | ].
  intros He'.
  pose proof (Zdigits2_bounds (Zpos m1) ltac:(lia)) as [Hlo1 _].
  pose proof (Zdigits2_bounds (Zpos m2) ltac:(lia)) as [_ Hhi2].
  pose proof (Zdigits2_pos (Zpos m1) ltac:(lia)) as Hd1.
  pose proof (Zdigits2_pos (Zpos m2) ltac:(lia)) as Hd2.
  fold d1 in Hlo1, Hd1. fold d2 in Hhi2, Hd2.
  assert (Hsge : 53 - d1 + d2 <= s) by (unfold s, e' in *; lia).
  assert (H1 : 2 ^ (52 + d2) <= m').
  { rewrite Em'. replace (52 + d2) with ((d1 - 1) + (53 - d1 + d2)) by lia.
    rewrite Z.pow_add_r by lia.
    assert (0 < 2 ^ (d1 - 1)) by (apply pow2_pos; lia).
    assert (0 < 2 ^ (53 - d1 + d2)) by (apply pow2_pos; lia).
    assert (2 ^ (53 - d1 + d2) <= 2 ^ s) by (apply Z.pow_le_mono_r; lia).
    apply Z.mul_le_mono_nonneg; lia. }
  rewrite (Z.pow_add_r 2 52 d2) in H1 by lia.
  assert (Hp52 : 0 < 2 ^ 52) by (apply pow2_pos; lia).
  destruct (Z.le_gt_cases (2 ^ 52) q) as [Hok | Hlt]; [exact Hok | exfalso].
  assert (q + 1 <= 2 ^ 52) by lia.
  assert (m' < (q + 1) * Zpos m2) by lia.
  assert ((q + 1) * Zpos m2 <= 2 ^ 52 * Zpos m2) by (apply Z.mul_le_mono_nonneg_r; lia).
  assert (2 ^ 52 * Zpos m2 < 2 ^ 52 * 2 ^ d2) by (apply Z.mul_lt_mono_pos_l; lia).
  lia.
Qed.


(** Rounding the mantissa and exponent of a canonical float gives the
    float back. *)
Lemma binary_round_aux_id (s : bool) (m : positive) (e : Z) :
  Z.max (Zdigits2 (Zpos m) + e - 53) (-1074) = e -> e <= 971 ->
  binary_round_aux prec emax s (Zpos m) e loc_Exact = S754_finite s m e.
Proof.
  intros Hc He.
  destruct (binary_round_aux_exact s (Zpos m) e ltac:(lia)) as [_ ->]; [lia | ].
  rewrite Hc, Z.sub_diag, rne_0.
  pose proof (Zdigits2_bounds (Zpos m) ltac:(lia)) as [_ Hhi].
  assert (Hm53 : Zpos m < 2 ^ 53).
  { eapply Z.lt_le_trans; [exact Hhi | apply Z.pow_le_mono_r; lia]. }
  assert ((Zpos m <? 2 ^ 53) = true) as -> by (apply Z.ltb_lt; exact Hm53).
  unfold pack.
  assert ((e <=? emax - prec) = true) as -> by (apply Z.leb_le; exact He).
  reflexivity.
Qed.

Lemma canonical_mantissa_lt (m : positive) (e : Z) :
  Z.max (Zdigits2 (Zpos m) + e - 53) (-1074) = e -> Zpos m < 2 ^ 53 /\ -1074 <= e.
Proof.
  intros Hc. pose proof (Zdigits2_bounds (Zpos m) ltac:(lia)) as [_ Hhi].
  split; [ | lia].
  eapply Z.lt_le_trans; [exact Hhi | apply Z.pow_le_mono_r; lia].
Qed.

Lemma code_bounds (q r m2 W : Z) (l : location) :
  0 < m2 ->
  ((code l = 0 /\ r = 0) \/ (code l = 1 /\ 0 < 2 * r < m2)
   \/ (code l = 2 /\ 2 * r = m2) \/ (code l = 3 /\ m2 < 2 * r)) ->
  r < m2 ->
  (4 * (q * m2 + r) <= W * m2 -> 4 * q + code l <= W)
  /\ (W * m2 <= 4 * (q * m2 + r) -> W <= 4 * q + code l).
Proof.
  intros Hm Hc Hr. split; intros H;
    destruct Hc as [[-> Hc] | [[-> Hc] | [[-> Hc] | [-> Hc]]]]; nia.
Qed.

Lemma pow2_split (a b : Z) : 0 <= a -> 0 <= b -> 2 ^ (a + b) = 2 ^ a * 2 ^ b.
Proof. intros. now rewrite Z.pow_add_r. Qed.

Lemma pow2_lt_inv (a b : Z) : 0 <= b -> 2 ^ a < 2 ^ b -> a < b.
Proof. intros Hb H. apply Z.pow_lt_mono_r_iff in H; lia. Qed.

Section Quotient.

Variables (m1 m2 mw : positive) (e1 e2 ew : Z).
Hypothesis Hx : Z.max (Zdigits2 (Zpos m1) + e1 - 53) (-1074) = e1.
Hypothesis Hy : Z.max (Zdigits2 (Zpos m2) + e2 - 53) (-1074) = e2.
Hypothesis Hw : Z.max (Zdigits2 (Zpos mw) + ew - 53) (-1074) = ew.
Hypothesis Hw971 : ew <= 971.
Hypothesis Hw0 : ew <= 0.

Let X := Zpos m1 * 2 ^ (e1 + 2148).
Let Y := Zpos m2 * 2 ^ (e2 + 2148).
Let quotient := SFdiv prec emax (S754_finite false m1 e1) (S754_finite false m2 e2).
Let w := S754_finite false mw ew.

(** A quotient whose exact value is at most a float [w] rounds to at
    most [w]. *)
Lemma SFdiv_le_float : X * 2 ^ (- ew) <= Zpos mw * Y -> SFleb quotient w = true.
Proof.
  unfold X, Y, quotient, w. intros Hv. cbn [SFdiv xorb].
  destruct (SFdiv_core_spec m1 m2 e1 e2 Hx Hy)
    as [q [e' [l [s [r [Ec [Hs [He [Hlow [Hdiv [Hr [Hq [Hcode Hnorm]]]]]]]]]]]]].
  rewrite Ec.
  destruct (canonical_mantissa_lt mw ew Hw) as [Hmw Hewlo].
  destruct (canonical_mantissa_lt m2 e2 Hy) as [_ He2lo].
  destruct (Z.eq_dec q 0) as [-> | Hq0].
  - assert (He' : e' <= -1074).
    { destruct (Z.le_gt_cases e' (-1074)); [assumption | ].
      specialize (Hnorm ltac:(lia)). assert (0 < 2 ^ 52) by (apply pow2_pos; lia). lia. }
    destruct (binary_round_aux_cases false 0 e' l ltac:(lia)) as [_ Hcases].
    { rewrite Zdigits2_0. lia. }
    rewrite Zdigits2_0 in Hcases.
    replace (Z.max (0 + e' - 53) (-1074)) with (-1074) in Hcases by lia.
    rewrite Z.div_0_l in Hcases by (apply Z.pow_nonzero; lia).
    destruct Hcases as [[m3 [Hb [_ ->]]] | [Hc _]].
    + assert (Hm3 : m3 = 0 \/ m3 = 1) by lia. destruct Hm3 as [-> | ->]; [reflexivity | ].
      unfold pack. change (-1074 <=? emax - prec) with true. cbv iota.
      unfold SFleb. cbn [SFcompare].
      destruct (Z.compare_spec (-1074) ew); try reflexivity; try lia.
      change (Pcompare 1 mw Eq) with (1 ?= mw)%positive.
      destruct (Pos.compare_spec 1 mw); try reflexivity. lia.
    + change (2 ^ 53) with 9007199254740992 in Hc. lia.
  - assert (Hqpos : 0 < q) by lia.
    assert (Hal : e' <= Z.max (Zdigits2 q + e' - 53) (-1074)).
    { destruct (Z.le_gt_cases e' (-1074)); [lia | ].
      specialize (Hnorm ltac:(lia)). apply Zdigits2_gt in Hnorm; lia. }
    rewrite (binary_round_aux_loc false q e' l Hqpos Hal).
    rewrite <- (binary_round_aux_id false mw ew Hw Hw971).
    assert (Hc03 : 0 <= code l <= 3) by (destruct l as [ | [ | | ]]; cbn; lia).
    set (b2 := e2 + 2148) in *. assert (Hb2 : 0 <= b2) by (unfold b2; lia).
    assert (Ee1 : e1 + 2148 = s + (e' + b2)) by (unfold b2; lia).
    rewrite Ee1 in Hv. rewrite (pow2_split s (e' + b2)) in Hv by (unfold b2; lia).
    destruct (Z.le_gt_cases (e' - 2) ew) as [Hfine | Hcoarse].
    + apply (binary_round_aux_mono _ _ _ _ (e' - 2)); try lia.
      * rewrite Zdigits2_code by exact Hqpos. lia.
      * rewrite Z.sub_diag, Z.pow_0_r, Z.mul_1_r.
        apply (proj1 (code_bounds q r (Zpos m2) (Zpos mw * 2 ^ (ew - (e' - 2))) l
                        ltac:(lia) Hcode ltac:(lia))).
        rewrite <- Hdiv.
        set (j := ew - (e' - 2)) in *.
        assert (Hpj : 0 < 2 ^ j) by (apply pow2_pos; unfold j; lia).
        assert (Hpb : 0 < 2 ^ b2) by (apply pow2_pos; lia).
        assert (E : 2 ^ (e' + b2) * 2 ^ (- ew) * 2 ^ j = 4 * 2 ^ b2).
        { rewrite <- !Z.pow_add_r by (unfold j, b2 in *; lia).
          replace (e' + b2 + - ew + j) with (2 + b2) by (unfold j; lia).
          now rewrite Z.pow_add_r by lia. }
        assert (H1 : Zpos m1 * 2 ^ s * (2 ^ (e' + b2) * 2 ^ (- ew) * 2 ^ j)
                     <= Zpos mw * (Zpos m2 * 2 ^ b2) * 2 ^ j).
        { replace (Zpos m1 * 2 ^ s * (2 ^ (e' + b2) * 2 ^ (- ew) * 2 ^ j))
            with (Zpos m1 * (2 ^ s * 2 ^ (e' + b2)) * 2 ^ (- ew) * 2 ^ j) by ring.
          apply Z.mul_le_mono_nonneg_r; [lia | exact Hv]. }
        rewrite E in H1.
        apply Z.mul_le_mono_pos_r with (p := 2 ^ b2); [exact Hpb | ].
        etransitivity; [ | etransitivity; [exact H1 | ]]; apply Z.eq_le_incl; ring.
    + exfalso.
      specialize (Hnorm ltac:(lia)).
      assert (Hps : 0 < 2 ^ s) by (apply pow2_pos; lia).
      assert (Hpa : 0 < 2 ^ (e' + b2 - ew)) by (apply pow2_pos; unfold b2; lia).
      assert (Hpb : 0 < 2 ^ b2) by (apply pow2_pos; lia).
      assert (E : 2 ^ (e' + b2) * 2 ^ (- ew) = 2 ^ (e' + b2 - ew)).
      { rewrite <- Z.pow_add_r by (unfold b2 in *; lia). f_equal. }
      assert (H1 : 2 ^ 52 * Zpos m2 * 2 ^ (e' + b2 - ew) <= Zpos mw * (Zpos m2 * 2 ^ b2)).
      { rewrite <- E. etransitivity; [ | exact Hv].
        replace (Zpos m1 * (2 ^ s * 2 ^ (e' + b2)) * 2 ^ (- ew))
          with (Zpos m1 * 2 ^ s * (2 ^ (e' + b2) * 2 ^ (- ew))) by ring.
        apply Z.mul_le_mono_nonneg_r; [rewrite E; lia | ]. rewrite Hdiv.
        apply Z.le_trans with (q * Zpos m2); [apply Z.mul_le_mono_nonneg_r; lia | lia]. }
      assert (H2 : 2 ^ 52 * 2 ^ (e' + b2 - ew) < 2 ^ 53 * 2 ^ b2).
      { clear - H1 Hmw Hpa Hpb. set (A := 2 ^ (e' + b2 - ew)) in *. set (B := 2 ^ b2) in *.
        assert (HmB : 0 < Zpos m2 * B) by (apply Z.mul_pos_pos; lia).
        assert (H2 : Zpos mw * (Zpos m2 * B) < 2 ^ 53 * (Zpos m2 * B))
          by (apply Z.mul_lt_mono_pos_r; assumption).
        apply Z.mul_lt_mono_pos_l with (p := Zpos m2); [lia | ].
        eapply Z.le_lt_trans; [ | eapply Z.lt_le_trans; [exact H2 | ]].
        - etransitivity; [ | exact H1]. apply Z.eq_le_incl. ring.
        - apply Z.eq_le_incl. ring. }
      rewrite <- !Z.pow_add_r in H2 by (unfold b2 in *; lia).
      apply pow2_lt_inv in H2; lia.
Qed.

(** A quotient whose exact value is at least a float [w] rounds to at
    least [w]. *)
Lemma SFdiv_ge_float : Zpos mw * Y <= X * 2 ^ (- ew) -> SFleb w quotient = true.
Proof.
  unfold X, Y, quotient, w. intros Hv. cbn [SFdiv xorb].
  destruct (SFdiv_core_spec m1 m2 e1 e2 Hx Hy)
    as [q [e' [l [s [r [Ec [Hs [He [Hlow [Hdiv [Hr [Hq [Hcode Hnorm]]]]]]]]]]]]].
  rewrite Ec.
  destruct (canonical_mantissa_lt mw ew Hw) as [Hmw Hewlo].
  destruct (canonical_mantissa_lt m2 e2 Hy) as [_ He2lo].
  set (b2 := e2 + 2148) in *. assert (Hb2 : 0 <= b2) by (unfold b2; lia).
  assert (Ee1 : e1 + 2148 = s + (e' + b2)) by (unfold b2; lia).
  rewrite Ee1 in Hv. rewrite (pow2_split s (e' + b2)) in Hv by (unfold b2; lia).
  assert (Hps : 0 < 2 ^ s) by (apply pow2_pos; lia).
  assert (Hpb : 0 < 2 ^ b2) by (apply pow2_pos; lia).
  assert (E : 2 ^ (e' + b2) * 2 ^ (- ew) = 2 ^ (e' + b2 - ew)).
  { rewrite <- Z.pow_add_r by (unfold b2 in *; lia). f_equal. }
  assert (Hpa : 0 < 2 ^ (e' + b2 - ew)) by (apply pow2_pos; unfold b2; lia).
  assert (Hv' : Zpos mw * (Zpos m2 * 2 ^ b2) <= Zpos m1 * 2 ^ s * 2 ^ (e' + b2 - ew)).
  { rewrite <- E. etransitivity; [exact Hv | ]. apply Z.eq_le_incl. ring. }
  destruct (Z.eq_dec q 0) as [-> | Hq0].
  - exfalso.
    assert (He' : e' <= -1074).
    { destruct (Z.le_gt_cases e' (-1074)); [assumption | ].
      specialize (Hnorm ltac:(lia)). assert (0 < 2 ^ 52) by (apply pow2_pos; lia). lia. }
    assert (H3 : 2 ^ b2 < 2 ^ (e' + b2 - ew)).
    { assert (Hlt : Zpos m1 * 2 ^ s < Zpos m2) by lia.
      clear - Hv' Hlt Hpa Hpb Hps.
      set (A := 2 ^ (e' + b2 - ew)) in *. set (B := 2 ^ b2) in *.
      set (M := Zpos m1 * 2 ^ s) in *.
      assert (HmB : 0 < Zpos m2 * B) by (apply Z.mul_pos_pos; lia).
      assert (H1 : 1 * (Zpos m2 * B) <= Zpos mw * (Zpos m2 * B))
        by (apply Z.mul_le_mono_nonneg_r; lia).
      assert (H2 : M * A < Zpos m2 * A) by (apply Z.mul_lt_mono_pos_r; assumption).
      apply Z.mul_lt_mono_pos_l with (p := Zpos m2); lia. }
    apply pow2_lt_inv in H3; lia.
  - assert (Hqpos : 0 < q) by lia.
    assert (Hal : e' <= Z.max (Zdigits2 q + e' - 53) (-1074)).
    { destruct (Z.le_gt_cases e' (-1074)); [lia | ].
      specialize (Hnorm ltac:(lia)). apply Zdigits2_gt in Hnorm; lia. }
    rewrite (binary_round_aux_loc false q e' l Hqpos Hal).
    rewrite <- (binary_round_aux_id false mw ew Hw Hw971).
    assert (Hc03 : 0 <= code l <= 3) by (destruct l as [ | [ | | ]]; cbn; lia).
    destruct (Z.le_gt_cases (e' - 2) ew) as [Hfine | Hcoarse].
    + apply (binary_round_aux_mono _ _ _ _ (e' - 2)); try lia.
      * rewrite Zdigits2_code by exact Hqpos. lia.
      * rewrite Z.sub_diag, Z.pow_0_r, Z.mul_1_r.
        apply (proj2 (code_bounds q r (Zpos m2) (Zpos mw * 2 ^ (ew - (e' - 2))) l
                        ltac:(lia) Hcode ltac:(lia))).
        rewrite <- Hdiv.
        set (j := ew - (e' - 2)) in *.
        assert (Hpj : 0 < 2 ^ j) by (apply pow2_pos; unfold j; lia).
        assert (E2 : 2 ^ (e' + b2 - ew) * 2 ^ j = 4 * 2 ^ b2).
        { rewrite <- !Z.pow_add_r by (unfold j, b2 in *; lia).
          replace (e' + b2 - ew + j) with (2 + b2) by (unfold j; lia).
          now rewrite Z.pow_add_r by lia. }
        assert (H1 : Zpos mw * (Zpos m2 * 2 ^ b2) * 2 ^ j
                     <= Zpos m1 * 2 ^ s * (2 ^ (e' + b2 - ew) * 2 ^ j)).
        { replace (Zpos m1 * 2 ^ s * (2 ^ (e' + b2 - ew) * 2 ^ j))
            with (Zpos m1 * 2 ^ s * 2 ^ (e' + b2 - ew) * 2 ^ j) by ring.
          apply Z.mul_le_mono_nonneg_r; [lia | exact Hv']. }
        rewrite E2 in H1.
        apply Z.mul_le_mono_pos_r with (p := 2 ^ b2); [exact Hpb | ].
        etransitivity; [ | etransitivity; [exact H1 | ]]; apply Z.eq_le_incl; ring.
    + specialize (Hnorm ltac:(lia)).
      apply (binary_round_aux_mono _ _ _ _ ew); try lia.
      * rewrite Zdigits2_code by exact Hqpos. lia.
      * rewrite Z.sub_diag, Z.pow_0_r, Z.mul_1_r.
        assert (1 <= 2 ^ (e' - 2 - ew)) by (assert (0 < 2 ^ (e' - 2 - ew)) by (apply pow2_pos; lia); lia).
        clear - H Hmw Hnorm Hc03.
        set (P := 2 ^ (e' - 2 - ew)) in *.
        change (2 ^ 53) with 9007199254740992 in *.
        change (2 ^ 52) with 4503599627370496 in *. nia.
Qed.

End Quotient.

End RoundLoc.

Section FloatQuotient.
Import F64 Round.
Local Open Scope Z_scope.

Lemma SFleb_antisym_finite (m : positive) (e : Z) (y : spec_float) :
  SFleb (S754_finite false m e) y = true -> SFleb y (S754_finite false m e) = true ->
  y = S754_finite false m e.
Proof.
  destruct y as [s | s | | s m' e']; unfold SFleb; cbn [SFcompare];
    try (destruct s; discriminate); try discriminate.
  destruct s; [discriminate | ].
  change (Pcompare m m' Eq) with (m ?= m')%positive.
  change (Pcompare m' m Eq) with (m' ?= m)%positive.
  destruct (Z.compare_spec e e'), (Z.compare_spec e' e); try lia; try discriminate.
  destruct (Pos.compare_spec m m'), (Pos.compare_spec m' m); try lia; try discriminate;
    intros _ _; subst; reflexivity.
Qed.

(** The binary64 datum of a positive integer below [2^53]: the integer
    itself, normalised. *)
Lemma binary_normalize_exact (z : Z) :
  0 < z < 2 ^ 53 ->
  exists (m : positive) (e : Z),
    binary_normalize prec emax z 0 false = S754_finite false m e
    /\ e <= 0 /\ Zpos m = z * 2 ^ (- e)
    /\ Z.max (Zdigits2 (Zpos m) + e - 53) (-1074) = e.
Proof.
  intros [Hz Hz53]. destruct z as [ | p | p]; try lia. cbn [binary_normalize].
  unfold binary_round.
  pose proof (shl_align_spec p 0 (fexp prec emax (Zpos (digits2_pos p) + 0))) as [He0 Hm0].
  destruct (shl_align p 0 _) as [mz e0]. cbn [fst snd] in He0, Hm0.
  change (Zpos (digits2_pos p)) with (Zdigits2 (Zpos p)) in He0.
  rewrite fexp_eq in He0.
  assert (Hd : Zdigits2 (Zpos p) <= 53) by (apply Zdigits2_le; lia).
  pose proof (Zdigits2_pos (Zpos p) ltac:(lia)) as Hdp.
  assert (Ee0 : e0 = Zdigits2 (Zpos p) - 53) by lia.
  assert (Hdz : Zdigits2 (Zpos mz) = 53).
  { rewrite Hm0, Zdigits2_mul_pow2 by lia. lia. }
  exists mz, e0. split.
  - apply binary_round_aux_id; lia.
  - split; [lia | ]. split; [rewrite Hm0; f_equal; f_equal; lia | lia].
Qed.

(** The conversion of integers to floats is monotone. *)
Lemma binary_normalize_mono (a b : Z) :
  0 <= a <= b ->
  SFleb (binary_normalize prec emax a 0 false) (binary_normalize prec emax b 0 false) = true.
Proof.
  intros [Ha Hab].
  destruct a as [ | pa | pa]; [ | | lia].
  - apply SFleb_zero_signed.
    pose proof (binary_normalize_signed b 0) as H.
    assert ((b <? 0) = false) as E by (apply Z.ltb_ge; lia). now rewrite E in H.
  - destruct b as [ | pb | pb]; try lia. cbn [binary_normalize]. unfold binary_round.
    pose proof (shl_align_spec pa 0 (fexp prec emax (Zpos (digits2_pos pa) + 0))) as [Hea Hma].
    pose proof (shl_align_spec pb 0 (fexp prec emax (Zpos (digits2_pos pb) + 0))) as [Heb Hmb].
    destruct (shl_align pa 0 _) as [ma ea]. destruct (shl_align pb 0 _) as [mb eb].
    cbn [fst snd] in *.
    change (Zpos (digits2_pos pa)) with (Zdigits2 (Zpos pa)) in Hea.
    change (Zpos (digits2_pos pb)) with (Zdigits2 (Zpos pb)) in Heb.
    rewrite fexp_eq in Hea, Heb.
    assert (Hda : Zdigits2 (Zpos ma) + ea = Zdigits2 (Zpos pa)).
    { rewrite Hma, Zdigits2_mul_pow2 by lia. lia. }
    assert (Hdb : Zdigits2 (Zpos mb) + eb = Zdigits2 (Zpos pb)).
    { rewrite Hmb, Zdigits2_mul_pow2 by lia. lia. }
    apply (binary_round_aux_mono _ _ _ _ (Z.min ea eb)); try lia.
    rewrite Hma, Hmb, <- !Z.mul_assoc, <- !Z.pow_add_r by lia.
    replace (0 - ea + (ea - Z.min ea eb)) with (- Z.min ea eb) by lia.
    replace (0 - eb + (eb - Z.min ea eb)) with (- Z.min ea eb) by lia.
    apply Z.mul_le_mono_nonneg_r; [ | lia].
    apply Z.lt_le_incl, pow2_pos. lia.
Qed.

Local Open Scope float_scope.

Lemma of_Z_mono (a b : Z) : (0 <= a <= b)%Z -> (of_Z a <=? of_Z b) = true.
Proof.
  intros H. rewrite leb_spec, !of_Z_spec. now apply binary_normalize_mono.
Qed.

Lemma of_N_mono (a b : N) : (a <= b)%N -> (of_N a <=? of_N b) = true.
Proof. intros H. apply of_Z_mono. lia. Qed.

Lemma scale_order (A B : Z) (k : Z) :
  (0 <= k)%Z -> (A <= B)%Z -> (A * 2 ^ k <= B * 2 ^ k)%Z.
Proof.
  intros Hk H. apply Z.mul_le_mono_nonneg_r; [ | exact H].
  apply Z.lt_le_incl, pow2_pos. exact Hk.
Qed.

(** A quotient of a float by a float that is not smaller is at most one. *)
Lemma div_le_one (x y : float) :
  is_nonneg_finite x = true -> is_positive_finite y = true ->
  (x <=? y) = true -> (x / y <=? 1) = true.
Proof.
  intros Hx Hy. rewrite !leb_spec, div_spec. unfold SF64div.
  pose proof (Prim2SF_valid x) as Vx. pose proof (Prim2SF_valid y) as Vy.
  unfold is_nonneg_finite in Hx. unfold is_positive_finite in Hy.
  change (Prim2SF 1) with sf_one.
  destruct (Prim2SF x) as [sx | sx | | [ | ] mx ex]; try discriminate;
    destruct (Prim2SF y) as [sy | sy | | [ | ] my ey]; try discriminate; intros Hle.
  - reflexivity.
  - pose proof (SFleb_value _ _ _ _ Vx Vy Hle) as Hv.
    apply valid_finite in Vx as [Hcx _]. apply valid_finite in Vy as [Hcy _].
    destruct (canonical_mantissa_lt mx ex Hcx) as [_ Hex].
    destruct (canonical_mantissa_lt my ey Hcy) as [_ Hey].
    apply (SFdiv_le_float mx my 4503599627370496 ex ey (-52) Hcx Hcy);
      [reflexivity | lia | lia | ].
    replace (ex + 2148)%Z with (ex + 1074 + 1074)%Z by lia.
    replace (ey + 2148)%Z with (ey + 1074 + 1074)%Z by lia.
    rewrite (pow2_split (ex + 1074) 1074), (pow2_split (ey + 1074) 1074) by lia.
    change (- -52)%Z with 52%Z.
    assert (HQ : (0 < 2 ^ 1074 * 2 ^ 52)%Z) by (apply Z.mul_pos_pos; apply pow2_pos; lia).
    assert (H : (Zpos mx * 2 ^ (ex + 1074) * (2 ^ 1074 * 2 ^ 52)
                 <= Zpos my * 2 ^ (ey + 1074) * (2 ^ 1074 * 2 ^ 52))%Z)
      by (apply Z.mul_le_mono_nonneg_r; [lia | exact Hv]).
    change (Zpos 4503599627370496) with (2 ^ 52)%Z.
    etransitivity; [ | etransitivity; [exact H | ]]; apply Z.eq_le_incl; ring.
Qed.

(** A positive finite float divided by itself is exactly one. *)
Lemma div_self (x : float) : is_positive_finite x = true -> x / x = 1.
Proof.
  intros Hx. apply Prim2SF_inj. rewrite div_spec. unfold SF64div.
  pose proof (Prim2SF_valid x) as Vx. unfold is_positive_finite in Hx.
  change (Prim2SF 1) with sf_one.
  destruct (Prim2SF x) as [sx | sx | | [ | ] mx ex]; try discriminate.
  apply valid_finite in Vx as [Hcx _].
  apply SFleb_antisym_finite.
  - apply (SFdiv_ge_float mx mx 4503599627370496 ex ex (-52) Hcx Hcx);
      [reflexivity | lia | lia | ].
    change (- -52)%Z with 52%Z. change (Zpos 4503599627370496) with (2 ^ 52)%Z.
    apply Z.eq_le_incl. ring.
  - apply (SFdiv_le_float mx mx 4503599627370496 ex ex (-52) Hcx Hcx);
      [reflexivity | lia | lia | ].
    change (- -52)%Z with 52%Z. change (Zpos 4503599627370496) with (2 ^ 52)%Z.
    apply Z.eq_le_incl. ring.
Qed.

End FloatQuotient.

Section CollateralRatio.

Import modules hostdb F64.
Local Open Scope N_scope.

Variable Pow : float -> float -> float.

(** X12: In collateralAdjustments the cutoff is never below the scored
    collateral, so that the ratio float64(collateral64) /
    float64(cutoff64) is at most 1 and not at least 1 as the comment in
    the code says; when the funds-based cutoff does not exceed the
    scored collateral and the normalised collateral is positive, the
    ratio is exactly 1 and the weight is Pow(collateral64, small
    exponent) * Pow(1, large exponent). Stated for a normalised cutoff
    within the range of a uint64. *)
Theorem collateral_ratio_is_at_most_one
        (entry : HostDBEntry) (allowance : Allowance) (expectedStorage : N) :
  let hosts := orOne (Hosts allowance) in
  let period := orOne (Period allowance) in
  let es := orOne expectedStorage in
  let scored := N.max (Collateral entry) (MaxCollateral entry / (2 * period * es)) in
  let fundsCutoff := Funds allowance / hosts / period / es / 3 in
  let cutoff := N.max fundsCutoff scored in
  cutoff / priceDivNormalization <= MaxUint64 ->
  let collateral64 := scored / priceDivNormalization in
  let cutoff64 := orOne (cutoff / priceDivNormalization) in
  collateralAdjustments Pow entry allowance expectedStorage
    = Some (collateralWeight Pow collateral64 cutoff64)
  /\ collateral64 <= cutoff64
  /\ (of_N collateral64 / of_N cutoff64 <=? 1)%float = true
  /\ (fundsCutoff <= scored -> 0 < collateral64 ->
      collateralWeight Pow collateral64 cutoff64
      = (Pow (of_N collateral64) collateralExponentiationSmall
         * Pow 1 collateralExponentiationLarge)%float).
Proof.
  intros hosts period es scored fundsCutoff cutoff Hmax collateral64 cutoff64.
  assert (Hn : priceDivNormalization <> 0) by (rewrite priceDivNormalization_value; discriminate).
  assert (Hsc : scored <= cutoff) by (unfold cutoff; lia).
  assert (Hc64 : collateral64 <= cutoff / priceDivNormalization)
    by (apply N.Div0.div_le_mono; exact Hsc).
  assert (Hck : collateral64 <= cutoff64).
  { unfold cutoff64, orOne. destruct (N.eqb_spec (cutoff / priceDivNormalization) 0); lia. }
  assert (Hk1 : 1 <= cutoff64 <= MaxUint64).
  { unfold cutoff64, orOne.
    destruct (N.eqb_spec (cutoff / priceDivNormalization) 0); [unfold MaxUint64 | ]; lia. }
  split; [ | split; [exact Hck | split]].
  - unfold collateralAdjustments. fold hosts period es.
    unfold period, es at 1. rewrite hostCollateralFor_max by apply orOne_nonzero.
    fold period es scored. cbn [bind].
    unfold hosts, period, es. rewrite cutoffFor_value by apply orOne_nonzero.
    fold hosts period es fundsCutoff cutoff. cbn [bind].
    unfold normalized64. rewrite !Div_nonzero by exact Hn. cbn [bind].
    unfold types.Uint64, types.NewCurrency64. rewrite !Cmp_gt.
    assert ((MaxUint64 <? scored / priceDivNormalization) = false) as ->
        by (apply N.ltb_ge; fold collateral64; lia).
    assert ((MaxUint64 <? cutoff / priceDivNormalization) = false) as ->
        by (apply N.ltb_ge; lia).
    reflexivity.
  - apply div_le_one.
    + apply of_N_nonneg_finite. lia.
    + now apply of_N_positive_finite.
    + now apply of_N_mono.
  - intros Hf Hpos. unfold collateralWeight.
    assert (E : cutoff64 = collateral64).
    { unfold cutoff64, cutoff. rewrite N.max_r by exact Hf. fold collateral64.
      unfold orOne. destruct (N.eqb_spec collateral64 0); [lia | reflexivity]. }
    rewrite E. rewrite div_self; [reflexivity | ].
    apply of_N_positive_finite. rewrite <- E at 2. lia.
Qed.

End CollateralRatio.

(** * The redundancy check of an upload *)

Section Redundancy.

Import F64 Round.
Local Open Scope Z_scope.

(** The binary64 datum of an integer of magnitude below [2^53]: the
    magnitude itself, normalised, with the sign of the integer. *)
Lemma binary_round_exact (s : bool) (p : positive) :
  Zpos p < 2 ^ 53 ->
  exists (m : positive) (e : Z),
    binary_round prec emax s p 0 = S754_finite s m e
    /\ e <= 0 /\ Zpos m = Zpos p * 2 ^ (- e)
    /\ Z.max (Zdigits2 (Zpos m) + e - 53) (-1074) = e.
Proof.
  intros Hz53. unfold binary_round.
  pose proof (shl_align_spec p 0 (fexp prec emax (Zpos (digits2_pos p) + 0))) as [He0 Hm0].
  destruct (shl_align p 0 _) as [mz e0]. cbn [fst snd] in He0, Hm0.
  change (Zpos (digits2_pos p)) with (Zdigits2 (Zpos p)) in He0.
  rewrite fexp_eq in He0.
  assert (Hd : Zdigits2 (Zpos p) <= 53) by (apply Zdigits2_le; lia).
  pose proof (Zdigits2_pos (Zpos p) ltac:(lia)) as Hdp.
  assert (Ee0 : e0 = Zdigits2 (Zpos p) - 53) by lia.
  assert (Hdz : Zdigits2 (Zpos mz) = 53).
  { rewrite Hm0, Zdigits2_mul_pow2 by lia. lia. }
  exists mz, e0. split.
  - apply binary_round_aux_id; lia.
  - split; [lia | ]. split; [rewrite Hm0; f_equal; f_equal; lia | lia].
Qed.

Lemma scaled_value (m p : positive) (e : Z) :
  e <= 0 -> -2148 <= e -> Zpos m = Zpos p * 2 ^ (- e) ->
  Zpos m * 2 ^ (e + 2148) = Zpos p * 2 ^ 2148.
Proof.
  intros H0 Hlo ->. rewrite <- Z.mul_assoc, <- Z.pow_add_r by lia.
  f_equal. f_equal. lia.
Qed.

Lemma SFltb_of_leb_finite (q : spec_float) (mw mt : positive) (ew et : Z) :
  SFleb q (S754_finite false mw ew) = true ->
  SFltb (S754_finite false mw ew) (S754_finite false mt et) = true ->
  SFltb q (S754_finite false mt et) = true.
Proof.
  destruct q as [s | s | | s m e]; unfold SFleb, SFltb; cbn [SFcompare];
    try (destruct s; intros; try reflexivity; discriminate); try discriminate.
  destruct s; [reflexivity | ].
  change (Pcompare m mw Eq) with (m ?= mw)%positive.
  change (Pcompare mw mt Eq) with (mw ?= mt)%positive.
  change (Pcompare m mt Eq) with (m ?= mt)%positive.
  destruct (Z.compare_spec e ew), (Z.compare_spec ew et), (Z.compare_spec e et);
    try lia; try discriminate; try reflexivity;
    destruct (Pos.compare_spec m mw), (Pos.compare_spec mw mt), (Pos.compare_spec m mt);
    try lia; try discriminate; reflexivity.
Qed.

Lemma SFltb_false_of_leb (q : spec_float) (mw : positive) (ew : Z) :
  SFleb (S754_finite false mw ew) q = true ->
  SFltb q (S754_finite false mw ew) = false.
Proof.
  destruct q as [s | s | | s m e]; unfold SFleb, SFltb; cbn [SFcompare];
    try (destruct s; intros; try reflexivity; discriminate); try discriminate;
    try reflexivity.
  destruct s; [discriminate | ].
  change (Pcompare mw m Eq) with (mw ?= m)%positive.
  change (Pcompare m mw Eq) with (m ?= mw)%positive.
  destruct (Z.compare_spec ew e), (Z.compare_spec e ew); try lia; try discriminate;
    try reflexivity;
    destruct (Pos.compare_spec mw m), (Pos.compare_spec m mw);
    try lia; try discriminate; reflexivity.
Qed.

Lemma SFltb_negative (q : spec_float) (mt : positive) (et : Z) :
  signed true q -> SFltb q (S754_finite false mt et) = true.
Proof.
  destruct q as [s | s | | s m e]; unfold signed, SFltb; cbn [SFcompare].
  - reflexivity.
  - intros ->. reflexivity.
  - intros [].
  - intros ->. reflexivity.
Qed.

Local Open Scope float_scope.

(** The quotient [(d + p) / d] of the handler, for a number of data
    pieces [d] and a positive number of parity pieces [p] of magnitude
    below [2^52], is below two unless [d] is zero or [0 < d <= p]. *)
Lemma redundancy_below_two (d p : Z) :
  (- 2 ^ 52 < d < 2 ^ 52)%Z -> (0 < p < 2 ^ 52)%Z ->
  (of_Z (time.wrap64 (d + p)) / of_Z d <? 2)
  = negb ((d =? 0)%Z || ((0 <? d)%Z && (d <=? p)%Z)).
Proof.
  intros Hd Hp.
  assert (Hw : time.wrap64 (d + p) = (d + p)%Z).
  { unfold time.wrap64. change (2 ^ 52)%Z with 4503599627370496%Z in *.
    change (2 ^ 63)%Z with 9223372036854775808%Z.
    change (2 ^ 64)%Z with 18446744073709551616%Z.
    rewrite Z.mod_small; lia. }
  rewrite Hw, ltb_spec, div_spec, !of_Z_spec. unfold SF64div.
  change (Prim2SF 2) with (S754_finite false 4503599627370496 (-51)).
  assert (H53 : (2 ^ 53 = 2 * 2 ^ 52)%Z) by reflexivity.
  destruct d as [ | pd | pd].
  - (* no data pieces: the quotient is infinite *)
    cbn [Z.eqb orb negb]. rewrite Z.add_0_l.
    destruct p as [ | pp | pp]; try lia. cbn [binary_normalize].
    destruct (binary_round_exact false pp ltac:(lia)) as [m [e [-> _]]].
    reflexivity.
  - (* a positive number of data pieces *)
    assert (Hs : (Zpos pd + p = Zpos (pd + Pos.of_succ_nat (Z.to_nat p - 1)))%Z) by lia.
    set (px := (pd + Pos.of_succ_nat (Z.to_nat p - 1))%positive) in *.
    rewrite Hs. cbn [binary_normalize Z.eqb orb Z.ltb Z.compare andb].
    destruct (binary_round_exact false px ltac:(lia)) as [m1 [e1 [-> [He1 [Hm1 Hc1]]]]].
    destruct (binary_round_exact false pd ltac:(lia)) as [m2 [e2 [-> [He2 [Hm2 Hc2]]]]].
    destruct (canonical_mantissa_lt m1 e1 Hc1) as [_ Hlo1].
    destruct (canonical_mantissa_lt m2 e2 Hc2) as [_ Hlo2].
    pose proof (scaled_value m1 px e1 He1 ltac:(lia) Hm1) as S1.
    pose proof (scaled_value m2 pd e2 He2 ltac:(lia) Hm2) as S2.
    assert (HK : (0 < 2 ^ 2148)%Z) by (apply pow2_pos; lia).
    destruct (Z.leb_spec (Zpos pd) p) as [Hle | Hgt]; cbn [negb].
    + apply SFltb_false_of_leb.
      apply (SFdiv_ge_float m1 m2 4503599627370496 e1 e2 (-51) Hc1 Hc2);
        [reflexivity | lia | lia | ].
      rewrite S1, S2. change (- -51)%Z with 51%Z.
      change (Zpos 4503599627370496) with (2 * 2 ^ 51)%Z.
      set (K := (2 ^ 2148)%Z) in *. clearbody K.
      assert (H51 : (0 < 2 ^ 51)%Z) by (apply pow2_pos; lia).
      set (A := (2 ^ 51)%Z) in *. clearbody A.
      assert (Hx : (2 * Zpos pd <= Zpos px)%Z) by lia.
      apply (Z.mul_le_mono_nonneg_r _ _ (A * K)) in Hx; [ | nia].
      etransitivity; [ | etransitivity; [exact Hx | ]]; apply Z.eq_le_incl; ring.
    + apply (SFltb_of_leb_finite _ 9007199254740991 4503599627370496 (-52) (-51));
        [ | reflexivity].
      apply (SFdiv_le_float m1 m2 9007199254740991 e1 e2 (-52) Hc1 Hc2);
        [reflexivity | lia | lia | ].
      rewrite S1, S2. change (- -52)%Z with 52%Z.
      change (Zpos 9007199254740991) with (2 * 2 ^ 52 - 1)%Z.
      set (K := (2 ^ 2148)%Z) in *. clearbody K.
      assert (H52 : (0 < 2 ^ 52)%Z) by (apply pow2_pos; lia).
      set (A := (2 ^ 52)%Z) in *. clearbody A.
      assert (Hx : (Zpos px * A <= (2 * A - 1) * Zpos pd)%Z) by nia.
      apply (Z.mul_le_mono_nonneg_r _ _ K) in Hx; [ | lia].
      etransitivity; [ | etransitivity; [exact Hx | ]]; apply Z.eq_le_incl; ring.
  - (* a negative number of data pieces *)
    cbn [Z.eqb orb Z.ltb Z.compare andb negb].
    destruct (binary_round_exact true pd ltac:(lia)) as [m2 [e2 [E2 [He2 [Hm2 Hc2]]]]].
    change (binary_normalize prec emax (Z.neg pd) 0 false)
      with (binary_round prec emax true pd 0).
    rewrite E2.
    destruct (Z.neg pd + p)%Z as [ | px | px] eqn:Ex.
    + reflexivity.
    + cbn [binary_normalize].
      destruct (binary_round_exact false px ltac:(lia)) as [m1 [e1 [-> [_ [_ Hc1]]]]].
      apply SFltb_negative. cbn [SFdiv xorb].
      destruct (SFdiv_core_spec m1 m2 e1 e2 Hc1 Hc2)
        as [q [e' [l [s [r [-> [_ [_ [_ [_ [_ [Hq _]]]]]]]]]]]].
      apply binary_round_aux_signed. exact Hq.
    + cbn [binary_normalize].
      destruct (binary_round_exact true px ltac:(lia)) as [m1 [e1 [-> [He1 [Hm1 Hc1]]]]].
      destruct (canonical_mantissa_lt m1 e1 Hc1) as [_ Hlo1].
      destruct (canonical_mantissa_lt m2 e2 Hc2) as [_ Hlo2].
      pose proof (scaled_value m1 px e1 He1 ltac:(lia) Hm1) as S1.
      pose proof (scaled_value m2 pd e2 He2 ltac:(lia) Hm2) as S2.
      assert (HK : (0 < 2 ^ 2148)%Z) by (apply pow2_pos; lia).
      change (SFdiv prec emax (S754_finite true m1 e1) (S754_finite true m2 e2))
        with (SFdiv prec emax (S754_finite false m1 e1) (S754_finite false m2 e2)).
      apply (SFltb_of_leb_finite _ 4503599627370496 4503599627370496 (-52) (-51));
        [ | reflexivity].
      apply (SFdiv_le_float m1 m2 4503599627370496 e1 e2 (-52) Hc1 Hc2);
        [reflexivity | lia | lia | ].
      rewrite S1, S2. change (- -52)%Z with 52%Z.
      set (K := (2 ^ 2148)%Z) in *. clearbody K.
      change (Zpos 4503599627370496) with (2 ^ 52)%Z.
      assert (H52 : (0 < 2 ^ 52)%Z) by (apply pow2_pos; lia).
      set (A := (2 ^ 52)%Z) in *. clearbody A.
      assert (Hx : (Zpos px <= Zpos pd)%Z) by lia.
      apply (Z.mul_le_mono_nonneg_r _ _ (A * K)) in Hx; [ | nia].
      etransitivity; [ | etransitivity; [exact Hx | ]]; apply Z.eq_le_incl; ring.
Qed.

End Redundancy.

(** * The checks of the daemon configuration *)

Section StripValid.

Import siad.

Let L := list_ascii_of_string.

Lemma count_removeFirst (m x : ascii) (s : string) :
  count_occ ascii_dec (L (removeFirst m s)) x =
  if ascii_dec x m then Nat.pred (count_occ ascii_dec (L s) x)
  else count_occ ascii_dec (L s) x.
Proof.
  induction s as [ | c r IH]; cbn [removeFirst L list_ascii_of_string].
  - now destruct (ascii_dec x m).
  - fold (L r) in *. destruct (Ascii.eqb_spec c m) as [-> | Hcm].
    + cbn [count_occ]. destruct (ascii_dec m x) as [<- | Hmx].
      * destruct (ascii_dec m m); [reflexivity | contradiction].
      * destruct (ascii_dec x m) as [-> | _]; [contradiction | reflexivity].
    + cbn [L list_ascii_of_string count_occ]. fold (L (removeFirst m r)). rewrite IH.
      destruct (ascii_dec c x) as [<- | Hcx].
      * destruct (ascii_dec c m); [contradiction | reflexivity].
      * reflexivity.
Qed.

Lemma count_stripValid (valid : list ascii) (s : string) (x : ascii) :
  NoDup valid ->
  count_occ ascii_dec (L (fold_left (fun invalid m => removeFirst m invalid) valid s)) x =
  if in_dec ascii_dec x valid then Nat.pred (count_occ ascii_dec (L s) x)
  else count_occ ascii_dec (L s) x.
Proof.
  revert s. induction valid as [ | m valid IH]; intros s Hnd; cbn [fold_left].
  - reflexivity.
  - inversion Hnd as [ | m' l' Hnin Hnd']; subst.
    rewrite (IH _ Hnd'), count_removeFirst.
    destruct (in_dec ascii_dec x (m :: valid)) as [Hin | Hnin'];
      destruct (in_dec ascii_dec x valid) as [Hin' | Hnin''];
      destruct (ascii_dec x m) as [-> | Hxm]; try reflexivity; try contradiction.
    + exfalso. destruct Hin as [E | Hin]; [now apply Hxm | contradiction].
    + exfalso. apply Hnin'. now right.
    + exfalso. apply Hnin'. now left.
Qed.

(** After one occurrence of each valid byte is removed, nothing is left
    exactly when the string has no byte twice and only valid bytes. *)
Lemma stripValid_empty (valid s : string) :
  NoDup (L valid) ->
  (stripValid valid s = EmptyString <->
   NoDup (L s) /\ (forall c, In c (L s) -> In c (L valid))).
Proof.
  intros Hnd. unfold stripValid. fold (L valid).
  set (r := fold_left _ (L valid) s).
  assert (Hcount : forall x, count_occ ascii_dec (L r) x =
                             if in_dec ascii_dec x (L valid)
                             then Nat.pred (count_occ ascii_dec (L s) x)
                             else count_occ ascii_dec (L s) x)
    by (intros x; apply count_stripValid; exact Hnd).
  assert (Hnil : r = EmptyString <-> forall x, count_occ ascii_dec (L r) x = 0%nat).
  { split.
    - intros ->. reflexivity.
    - intros H. apply (count_occ_inv_nil ascii_dec) in H.
      destruct r; [reflexivity | discriminate]. }
  rewrite Hnil. split.
  - intros H. split.
    + apply (NoDup_count_occ ascii_dec). intros x. specialize (H x). rewrite Hcount in H.
      destruct (in_dec ascii_dec x (L valid)); lia.
    + intros c Hc. apply (count_occ_In ascii_dec) in Hc.
      specialize (H c). rewrite Hcount in H.
      destruct (in_dec ascii_dec c (L valid)); [assumption | lia].
  - intros [Hs Hincl] x. rewrite Hcount.
    destruct (in_dec ascii_dec x (L valid)) as [Hin | Hnin].
    + pose proof (proj1 (NoDup_count_occ ascii_dec (L s)) Hs x). lia.
    + apply (count_occ_not_In ascii_dec). intros Hx. apply Hnin, Hincl, Hx.
Qed.

Lemma length_zero_empty (s : string) : (0 <? String.length s)%nat = false <-> s = EmptyString.
Proof.
  destruct s; cbn; split; intros H; try reflexivity; discriminate.
Qed.

End StripValid.

Section Daemon.

Import siad.

Variable Atoi : string -> option Z.
Variable ToLower : string -> string.
Variable IsLoopback : string -> bool.
Variable Host : string -> string.
Variable Port : string -> string.
Variable JoinErrors : list (option string) -> string -> option string.

Lemma valid_modules_NoDup : NoDup (list_ascii_of_string "cghmrtwep").
Proof. cbn. repeat constructor; cbn; intuition discriminate. Qed.

Lemma valid_profiles_NoDup : NoDup (list_ascii_of_string "cmt").
Proof. cbn. repeat constructor; cbn; intuition discriminate. Qed.

(** X13: processModules and processProfileFlags accept a string exactly
    when its lower-case form has no byte twice and only bytes of the
    valid set (cghmrtwep, respectively cmt); processModules returns the
    lower-case form when it accepts and the empty string when it
    rejects. *)
Theorem modules_flag_is_a_set_of_valid_letters (s : string) :
  let lower := list_ascii_of_string (ToLower s) in
  (snd (processModules ToLower s) = None <->
   NoDup lower /\ (forall c, In c lower -> In c (list_ascii_of_string "cghmrtwep")))
  /\ (snd (processProfileFlags ToLower s) = None <->
      NoDup lower /\ (forall c, In c lower -> In c (list_ascii_of_string "cmt")))
  /\ (snd (processModules ToLower s) = None -> fst (processModules ToLower s) = ToLower s)
  /\ (snd (processModules ToLower s) <> None -> fst (processModules ToLower s) = EmptyString).
Proof.
  cbv zeta. unfold processModules, processProfileFlags. cbv zeta.
  pose proof valid_modules_NoDup as H9. pose proof valid_profiles_NoDup as H3.
  pose proof (stripValid_empty "cghmrtwep" (ToLower s) H9) as E9.
  pose proof (stripValid_empty "cmt" (ToLower s) H3) as E3.
  pose proof (length_zero_empty (stripValid "cghmrtwep" (ToLower s))) as L9.
  pose proof (length_zero_empty (stripValid "cmt" (ToLower s))) as L3.
  destruct (0 <? String.length (stripValid "cghmrtwep" (ToLower s)))%nat;
    destruct (0 <? String.length (stripValid "cmt" (ToLower s)))%nat;
    cbn [fst snd]; repeat split; try discriminate; try congruence; try tauto;
    intros; try (exfalso; intuition discriminate); intuition.
Qed.

(** X14: Once processed, an address is never a bare integer, so that
    processing it again changes nothing; a bare integer gets a colon in
    front. strconv.Atoi is taken to reject every string that starts with
    a colon. *)
Theorem processNetAddr_is_idempotent (addr : string) :
  (forall s, Atoi (":" ++ s)%string = None) ->
  Atoi (processNetAddr Atoi addr) = None
  /\ processNetAddr Atoi (processNetAddr Atoi addr) = processNetAddr Atoi addr
  /\ (Atoi addr <> None -> processNetAddr Atoi addr = (":" ++ addr)%string).
Proof.
  intros H. unfold processNetAddr at 1 3 4 5.
  destruct (Atoi addr) as [n | ] eqn:E.
  - split; [apply H | ]. split; [ | reflexivity].
    unfold processNetAddr. now rewrite H.
  - split; [exact E | ]. split; [ | congruence].
    unfold processNetAddr. now rewrite E.
Qed.

Lemma processModules_accepted (s mods : string) :
  processModules ToLower s = (mods, None) ->
  mods = ToLower s /\ NoDup (list_ascii_of_string (ToLower s)).
Proof.
  unfold processModules. cbv zeta.
  destruct (0 <? String.length (stripValid "cghmrtwep" (ToLower s)))%nat eqn:E;
    [discriminate | ].
  intros H. injection H as <-. split; [reflexivity | ].
  apply length_zero_empty in E.
  apply (stripValid_empty "cghmrtwep" (ToLower s) valid_modules_NoDup) in E. apply E.
Qed.

Lemma processProfileFlags_accepted (s prof : string) :
  processProfileFlags ToLower s = (prof, None) ->
  prof = ToLower s /\ NoDup (list_ascii_of_string (ToLower s)).
Proof.
  unfold processProfileFlags. cbv zeta.
  destruct (0 <? String.length (stripValid "cmt" (ToLower s)))%nat eqn:E;
    [discriminate | ].
  intros H. injection H as <-. split; [reflexivity | ].
  apply length_zero_empty in E.
  apply (stripValid_empty "cmt" (ToLower s) valid_profiles_NoDup) in E. apply E.
Qed.

(** X15: A configuration that processConfig accepts has the processed
    API address; it binds the API to a loopback address unless both the
    flag that allows another address and the flag that asks for a
    password are set; with the first flag the second is set; its modules
    and profile strings are the lower-case forms of the given ones,
    without a letter twice. build.JoinErrors is taken to return no error
    exactly when every error of the list is nil. *)
Theorem accepted_config_is_secure (config config' : Config) :
  (forall errs sep, JoinErrors errs sep = None <-> Forall (fun e => e = None) errs) ->
  processConfig Atoi ToLower IsLoopback Host Port JoinErrors config = (config', None) ->
  APIaddr (Siad config') = processNetAddr Atoi (APIaddr (Siad config))
  /\ (IsLoopback (APIaddr (Siad config')) = false ->
      AllowAPIBind (Siad config') = true /\ AuthenticateAPI (Siad config') = true)
  /\ (AllowAPIBind (Siad config') = true -> AuthenticateAPI (Siad config') = true)
  /\ Modules (Siad config') = ToLower (Modules (Siad config))
  /\ NoDup (list_ascii_of_string (Modules (Siad config')))
  /\ Profile (Siad config') = ToLower (Profile (Siad config))
  /\ NoDup (list_ascii_of_string (Profile (Siad config'))).
Proof.
  intros HJ. unfold processConfig. cbv zeta.
  destruct (processModules ToLower (Modules (Siad config))) as [mods err1] eqn:Em.
  destruct (processProfileFlags ToLower (Profile (Siad config))) as [prof err2] eqn:Ep.
  set (c := {| Siad := _; APIPassword := _ |}).
  destruct (JoinErrors [err1; err2; verifyAPISecurity IsLoopback Host Port c] ", and ")
    as [e | ] eqn:EJ; [discriminate | ].
  intros Heq. injection Heq as <-.
  apply HJ in EJ. inversion EJ as [ | a l H1 EJ']; subst.
  inversion EJ' as [ | a l H2 EJ'']; subst. inversion EJ'' as [ | a l H3 _]; subst.
  apply processModules_accepted in Em as [-> HMnd].
  apply processProfileFlags_accepted in Ep as [-> HPnd].
  unfold verifyAPISecurity in H3. unfold c in *. cbn [Siad APIaddr AllowAPIBind AuthenticateAPI
                                                      Modules Profile] in *.
  assert (A : IsLoopback (processNetAddr Atoi (APIaddr (Siad config))) = false ->
              AllowAPIBind (Siad config) = true /\ AuthenticateAPI (Siad config) = true).
  { intros Hl. rewrite Hl in H3. cbn [negb] in H3.
    destruct (AllowAPIBind (Siad config)); cbn [negb andb] in H3.
    - destruct (AuthenticateAPI (Siad config)); [split; reflexivity | discriminate].
    - destruct (Host _ =? "")%string; discriminate. }
  assert (B : AllowAPIBind (Siad config) = true -> AuthenticateAPI (Siad config) = true).
  { intros Ha. rewrite Ha in H3. cbn [negb andb] in H3.
    destruct (AuthenticateAPI (Siad config)); [reflexivity | discriminate]. }
  split; [reflexivity | ]. split; [exact A | ]. split; [exact B | ].
  split; [reflexivity | ]. split; [exact HMnd | ]. split; [reflexivity | exact HPnd].
Qed.

End Daemon.

(** * The contracts listing as a whole *)

Section ListingPartition.

Import api.
Local Open Scope N_scope.

Variables (inactive expired : bool) (blockHeight : types.BlockHeight).

Lemma stepContract_contracts (cs : list modules.RenterContract) (acc : RenterContracts) :
  Contracts (fold_left (stepContract inactive) cs acc) = Contracts acc ++ map build cs.
Proof.
  revert acc. induction cs as [ | c cs IH]; intros acc; cbn [fold_left map].
  - now rewrite app_nil_r.
  - rewrite IH. cbn [stepContract Contracts]. now rewrite <- app_assoc.
Qed.

Lemma stepContract_active (cs : list modules.RenterContract) (acc : RenterContracts) :
  ActiveContracts (fold_left (stepContract inactive) cs acc) =
  ActiveContracts acc
  ++ map build (filter (fun c => modules.GoodForRenew (modules.Utility c)) cs).
Proof.
  revert acc. induction cs as [ | c cs IH]; intros acc; cbn [fold_left filter].
  - now rewrite app_nil_r.
  - rewrite IH. unfold stepContract. cbn [ActiveContracts].
    destruct (modules.GoodForRenew (modules.Utility c)); cbn;
      rewrite <- ?app_assoc; reflexivity.
Qed.

Lemma stepOldContract_keeps (olds : list modules.RenterContract) (acc : RenterContracts) :
  Contracts (fold_left (stepOldContract inactive expired blockHeight) olds acc) = Contracts acc
  /\ ActiveContracts (fold_left (stepOldContract inactive expired blockHeight) olds acc)
     = ActiveContracts acc.
Proof.
  revert acc. induction olds as [ | c olds IH]; intros acc; cbn [fold_left].
  - split; reflexivity.
  - destruct (IH (stepOldContract inactive expired blockHeight acc c)) as [-> ->].
    unfold stepOldContract.
    destruct (expired && (modules.EndHeight c <? blockHeight));
      [ | destruct (inactive && (blockHeight <=? modules.EndHeight c))];
      split; reflexivity.
Qed.

Lemma handler_contracts (cs olds : list modules.RenterContract) :
  Contracts (renterContractsHandler inactive expired blockHeight cs olds) = map build cs
  /\ ActiveContracts (renterContractsHandler inactive expired blockHeight cs olds)
     = map build (filter (fun c => modules.GoodForRenew (modules.Utility c)) cs).
Proof.
  unfold renterContractsHandler.
  destruct (expired || inactive).
  - destruct (stepOldContract_keeps olds
                (fold_left (stepContract inactive) cs
                   {| Contracts := []; ActiveContracts := [];
                      InactiveContracts := []; ExpiredContracts := [] |})) as [-> ->].
    rewrite stepContract_contracts, stepContract_active. split; reflexivity.
  - rewrite stepContract_contracts, stepContract_active. split; reflexivity.
Qed.

Lemma filter_split_length {A : Type} (p q : A -> bool) (l : list A) :
  (forall x, q x = negb (p x)) ->
  (List.length (filter p l) + List.length (filter q l) = List.length l)%nat.
Proof.
  intros Hq. induction l as [ | a l IH]; [reflexivity | ].
  cbn [filter]. rewrite Hq. destruct (p a); cbn [negb List.length]; lia.
Qed.

(** X16: The Contracts list of the response holds every current
    contract, in order, and the ActiveContracts list those of them that
    are good for renewal; with both the inactive and the expired flag
    set the lengths of the active, inactive and expired lists add up to
    the number of current plus archived contracts, so that no contract
    is dropped or listed twice among the three; without the inactive
    flag the inactive list is empty and without the expired flag the
    expired list is empty. *)
Theorem every_contract_is_listed_once (cs olds : list modules.RenterContract) :
  let r := renterContractsHandler inactive expired blockHeight cs olds in
  Contracts r = map build cs
  /\ ActiveContracts r
     = map build (filter (fun c => modules.GoodForRenew (modules.Utility c)) cs)
  /\ (inactive = true -> expired = true ->
      (List.length (ActiveContracts r) + List.length (InactiveContracts r)
       + List.length (ExpiredContracts r) = List.length cs + List.length olds)%nat)
  /\ (inactive = false -> InactiveContracts r = [])
  /\ (expired = false -> ExpiredContracts r = [])
  /\ (forall x, In x (ActiveContracts r) -> GoodForRenew x = true).
Proof.
  intros r. subst r.
  destruct (handler_contracts cs olds) as [HC HA].
  rewrite HC, HA, handler_expired, handler_inactive.
  split; [reflexivity | ]. split; [reflexivity | ].
  split; [ | split; [ | split]].
  - intros -> ->. cbn [andb]. rewrite !length_app, !length_map.
    pose proof (filter_split_length
                  (fun c => modules.GoodForRenew (modules.Utility c))
                  (fun c => negb (modules.GoodForRenew (modules.Utility c))) cs
                  (fun _ => eq_refl)) as H1.
    pose proof (filter_split_length
                  (fun c => modules.EndHeight c <? blockHeight)
                  (fun c => blockHeight <=? modules.EndHeight c) olds) as H2.
    rewrite <- H1, <- H2; [lia | ].
    intros x. rewrite N.ltb_antisym. now rewrite negb_involutive.
  - intros ->. cbn [andb]. now rewrite !filter_none.
  - intros ->. cbn [andb]. now rewrite filter_none.
  - intros x Hx. apply in_map_iff in Hx as [c [<- Hc]].
    apply filter_In in Hc as [_ Hc]. exact Hc.
Qed.

End ListingPartition.

(** * The renter's settings handler *)

Section SettingsChecks.

Import handlers.
Local Open Scope N_scope.
Local Open Scope go_scope.

Variable scanUint64 : string -> string + N.
Variable scanInt64 : string -> string + Z.
Variable scanFloat64 : string -> string + float.
Variable scanBoolean : string -> string + bool.
Variable scanAmount : string -> option types.Currency.
Variable showUint : N -> string.
Variable DefaultAllowance : Allowance.
Variable Release : build.ReleaseType.

Abbreviation scanAllowanceFields :=
  (scanAllowanceFields scanUint64 scanAmount showUint DefaultAllowance Release).
Abbreviation scanOtherFields :=
  (scanOtherFields scanUint64 scanInt64 scanFloat64 scanBoolean DefaultAllowance).
Abbreviation scanSettings :=
  (scanSettings scanUint64 scanInt64 scanFloat64 scanBoolean scanAmount showUint
                DefaultAllowance Release).
Abbreviation renterHandlerPOST :=
  (renterHandlerPOST scanUint64 scanInt64 scanFloat64 scanBoolean scanAmount showUint
                     DefaultAllowance Release).

Lemma andThen_inr {E A B : Type} (c : E + A) (k : A -> E + B) (r : B) :
  andThen c k = inr r -> exists a, c = inr a /\ k a = inr r.
Proof. destruct c as [e | a]; [discriminate | ]. intros H. now exists a. Qed.

Lemma scanOtherFields_base (req : Form) (s s' : RenterSettings) :
  scanOtherFields req s = inr s' -> base (allowance s') = base (allowance s).
Proof.
  unfold scanOtherFields. cbv zeta. intros H.
  repeat (apply andThen_inr in H as [? [_ H]]).
  injection H as <-. reflexivity.
Qed.

Lemma handler_calls_SetSettings (SetSettings : RenterSettings -> option string)
      (req : Form) (settings s' : RenterSettings) :
  fst (renterHandlerPOST SetSettings req settings) = Some s' <->
  scanSettings req settings = inr s'.
Proof.
  unfold handlers.renterHandlerPOST.
  destruct scanSettings as [[msg status] | s].
  - cbn. split; discriminate.
  - destruct (SetSettings s); cbn; split; congruence.
Qed.

Lemma nonempty_eqb (s : string) : s <> ""%string -> negb (String.eqb s "") = true.
Proof. intros H. destruct (String.eqb_spec s ""); [contradiction | reflexivity]. Qed.

Lemma empty_eqb (s : string) : s = ""%string -> negb (String.eqb s "") = false.
Proof. intros ->. reflexivity. Qed.

(** X17: When renterHandlerPOST hands settings to SetSettings: a posted
    number of hosts is the scanned one and is 0 or at least
    requiredHosts; without a posted number the old one is kept, or the
    default one if it was 0; without a posted period the old period is
    kept and it is not 0; a posted renew window is the scanned one and
    is 0 or at least requiredRenewWindow; without a posted one the old
    one is kept, or half the new period if it was 0. *)
Theorem accepted_settings_are_validated
        (SetSettings : RenterSettings -> option string)
        (req : Form) (settings s' : RenterSettings) :
  fst (renterHandlerPOST SetSettings req settings) = Some s' ->
  let old := base (allowance settings) in
  let new := base (allowance s') in
  (req "hosts"%string <> ""%string ->
   scanUint64 (req "hosts"%string) = inr (modules.Hosts new)
   /\ (modules.Hosts new = 0 \/ requiredHosts Release <= modules.Hosts new))
  /\ (req "hosts"%string = ""%string ->
      modules.Hosts new =
      if modules.Hosts old =? 0 then modules.Hosts (base DefaultAllowance)
      else modules.Hosts old)
  /\ (req "period"%string = ""%string ->
      modules.Period new = modules.Period old /\ modules.Period new <> 0)
  /\ (req "renewwindow"%string <> ""%string ->
      scanUint64 (req "renewwindow"%string) = inr (modules.RenewWindow new)
      /\ (modules.RenewWindow new = 0
          \/ requiredRenewWindow Release <= modules.RenewWindow new))
  /\ (req "renewwindow"%string = ""%string ->
      modules.RenewWindow new =
      if modules.RenewWindow old =? 0 then modules.Period new / 2
      else modules.RenewWindow old).
Proof.
  intros H old new. apply handler_calls_SetSettings in H.
  unfold handlers.scanSettings in H.
  apply andThen_inr in H as [s4 [H4 H]].
  apply scanOtherFields_base in H.
  subst old new. rewrite H. clear H s'.
  unfold handlers.scanAllowanceFields in H4. cbv zeta in H4.
  apply andThen_inr in H4 as [s1 [H1 H4]].
  apply andThen_inr in H4 as [s2 [H2 H4]].
  apply andThen_inr in H4 as [s3 [H3 H4]].
  apply andThen_inr in H4 as [s5 [H5 H4]].
  injection H4 as <-.
  (* funds *)
  assert (F : modules.Hosts (base (allowance s1)) = modules.Hosts (base (allowance settings))
              /\ modules.Period (base (allowance s1))
                 = modules.Period (base (allowance settings))
              /\ modules.RenewWindow (base (allowance s1))
                 = modules.RenewWindow (base (allowance settings))).
  { destruct (negb (String.eqb (req "funds"%string) "")).
    - destruct (scanAmount (req "funds"%string)); [ | discriminate].
      injection H1 as <-. repeat split.
    - injection H1 as <-. repeat split. }
  destruct F as [F1 [F2 F3]]. clear H1.
  (* hosts *)
  assert (G : (req "hosts"%string <> ""%string ->
               scanUint64 (req "hosts"%string) = inr (modules.Hosts (base (allowance s2)))
               /\ (modules.Hosts (base (allowance s2)) = 0
                   \/ requiredHosts Release <= modules.Hosts (base (allowance s2))))
              /\ (req "hosts"%string = ""%string ->
                  modules.Hosts (base (allowance s2)) =
                  if modules.Hosts (base (allowance settings)) =? 0
                  then modules.Hosts (base DefaultAllowance)
                  else modules.Hosts (base (allowance settings)))
              /\ modules.Period (base (allowance s2))
                 = modules.Period (base (allowance settings))
              /\ modules.RenewWindow (base (allowance s2))
                 = modules.RenewWindow (base (allowance settings))).
  { destruct (String.eqb_spec (req "hosts"%string) "") as [E | E]; cbn [negb] in H2.
    - rewrite F1 in H2.
      destruct (modules.Hosts (base (allowance settings)) =? 0) eqn:Z;
        injection H2 as <-; cbn; (split; [intros N; contradiction | ]);
        (split; [intros _; try reflexivity; exact F1 | split; assumption]).
    - unfold scanned in H2. destruct (scanUint64 (req "hosts"%string)) as [e | h];
        [discriminate | ]. cbn [andThen] in H2.
      destruct (negb (h =? 0) && (h <? requiredHosts Release)) eqn:C; [discriminate | ].
      injection H2 as <-. cbn.
      split; [intros _; split; [reflexivity | ] | split; [intros N; contradiction | now split]].
      apply andb_false_iff in C as [C | C].
      + left. apply negb_false_iff, N.eqb_eq in C. exact C.
      + right. now apply N.ltb_ge in C. }
  destruct G as [G1 [G2 [G3 G4]]]. clear H2 F1 F2 F3 s1.
  (* period *)
  assert (P : (req "period"%string = ""%string ->
               modules.Period (base (allowance s3))
               = modules.Period (base (allowance settings))
               /\ modules.Period (base (allowance s3)) <> 0)
              /\ modules.Hosts (base (allowance s3)) = modules.Hosts (base (allowance s2))
              /\ modules.RenewWindow (base (allowance s3))
                 = modules.RenewWindow (base (allowance settings))).
  { destruct (String.eqb_spec (req "period"%string) "") as [E | E]; cbn [negb] in H3.
    - destruct (modules.Period (base (allowance s2)) =? 0) eqn:Z; [discriminate | ].
      injection H3 as <-. apply N.eqb_neq in Z.
      split; [intros _; split; [exact G3 | exact Z] | now split].
    - unfold scanned in H3. destruct (scanUint64 (req "period"%string)) as [e | p];
        [discriminate | ]. cbn [andThen] in H3. injection H3 as <-. cbn.
      split; [intros N; contradiction | now split]. }
  destruct P as [P1 [P2 P3]]. clear H3 G3 G4.
  (* renew window *)
  assert (R : (req "renewwindow"%string <> ""%string ->
               scanUint64 (req "renewwindow"%string)
               = inr (modules.RenewWindow (base (allowance s5)))
               /\ (modules.RenewWindow (base (allowance s5)) = 0
                   \/ requiredRenewWindow Release
                      <= modules.RenewWindow (base (allowance s5))))
              /\ (req "renewwindow"%string = ""%string ->
                  modules.RenewWindow (base (allowance s5)) =
                  if modules.RenewWindow (base (allowance settings)) =? 0
                  then modules.Period (base (allowance s5)) / 2
                  else modules.RenewWindow (base (allowance settings)))
              /\ modules.Hosts (base (allowance s5)) = modules.Hosts (base (allowance s3))
              /\ modules.Period (base (allowance s5))
                 = modules.Period (base (allowance s3))).
  { destruct (String.eqb_spec (req "renewwindow"%string) "") as [E | E]; cbn [negb] in H5.
    - rewrite P3 in H5.
      destruct (modules.RenewWindow (base (allowance settings)) =? 0) eqn:Z;
        injection H5 as <-; cbn; (split; [intros N; contradiction | ]);
        (split; [intros _; try reflexivity; exact P3 | now split]).
    - unfold scanned in H5. destruct (scanUint64 (req "renewwindow"%string)) as [e | w];
        [discriminate | ]. cbn [andThen] in H5.
      destruct (negb (w =? 0) && (w <? requiredRenewWindow Release)) eqn:C;
        [discriminate | ].
      injection H5 as <-. cbn.
      split; [intros _; split; [reflexivity | ] | split; [intros N; contradiction | now split]].
      apply andb_false_iff in C as [C | C].
      + left. apply negb_false_iff, N.eqb_eq in C. exact C.
      + right. now apply N.ltb_ge in C. }
  destruct R as [R1 [R2 [R3 R4]]]. clear H5 P3.
  rewrite R3, P2, R4.
  split; [exact G1 | ]. split; [exact G2 | ]. split; [exact P1 | ].
  split; [ | ].
  - intros N. destruct (R1 N) as [A B]. split; assumption.
  - intros E. rewrite (R2 E). rewrite R4. reflexivity.
Qed.

Lemma scanOtherFields_empty (req : Form) (s : RenterSettings) :
  req "expectedstorage"%string = ""%string -> req "expectedupload"%string = ""%string ->
  req "expecteddownload"%string = ""%string -> req "expectedredundancy"%string = ""%string ->
  req "maxdownloadspeed"%string = ""%string -> req "maxuploadspeed"%string = ""%string ->
  req "streamcachesize"%string = ""%string -> req "checkforipviolation"%string = ""%string ->
  scanOtherFields req s =
  inr (setLimits (MaxDownloadSpeed s) (MaxUploadSpeed s) (StreamCacheSize s)
         (IPViolationsCheck s)
         (setExpected
            (if ExpectedStorage (allowance s) =? 0 then ExpectedStorage DefaultAllowance
             else ExpectedStorage (allowance s))
            (if ExpectedUpload (allowance s) =? 0 then ExpectedUpload DefaultAllowance
             else ExpectedUpload (allowance s))
            (if ExpectedDownload (allowance s) =? 0 then ExpectedDownload DefaultAllowance
             else ExpectedDownload (allowance s))
            (if PrimFloat.eqb (ExpectedRedundancy (allowance s)) 0
             then ExpectedRedundancy DefaultAllowance
             else ExpectedRedundancy (allowance s)) s)).
Proof.
  intros E1 E2 E3 E4 E5 E6 E7 E8. unfold handlers.scanOtherFields. cbv zeta.
  rewrite E1, E2, E3, E4, E5, E6, E7, E8. cbn [String.eqb negb].
  destruct (ExpectedStorage (allowance s) =? 0), (ExpectedUpload (allowance s) =? 0),
    (ExpectedDownload (allowance s) =? 0),
    (PrimFloat.eqb (ExpectedRedundancy (allowance s)) 0); reflexivity.
Qed.

Lemma weight_of_zero_period (Pow : float -> float -> float)
      (MulFloat : types.Currency -> float -> types.Currency) (DEBUG : bool)
      (hdb : hostdb.HostDB) (a : modules.Allowance) (entry : modules.HostDBEntry) :
  modules.Period a = 0 ->
  hostdb.calculateHostWeightFn Pow MulFloat DEBUG Release hdb a entry = None.
Proof.
  intros Hp. unfold hostdb.calculateHostWeightFn.
  destruct (hostdb.collateralAdjustments Pow entry _ hostdb.expectedStorage) as [c | ];
    [ | reflexivity].
  cbn [bind]. now rewrite priceAdjustments_zero_period.
Qed.

(** X18: A request that posts only a period that scans to 0 is accepted:
    SetSettings receives an allowance whose period is 0 (and whose renew
    window is 0 if none was set before), and for that allowance the
    weight function of the host database panics on every host. *)
Theorem posted_period_of_zero_is_accepted
        (SetSettings : RenterSettings -> option string)
        (req : Form) (settings : RenterSettings) :
  (forall k, k <> "period"%string -> req k = ""%string) ->
  req "period"%string <> ""%string ->
  scanUint64 (req "period"%string) = inr 0 ->
  exists s',
    fst (renterHandlerPOST SetSettings req settings) = Some s'
    /\ modules.Period (base (allowance s')) = 0
    /\ (modules.RenewWindow (base (allowance settings)) = 0 ->
        modules.RenewWindow (base (allowance s')) = 0)
    /\ forall Pow MulFloat DEBUG hdb entry,
        hostdb.calculateHostWeightFn Pow MulFloat DEBUG Release hdb
          (base (allowance s')) entry = None.
Proof.
  intros Hk Hp Hs.
  assert (S4 : exists s4, scanAllowanceFields req settings = inr s4
                          /\ modules.Period (base (allowance s4)) = 0
                          /\ (modules.RenewWindow (base (allowance settings)) = 0 ->
                              modules.RenewWindow (base (allowance s4)) = 0)).
  { unfold handlers.scanAllowanceFields. cbv zeta.
    rewrite (Hk "funds"%string), (Hk "hosts"%string), (Hk "renewwindow"%string)
      by discriminate.
    rewrite (nonempty_eqb _ Hp). unfold scanned. rewrite Hs.
    cbn [String.eqb negb andThen].
    destruct (modules.Hosts (base (allowance settings)) =? 0);
      cbn [andThen setBase setHosts setPeriod allowance base modules.RenewWindow];
      destruct (modules.RenewWindow (base (allowance settings)) =? 0) eqn:Z;
      cbn [andThen]; eexists; (split; [reflexivity | ]); cbn;
      (split; [reflexivity | ]); intros R; try reflexivity;
      rewrite R in Z; discriminate. }
  destruct S4 as [s4 [H4 [P4 R4]]].
  pose proof (scanOtherFields_empty req s4) as H.
  rewrite !Hk in H by discriminate.
  specialize (H eq_refl eq_refl eq_refl eq_refl eq_refl eq_refl eq_refl eq_refl).
  eexists. split.
  - apply handler_calls_SetSettings. unfold handlers.scanSettings.
    rewrite H4. cbn [andThen]. exact H.
  - cbn [setLimits setExpected allowance base].
    split; [exact P4 | ]. split; [exact R4 | ].
    intros. now apply weight_of_zero_period.
Qed.

(** X19: An empty request on settings whose hosts, period, renew window,
    expected storage, expected upload, expected download and expected
    redundancy are all set hands exactly these settings to SetSettings:
    no default overwrites a value that is set. *)
Theorem empty_post_keeps_complete_settings
        (SetSettings : RenterSettings -> option string)
        (req : Form) (settings : RenterSettings) :
  (forall k, req k = ""%string) ->
  modules.Hosts (base (allowance settings)) <> 0 ->
  modules.Period (base (allowance settings)) <> 0 ->
  modules.RenewWindow (base (allowance settings)) <> 0 ->
  ExpectedStorage (allowance settings) <> 0 ->
  ExpectedUpload (allowance settings) <> 0 ->
  ExpectedDownload (allowance settings) <> 0 ->
  PrimFloat.eqb (ExpectedRedundancy (allowance settings)) 0 = false ->
  fst (renterHandlerPOST SetSettings req settings) = Some settings.
Proof.
  intros Hk Hh Hp Hr Hes Heu Hed Her.
  apply handler_calls_SetSettings. unfold handlers.scanSettings.
  assert (H4 : scanAllowanceFields req settings = inr settings).
  { unfold handlers.scanAllowanceFields. cbv zeta. rewrite !Hk.
    cbn [String.eqb negb andThen].
    apply N.eqb_neq in Hh, Hp, Hr. rewrite Hh. cbn [andThen]. rewrite Hp.
    cbn [andThen]. rewrite Hr. reflexivity. }
  rewrite H4. cbn [andThen].
  rewrite scanOtherFields_empty by apply Hk.
  apply N.eqb_neq in Hes, Heu, Hed. rewrite Hes, Heu, Hed, Her.
  destruct settings as [[b es eu ed er] d u c i]. reflexivity.
Qed.

End SettingsChecks.

(** * The price estimation handler *)

Section PricesChecks.

Import handlers.
Local Open Scope N_scope.
Local Open Scope go_scope.

Variable scanUint64 : string -> string + N.
Variable scanAmount : string -> option types.Currency.
Variable showUint : N -> string.
Variable DefaultAllowance : Allowance.
Variable Release : build.ReleaseType.
Variable Estimate : Type.
Variable PriceEstimation : modules.Allowance -> string + (Estimate * modules.Allowance).
Variable isZeroValue : modules.Allowance -> bool.

Abbreviation scanAllowance :=
  (scanAllowance scanUint64 scanAmount showUint DefaultAllowance Release Estimate).
Abbreviation renterPricesHandler :=
  (renterPricesHandler scanUint64 scanAmount showUint DefaultAllowance Release Estimate
                       PriceEstimation isZeroValue).

(** Whether the handler writes the error of a number of hosts below the
    minimum: the funds are absent or parse, and the hosts parameter
    scans to a number that is neither zero nor the minimum or more. *)
Let hostsRejected (req : Form) : bool :=
  match (if String.eqb (req "funds"%string) "" then Some 0 else scanAmount (req "funds"%string))
  with
  | None => false
  | Some _ =>
      negb (String.eqb (req "hosts"%string) "")
      && match scanUint64 (req "hosts"%string) with
         | inl _ => false
         | inr hosts => negb (hosts =? 0) && (hosts <? requiredHosts Release)
         end
  end.

Lemma scanAllowance_shape (req : Form) :
  match scanAllowance req with
  | inl written => List.length written = if hostsRejected req then 2%nat else 1%nat
  | inr (written, a) =>
      List.length written = (if hostsRejected req then 1%nat else 0%nat)
      /\ (modules.Hosts a = 0 \/ requiredHosts Release <= modules.Hosts a)
      /\ (modules.RenewWindow a = 0 \/ requiredRenewWindow Release <= modules.RenewWindow a)
  end.
Proof.
  unfold handlers.scanAllowance, hostsRejected. cbv zeta.
  destruct (String.eqb (req "funds"%string) ""); cbn [negb andThen];
    [ | destruct (scanAmount (req "funds"%string)) as [funds | ]; cbn [andThen];
        [ | reflexivity]].
  all: destruct (String.eqb (req "hosts"%string) ""); cbn [negb andThen andb].
  all: try (destruct (scanUint64 (req "hosts"%string)) as [e | h]; cbn [andThen];
            [reflexivity | ];
            destruct (negb (h =? 0) && (h <? requiredHosts Release)) eqn:C;
            cbn [andThen]).
  all: destruct (String.eqb (req "period"%string) ""); cbn [negb andThen].
  all: try (destruct (scanUint64 (req "period"%string)) as [e' | p]; cbn [andThen];
            [rewrite ?length_app; reflexivity | ]).
  all: destruct (String.eqb (req "renewwindow"%string) ""); cbn [negb andThen].
  all: try (destruct (scanUint64 (req "renewwindow"%string)) as [e'' | w];
            cbn [andThen]; [rewrite ?length_app; reflexivity | ];
            destruct (negb (w =? 0) && (w <? requiredRenewWindow Release)) eqn:D;
            cbn [andThen]; [rewrite ?length_app; reflexivity | ]).
  all: cbn [List.length setRenewWindow setPeriod setHosts setFunds zeroAllowance
            modules.Hosts modules.RenewWindow].
  all: split; [reflexivity | ].
  all: split.
  all: try (left; reflexivity).
  all: match goal with
       | H : negb (?x =? 0) && (?x <? _) = false |- ?x = 0 \/ _ =>
           apply andb_false_iff in H as [H | H];
           [left; apply negb_false_iff, N.eqb_eq in H; exact H
           | right; apply N.ltb_ge in H; exact H]
       end.
Qed.

(** X20: renterPricesHandler writes exactly one reply, except after a
    number of hosts that is neither 0 nor at least requiredHosts: it
    then writes the bad-request error first and goes on without
    returning, so that a second reply is written; an allowance that
    still reaches PriceEstimation then has 0 hosts. *)
Theorem prices_handler_goes_on_after_hosts_error (req : Form) :
  let written := snd (renterPricesHandler req) in
  let hostsRejected :=
    match (if String.eqb (req "funds"%string) "" then Some 0
           else scanAmount (req "funds"%string)) with
    | None => false
    | Some _ =>
        negb (String.eqb (req "hosts"%string) "")
        && match scanUint64 (req "hosts"%string) with
           | inl _ => false
           | inr hosts => negb (hosts =? 0) && (hosts <? requiredHosts Release)
           end
    end in
  List.length written = (if hostsRejected then 2%nat else 1%nat)
  /\ (hostsRejected = true ->
      exists msg, hd_error written = Some (WriteError msg StatusBadRequest))
  /\ (hostsRejected = true -> forall a,
        fst (renterPricesHandler req) = Some a -> modules.Hosts a = 0).
Proof.
  cbv zeta. fold (hostsRejected req).
  pose proof (scanAllowance_shape req) as S.
  unfold handlers.renterPricesHandler.
  assert (HD : hostsRejected req = true ->
               match scanAllowance req with
               | inl written =>
                   exists msg, hd_error written = Some (WriteError msg StatusBadRequest)
               | inr (written, a) =>
                   (exists msg, hd_error written = Some (WriteError msg StatusBadRequest))
                   /\ modules.Hosts a = 0
               end).
  { unfold handlers.scanAllowance, hostsRejected. cbv zeta.
    destruct (String.eqb (req "funds"%string) ""); cbn [negb andThen];
      [ | destruct (scanAmount (req "funds"%string)) as [funds | ]; cbn [andThen];
          [ | discriminate]].
    all: destruct (String.eqb (req "hosts"%string) ""); cbn [negb andThen andb];
      [discriminate | ].
    all: destruct (scanUint64 (req "hosts"%string)) as [e | h]; cbn [andThen];
      [discriminate | ].
    all: intros C; rewrite C; cbn [andThen].
    all: destruct (String.eqb (req "period"%string) ""); cbn [negb andThen].
    all: try (destruct (scanUint64 (req "period"%string)) as [e' | p]; cbn [andThen];
              [eexists; reflexivity | ]).
    all: destruct (String.eqb (req "renewwindow"%string) ""); cbn [negb andThen].
    all: try (destruct (scanUint64 (req "renewwindow"%string)) as [e'' | w];
              cbn [andThen]; [eexists; reflexivity | ];
              destruct (negb (w =? 0) && (w <? requiredRenewWindow Release));
              cbn [andThen]; [eexists; reflexivity | ]).
    all: split; [eexists; reflexivity | reflexivity]. }
  destruct scanAllowance as [written | [written a]].
  - cbn [snd fst]. split; [exact S | ]. split; [exact HD | ]. intros _ a0 H. discriminate.
  - destruct S as [S _].
    assert (W : forall r : Reply (Estimate * modules.Allowance),
               List.length (written ++ [r])
               = (if hostsRejected req then 2%nat else 1%nat)
               /\ (hostsRejected req = true ->
                   exists msg, hd_error (written ++ [r])
                               = Some (WriteError msg StatusBadRequest))).
    { intros r. rewrite length_app, S. cbn [List.length].
      split; [destruct (hostsRejected req); reflexivity | ].
      intros C. destruct (HD C) as [[msg Hm] _]. exists msg.
      destruct written; [discriminate | exact Hm]. }
    destruct (checkPartial isZeroValue a) as [msg | ].
    + cbn [snd fst]. destruct (W (WriteError msg StatusBadRequest)) as [W1 W2].
      split; [exact W1 | ]. split; [exact W2 | ]. intros _ a0 H. discriminate.
    + destruct (PriceEstimation a) as [err | [estimate a']]; cbn [snd fst].
      * destruct (W (WriteError err StatusBadRequest)) as [W1 W2].
        split; [exact W1 | ]. split; [exact W2 | ].
        intros C a0 H. injection H as <-. now destruct (HD C).
      * destruct (W (WriteJSON (estimate, a'))) as [W1 W2].
        split; [exact W1 | ]. split; [exact W2 | ].
        intros C a0 H. injection H as <-. now destruct (HD C).
Qed.

(** X21: The allowance that renterPricesHandler hands to PriceEstimation
    is either the zero allowance or has funds, period, hosts and renew
    window all non-zero, with at least requiredHosts hosts and a renew
    window of at least requiredRenewWindow. reflect.DeepEqual with the
    zero allowance is taken as a test that holds only for the zero
    allowance. *)
Theorem estimated_allowance_is_empty_or_complete (req : Form) (a : modules.Allowance) :
  (forall x, isZeroValue x = true -> x = zeroAllowance) ->
  fst (renterPricesHandler req) = Some a ->
  a = zeroAllowance
  \/ (modules.Funds a <> 0 /\ modules.Period a <> 0
      /\ requiredHosts Release <= modules.Hosts a
      /\ requiredRenewWindow Release <= modules.RenewWindow a
      /\ modules.Hosts a <> 0 /\ modules.RenewWindow a <> 0).
Proof.
  intros HZ. pose proof (scanAllowance_shape req) as S.
  unfold handlers.renterPricesHandler.
  destruct scanAllowance as [written | [written a0]]; [discriminate | ].
  destruct S as [_ [SH SR]].
  unfold checkPartial.
  destruct (isZeroValue a0) eqn:Z; cbn [negb].
  - intros H. left. apply HZ.
    destruct (PriceEstimation a0) as [err | [e a']]; injection H as <-; exact Z.
  - unfold types.Cmp.
    destruct (N.compare_spec (modules.Funds a0) 0) as [E | E | E]; cbn;
      try discriminate; try lia.
    destruct (N.eqb_spec (modules.Period a0) 0); [discriminate | ].
    destruct (N.eqb_spec (modules.Hosts a0) 0); [discriminate | ].
    destruct (N.eqb_spec (modules.RenewWindow a0) 0); [discriminate | ].
    intros H. right.
    assert (a = a0) as ->
        by (destruct (PriceEstimation a0) as [err | [e a']]; injection H as <-; reflexivity).
    repeat split; try assumption; lia.
Qed.

End PricesChecks.

(** * The download handlers *)

Section DownloadChecks.

Import handlers.
Local Open Scope go_scope.

Variable scanUint64 : string -> string + N.
Variable QueryUnescape : string -> string + string.
Variable scanBool : string -> string + bool.
Variable AddContext : string -> string -> string.
Variable Download : RenterDownloadParameters -> option string.
Variable DownloadAsync : RenterDownloadParameters -> option string.

Abbreviation parseDownloadParameters :=
  (parseDownloadParameters scanUint64 QueryUnescape scanBool AddContext).
Abbreviation renterDownloadHandler :=
  (renterDownloadHandler scanUint64 QueryUnescape scanBool AddContext Download DownloadAsync).
Abbreviation renterDownloadAsyncHandler :=
  (renterDownloadAsyncHandler scanUint64 QueryUnescape scanBool AddContext Download
                              DownloadAsync).

Lemma parsed_parameters (req : Form) (path : string) (p : RenterDownloadParameters) :
  parseDownloadParameters req path = inr p ->
  scanBool (req "async"%string) = inr (Async p)
  /\ scanBool (req "httpresp"%string) = inr (Httpwriter p)
  /\ QueryUnescape (req "destination"%string) = inr (Destination p)
  /\ DownloadPath p = trimSlash path
  /\ (req "offset"%string = ""%string -> Offset p = 0%N)
  /\ (req "length"%string = ""%string -> Length p = 0%N).
Proof.
  unfold handlers.parseDownloadParameters.
  destruct (QueryUnescape (req "destination"%string)) as [e | destination]; [discriminate | ].
  cbv zeta. intros H.
  apply andThen_inr in H as [offset [Ho H]].
  apply andThen_inr in H as [length [Hl H]].
  apply andThen_inr in H as [httpresp [Hh H]].
  apply andThen_inr in H as [async [Ha H]].
  injection H as <-. cbn.
  destruct (scanBool (req "async"%string)) as [e | b]; [discriminate | ].
  injection Ha as ->.
  destruct (scanBool (req "httpresp"%string)) as [e | b]; [discriminate | ].
  injection Hh as ->.
  repeat split.
  - intros E. rewrite E in Ho. cbn in Ho. now injection Ho as <-.
  - intros E. rewrite E in Hl. cbn in Hl. now injection Hl as <-.
Qed.

(** X22: renterDownloadAsyncHandler never calls the blocking Download of
    the renter, whatever async parameter the request carries: it either
    writes a bad-request error without any call, or makes exactly one
    call, of DownloadAsync, with Async set and the path without its
    leading slash. scanBool is taken to read the string true as true. *)
Theorem async_handler_never_downloads_synchronously (req : Form) (path : string) :
  scanBool "true" = inr true ->
  let calls := fst (renterDownloadAsyncHandler req path) in
  let reply := snd (renterDownloadAsyncHandler req path) in
  (calls = [] /\ exists msg, reply = Some (WriteError msg StatusBadRequest))
  \/ (exists p,
        calls = [CallDownloadAsync p]
        /\ Async p = true
        /\ DownloadPath p = trimSlash path
        /\ scanBool (req "httpresp"%string) = inr (Httpwriter p)
        /\ reply = match DownloadAsync p with
                   | Some e => Some (WriteError ("download failed: " ++ e)%string
                                                StatusInternalServerError)
                   | None => if Httpwriter p then None else Some WriteSuccess
                   end).
Proof.
  intros Ht. cbv zeta.
  unfold handlers.renterDownloadAsyncHandler, handlers.renterDownloadHandler.
  destruct (parseDownloadParameters (FormSet req "async" "true") path) as [e | p] eqn:P.
  - left. cbn. split; [reflexivity | now exists e].
  - right. exists p. apply parsed_parameters in P as [Pa [Ph [_ [Pp _]]]].
    unfold FormSet in Pa, Ph. cbn in Pa, Ph.
    rewrite Ht in Pa. injection Pa as Pa. rewrite <- Pa.
    destruct (DownloadAsync p); [ | destruct (Httpwriter p)]; cbn;
      repeat split; auto.
Qed.

(** The download handler makes at most one call, the one its async
    parameter selects, and writes nothing itself after a successful
    download into the response. *)
Lemma download_handler_follows_the_async_flag (req : Form) (path : string) :
  let calls := fst (renterDownloadHandler req path) in
  let reply := snd (renterDownloadHandler req path) in
  (List.length calls <= 1)%nat
  /\ (forall p, In (CallDownload p) calls ->
        scanBool (req "async"%string) = inr false /\ Async p = false)
  /\ (forall p, In (CallDownloadAsync p) calls ->
        scanBool (req "async"%string) = inr true /\ Async p = true)
  /\ (reply = None <->
      exists p, parseDownloadParameters req path = inr p
                /\ Httpwriter p = true
                /\ (if Async p then DownloadAsync p else Download p) = None)
  /\ (calls = [] <-> exists e, parseDownloadParameters req path = inl e).
Proof.
  cbv zeta. unfold handlers.renterDownloadHandler.
  destruct (parseDownloadParameters req path) as [e | p] eqn:P.
  - cbn. split; [lia | ]. split; [intros p [] | ]. split; [intros p [] | ].
    split; [ | split; [intros _; now exists e | reflexivity]].
    split; [discriminate | intros [p [H _]]; discriminate].
  - pose proof (parsed_parameters req path p P) as [Pa _].
    destruct (Async p) eqn:A;
      [destruct (DownloadAsync p) eqn:D | destruct (Download p) eqn:D];
      try destruct (Httpwriter p) eqn:W; cbn [fst snd List.length In].
    all: split; [lia | ].
    all: split; [intros q [H | []]; try discriminate; injection H as <-;
                 rewrite Pa, A; split; reflexivity | ].
    all: split; [intros q [H | []]; try discriminate; injection H as <-;
                 rewrite Pa, A; split; reflexivity | ].
    all: split; [ | split; [discriminate | intros [e H]; discriminate]].
    all: split; try discriminate.
    all: try (intros [q [Hq [Hw Hd]]]; injection Hq as <-; rewrite ?A in Hd; congruence).
    all: intros _; exists p; rewrite A; repeat split; assumption.
Qed.

End DownloadChecks.

(** * The handlers of the mining pool *)

Section PoolChecks.

Import pool.

Variable scanAddress : string -> option N.
Variable scanInt : string -> string + Z.
Variable SetInternalSettings : PoolInternalSettings -> option string.

Abbreviation parsePoolSettings := (parsePoolSettings scanAddress scanInt SetInternalSettings).
Abbreviation poolConfigHandlerPOST :=
  (poolConfigHandlerPOST scanAddress scanInt SetInternalSettings).
Abbreviation poolConfigHandler := (poolConfigHandler scanAddress scanInt SetInternalSettings).

(** X23: A pool wallet, network port or pool id that is posted but does
    not scan makes parsePoolSettings return the zero settings with a nil
    error and without a call of SetInternalSettings;
    poolConfigHandlerPOST then hands the zero settings to
    SetInternalSettings, and poolConfigHandler reports a configuration
    of zero values. *)
Theorem unreadable_pool_parameter_resets_the_settings
        (req : handlers.Form) (current : PoolInternalSettings) :
  (req "poolwallet"%string <> ""%string /\ scanAddress (req "poolwallet"%string) = None)
  \/ (req "networkport"%string <> ""%string
      /\ exists e, scanInt (req "networkport"%string) = inl e)
  \/ (req "poolid"%string <> ""%string /\ exists e, scanInt (req "poolid"%string) = inl e) ->
  parsePoolSettings req current = (zeroSettings, None, [])
  /\ poolConfigHandlerPOST req current =
     ([zeroSettings],
      match SetInternalSettings zeroSettings with
      | Some e => handlers.WriteError e handlers.StatusBadRequest
      | None => handlers.WriteSuccess
      end)
  /\ poolConfigHandler req current =
     ([], handlers.WriteJSON {| Name := ""; NetworkPort := 0; DBConnection := "";
                                ConfigPoolID := 0; ConfigPoolWallet := 0;
                                OperatorWallet := 0 |}).
Proof.
  intros H.
  assert (P : parsePoolSettings req current = (zeroSettings, None, [])).
  { unfold pool.parsePoolSettings. cbv zeta.
    destruct H as [[Hn Hs] | [[Hn [e Hs]] | [Hn [e Hs]]]].
    - destruct (String.eqb_spec (req "poolwallet"%string) ""); [contradiction | ].
      cbn [negb]. now rewrite Hs.
    - destruct (String.eqb_spec (req "networkport"%string) ""); [contradiction | ].
      cbn [negb]. rewrite Hs.
      destruct (negb (String.eqb (req "poolwallet"%string) ""));
        [destruct (scanAddress (req "poolwallet"%string)) | ]; reflexivity.
    - destruct (String.eqb_spec (req "poolid"%string) ""); [contradiction | ].
      cbn [negb]. rewrite Hs.
      destruct (negb (String.eqb (req "poolwallet"%string) ""));
        [destruct (scanAddress (req "poolwallet"%string)) | ];
        try reflexivity;
        (destruct (negb (String.eqb (req "networkport"%string) ""));
         [destruct (scanInt (req "networkport"%string)) | ]); reflexivity. }
  split; [exact P | ].
  unfold pool.poolConfigHandlerPOST, pool.poolConfigHandler. rewrite P.
  split; [ | reflexivity].
  destruct (SetInternalSettings zeroSettings); reflexivity.
Qed.

(** X24: parsePoolSettings either returns the zero settings with no
    error and no call, or calls SetInternalSettings once with the
    settings it returns and returns the error of that call; when the
    call succeeds poolConfigHandlerPOST calls SetInternalSettings a
    second time with the same settings, and poolConfigHandler, which
    only reports, has set them once; on an empty request these are the
    current settings. *)
Theorem pool_settings_are_set_while_parsing
        (req : handlers.Form) (current : PoolInternalSettings) :
  let '(settings, err, calls) := parsePoolSettings req current in
  ((settings, err, calls) = (zeroSettings, None, [])
   \/ (calls = [settings] /\ err = SetInternalSettings settings))
  /\ (calls = [settings] -> err = None ->
      fst (poolConfigHandlerPOST req current) = [settings; settings]
      /\ fst (poolConfigHandler req current) = [settings])
  /\ ((forall k, req k = ""%string) -> settings = current /\ calls = [current]).
Proof.
  pose proof (eq_refl (parsePoolSettings req current)) as P.
  unfold pool.poolConfigHandlerPOST, pool.poolConfigHandler.
  destruct (parsePoolSettings req current) as [[settings err] calls] eqn:Q.
  clear P. split; [ | split].
  - revert Q. unfold pool.parsePoolSettings. cbv zeta.
    destruct (negb (String.eqb (req "poolwallet"%string) ""));
      [destruct (scanAddress (req "poolwallet"%string)) | ];
      try (intros Q; left; now rewrite <- Q).
    all: destruct (negb (String.eqb (req "networkport"%string) ""));
      [destruct (scanInt (req "networkport"%string)) | ];
      try (intros Q; left; now rewrite <- Q).
    all: destruct (negb (String.eqb (req "poolid"%string) ""));
      [destruct (scanInt (req "poolid"%string)) | ];
      try (intros Q; left; now rewrite <- Q).
    all: intros Q; right; injection Q as <- <- <-; split; reflexivity.
  - intros -> ->. destruct (SetInternalSettings settings); split; reflexivity.
  - intros E. revert Q. unfold pool.parsePoolSettings. cbv zeta.
    rewrite !E. cbn [String.eqb negb]. intros Q. injection Q as <- _ <-.
    split; reflexivity.
Qed.

End PoolChecks.

(** * The conversion rate *)

Section ConversionChecks.

Import conversion.

Variable weightFunc : modules.HostDBEntry -> option types.Currency.
Variable ratFloat64 : N -> N -> float.

Lemma totalOf_from (hosts : list modules.HostDBEntry) (acc : option types.Currency) :
  fold_left (fun acc h => t <- acc ;; w <- weightFunc h ;; Some (types.Add t w)) hosts acc
  = match acc with
    | None => None
    | Some t =>
        if forallb (fun h => match weightFunc h with Some _ => true | None => false end)
                   hosts
        then Some (fold_left (fun t h => match weightFunc h with
                                         | Some w => types.Add t w
                                         | None => t
                                         end) hosts t)
        else None
    end.
Proof.
  revert acc. induction hosts as [ | h hosts IH]; intros acc; cbn [fold_left forallb].
  - destruct acc; reflexivity.
  - rewrite IH. destruct acc as [t | ]; cbn [bind]; [ | reflexivity].
    destruct (weightFunc h) as [w | ]; cbn [bind andb]; reflexivity.
Qed.

Lemma forallb_false_witness {A : Type} (p : A -> bool) (l : list A) :
  forallb p l = false -> exists x, In x l /\ p x = false.
Proof.
  induction l as [ | a l IH]; cbn [forallb]; [discriminate | ].
  destruct (p a) eqn:E; cbn [andb].
  - intros H. destruct (IH H) as [x [Hin Hx]]. exists x. split; [now right | exact Hx].
  - intros _. exists a. split; [now left | exact E].
Qed.

(** X25: calculateConversionRate never divides by zero: it panics only
    if the weight function panics on an active host, since a total score
    of zero is replaced by 1 before the fraction is set; a rate it
    returns is never above 100 in the comparison of the code; without
    active hosts the rate is the float of score * 50 / 1, capped at 100. *)
Theorem conversion_rate_never_divides_by_zero
        (activeHosts : list modules.HostDBEntry) (score : types.Currency) :
  (calculateConversionRate weightFunc ratFloat64 activeHosts score = None
   <-> exists h, In h activeHosts /\ weightFunc h = None)
  /\ (forall r, calculateConversionRate weightFunc ratFloat64 activeHosts score = Some r ->
        (100 <? r)%float = false)
  /\ (activeHosts = [] ->
      calculateConversionRate weightFunc ratFloat64 activeHosts score
      = Some (let r := ratFloat64 (50 * score)%N 1%N in
              if (100 <? r)%float then 100%float else r)).
Proof.
  unfold calculateConversionRate, totalOf. rewrite totalOf_from.
  split; [ | split].
  - destruct (forallb _ activeHosts) eqn:F.
    + cbn [bind]. split.
      * unfold types.IsZero, types.NewCurrency64.
        match goal with
        | |- context [fold_left ?f activeHosts 0%N] => generalize (fold_left f activeHosts 0%N)
        end.
        intros t.
        destruct (N.eqb_spec t 0) as [E | E].
        -- cbn. discriminate.
        -- destruct (N.eqb_spec t 0); [contradiction | discriminate].
      * intros [h [Hin Hn]]. rewrite forallb_forall in F. specialize (F h Hin).
        rewrite Hn in F. discriminate.
    + cbn [bind]. split; [intros _ | reflexivity].
      apply forallb_false_witness in F as [h [Hin Hh]].
      exists h. split; [exact Hin | ]. destruct (weightFunc h); [discriminate | reflexivity].
  - intros r. destruct (forallb _ activeHosts); cbn [bind]; [ | discriminate].
    match goal with
    | |- context [fold_left ?f activeHosts 0%N] => generalize (fold_left f activeHosts 0%N)
    end.
    intros t. unfold types.IsZero, types.NewCurrency64.
    destruct (N.eqb_spec t 0) as [E | E];
      [cbn [N.eqb Pos.eqb] | destruct (N.eqb_spec t 0); [contradiction | ]].
    all: intros H; injection H as <-.
    all: match goal with
         | |- context [(100 <? ratFloat64 ?a ?b)%float] =>
             destruct (100 <? ratFloat64 a b)%float eqn:C
         end; [reflexivity | exact C].
  - intros ->. cbn. rewrite N.mul_comm. reflexivity.
Qed.

End ConversionChecks.

(** * Posting the same settings again *)

Section SettingsTwice.

Import handlers.
Local Open Scope N_scope.
Local Open Scope go_scope.

Variable scanUint64 : string -> string + N.
Variable scanInt64 : string -> string + Z.
Variable scanFloat64 : string -> string + float.
Variable scanBoolean : string -> string + bool.
Variable scanAmount : string -> option types.Currency.
Variable showUint : N -> string.
Variable DefaultAllowance : Allowance.
Variable Release : build.ReleaseType.

Abbreviation scanAllowanceFields :=
  (scanAllowanceFields scanUint64 scanAmount showUint DefaultAllowance Release).
Abbreviation scanOtherFields :=
  (scanOtherFields scanUint64 scanInt64 scanFloat64 scanBoolean DefaultAllowance).
Abbreviation scanSettings :=
  (scanSettings scanUint64 scanInt64 scanFloat64 scanBoolean scanAmount showUint
                DefaultAllowance Release).
Abbreviation renterHandlerPOST :=
  (renterHandlerPOST scanUint64 scanInt64 scanFloat64 scanBoolean scanAmount showUint
                     DefaultAllowance Release).

Lemma uint_step_again (v prefix : string) (old dflt x : N) :
  (if negb (String.eqb v "") then scanned scanUint64 prefix v
   else if old =? 0 then inr dflt else inr old) = inr x ->
  (if negb (String.eqb v "") then scanned scanUint64 prefix v
   else if x =? 0 then inr dflt else inr x) = inr x.
Proof.
  destruct (negb (String.eqb v "")); [trivial | ].
  destruct (N.eqb_spec old 0); intros H; injection H as <-.
  - destruct (dflt =? 0) eqn:E; [reflexivity | reflexivity].
  - destruct (N.eqb_spec old 0); [contradiction | reflexivity].
Qed.

Lemma float_step_again (v prefix : string) (old dflt x : float) :
  (if negb (String.eqb v "") then scanned scanFloat64 prefix v
   else if PrimFloat.eqb old 0 then inr dflt else inr old) = inr x ->
  (if negb (String.eqb v "") then scanned scanFloat64 prefix v
   else if PrimFloat.eqb x 0 then inr dflt else inr x) = inr x.
Proof.
  destruct (negb (String.eqb v "")); [trivial | ].
  destruct (PrimFloat.eqb old 0) eqn:E; intros H; injection H as <-.
  - destruct (PrimFloat.eqb dflt 0); reflexivity.
  - now rewrite E.
Qed.

Lemma plain_step_again {A : Type} (scan : string -> string + A) (v prefix : string)
      (old x : A) :
  (if negb (String.eqb v "") then scanned scan prefix v else inr old) = inr x ->
  (if negb (String.eqb v "") then scanned scan prefix v else inr x) = inr x.
Proof. destruct (negb (String.eqb v "")); [trivial | reflexivity]. Qed.

Lemma scanOtherFields_again (req : Form) (s s' : RenterSettings) :
  scanOtherFields req s = inr s' -> scanOtherFields req s' = inr s'.
Proof.
  unfold handlers.scanOtherFields. cbv zeta. intros H.
  apply andThen_inr in H as [es [Hes H]].
  apply andThen_inr in H as [eu [Heu H]].
  apply andThen_inr in H as [ed [Hed H]].
  apply andThen_inr in H as [er [Her H]].
  apply andThen_inr in H as [down [Hdown H]].
  apply andThen_inr in H as [up [Hup H]].
  apply andThen_inr in H as [cache [Hcache H]].
  apply andThen_inr in H as [ip [Hip H]].
  injection H as <-.
  cbn [setLimits setExpected allowance ExpectedStorage ExpectedUpload ExpectedDownload
       ExpectedRedundancy MaxDownloadSpeed MaxUploadSpeed StreamCacheSize
       IPViolationsCheck base] in *.
  rewrite (uint_step_again _ _ _ _ _ Hes). cbn [andThen].
  rewrite (uint_step_again _ _ _ _ _ Heu). cbn [andThen].
  rewrite (uint_step_again _ _ _ _ _ Hed). cbn [andThen].
  rewrite (float_step_again _ _ _ _ _ Her). cbn [andThen].
  rewrite (plain_step_again _ _ _ _ _ Hdown). cbn [andThen].
  rewrite (plain_step_again _ _ _ _ _ Hup). cbn [andThen].
  rewrite (plain_step_again _ _ _ _ _ Hcache). cbn [andThen].
  rewrite (plain_step_again _ _ _ _ _ Hip). cbn [andThen].
  reflexivity.
Qed.

Ltac fields :=
  cbn [andThen allowance base setBase setFunds setHosts setPeriod setRenewWindow
       modules.Funds modules.Hosts modules.Period modules.RenewWindow
       ExpectedStorage ExpectedUpload ExpectedDownload ExpectedRedundancy
       MaxDownloadSpeed MaxUploadSpeed StreamCacheSize IPViolationsCheck].

Lemma scanAllowanceFields_again (req : Form) (s s4 t : RenterSettings) :
  scanAllowanceFields req s = inr s4 ->
  base (allowance t) = base (allowance s4) ->
  scanAllowanceFields req t = inr t.
Proof.
  destruct t as [[[tf th tp tr] tes teu ted ter] td tu tc ti].
  destruct s as [[[sf sh sp sr] ses seu sed ser] sd su sc si].
  unfold handlers.scanAllowanceFields, scanned. cbv zeta.
  fields.
  destruct (negb (String.eqb (req "funds"%string) ""));
    [destruct (scanAmount (req "funds"%string)) as [f | ]; [ | discriminate] | ];
    fields.
  all: destruct (negb (String.eqb (req "hosts"%string) ""));
    [destruct (scanUint64 (req "hosts"%string)) as [e | h]; [discriminate | ];
     cbn [andThen];
     destruct (negb (h =? 0) && (h <? requiredHosts Release)); [discriminate | ]
    | destruct (N.eqb_spec sh 0) ];
    fields.
  all: destruct (negb (String.eqb (req "period"%string) ""));
    [destruct (scanUint64 (req "period"%string)) as [e' | p]; [discriminate | ]
    | destruct (N.eqb_spec sp 0); [discriminate | ] ];
    fields.
  all: destruct (negb (String.eqb (req "renewwindow"%string) ""));
    [destruct (scanUint64 (req "renewwindow"%string)) as [e'' | w]; [discriminate | ];
     cbn [andThen];
     destruct (negb (w =? 0) && (w <? requiredRenewWindow Release)); [discriminate | ]
    | destruct (N.eqb_spec sr 0) ];
    fields.
  all: intros H; injection H as <-; cbn [allowance base]; intros B; injection B as -> -> -> ->.
  all: repeat (fields;
               match goal with
               | |- context [N.eqb ?a 0] => destruct (N.eqb_spec a 0)
               end);
    fields; try contradiction; try reflexivity; try congruence.
Qed.

(** X26: Posting the same request again changes nothing: if
    renterHandlerPOST hands the settings s' to SetSettings, then the
    same request on s' hands s' to SetSettings again. *)
Theorem posting_settings_twice_is_posting_once
        (SetSettings : RenterSettings -> option string)
        (req : Form) (settings s' : RenterSettings) :
  fst (renterHandlerPOST SetSettings req settings) = Some s' ->
  fst (renterHandlerPOST SetSettings req s') = Some s'.
Proof.
  intros H. apply handler_calls_SetSettings in H. apply handler_calls_SetSettings.
  unfold handlers.scanSettings in *.
  apply andThen_inr in H as [s4 [H4 H]].
  rewrite (scanAllowanceFields_again req settings s4 s' H4 (scanOtherFields_base _ _ _ _ _ _ _ _ H)).
  cbn [andThen]. eapply scanOtherFields_again. exact H.
Qed.

End SettingsTwice.

(** * The erasure coding parameters of an upload *)

Section UploadChecks.

Import handlers.
Local Open Scope Z_scope.

Variable QueryUnescape : string -> option string.
Variable IsAbs : string -> bool.
Variable ParseBool : string -> string + bool.
Variable scanInt : string -> string + Z.
Variable showParity : Z -> Z -> string.
Variable showRedundancy : float -> float -> string.
Variable ErasureCoder : Type.
Variable NewRSCode : Z -> Z -> string + ErasureCoder.

Abbreviation scanErasureCode :=
  (scanErasureCode build.Standard scanInt showParity showRedundancy ErasureCoder NewRSCode).

(** X27: On a Standard build, for a number d of data pieces and a number
    p of parity pieces that both scan and are below 2^52 in magnitude,
    the erasure-coding block of renterUploadHandler calls NewRSCode
    exactly when p >= 12 and either d = 0 or 0 < d <= p; d = 0 passes
    the redundancy check because (d + p) / d is then +Inf, which is not
    below 2; in every other case a bad-request error is written and
    NewRSCode is not called. *)
Theorem erasure_check_of_a_standard_build (req : Form) (d p : Z) :
  req "datapieces"%string <> ""%string -> req "paritypieces"%string <> ""%string ->
  scanInt (req "datapieces"%string) = inr d ->
  scanInt (req "paritypieces"%string) = inr p ->
  - 2 ^ 52 < d < 2 ^ 52 -> p < 2 ^ 52 ->
  (12 <= p /\ (d = 0 \/ 0 < d <= p) ->
   scanErasureCode req =
   match NewRSCode d p with
   | inl err =>
       inl ([CallNewRSCode ErasureCoder d p],
            badRequest ("unable to encode file using the provided parameters: " ++ err)%string)
   | inr ec => inr ([CallNewRSCode ErasureCoder d p], Some ec)
   end)
  /\ (~ (12 <= p /\ (d = 0 \/ 0 < d <= p)) ->
      exists msg, scanErasureCode req = inl ([], badRequest msg)).
Proof.
  intros Hd Hp Sd Sp Bd Bp. unfold handlers.scanErasureCode. cbv zeta.
  destruct (String.eqb_spec (req "datapieces"%string) ""); [contradiction | ].
  destruct (String.eqb_spec (req "paritypieces"%string) ""); [contradiction | ].
  cbn [negb orb]. rewrite Sd, Sp.
  change (requiredParityPieces build.Standard) with 12.
  change (requiredRedundancy build.Standard) with 2%float.
  unfold redundancyOf.
  destruct (Z.ltb_spec p 12) as [Hlt | Hge].
  - split; [intros [H _]; lia | intros _; eexists; reflexivity].
  - rewrite (redundancy_below_two d p Bd ltac:(lia)).
    destruct (Z.eqb_spec d 0) as [-> | Hd0]; cbn [orb negb].
    + split; [intros _; reflexivity | intros H; exfalso; apply H; lia].
    + destruct (Z.ltb_spec 0 d) as [H0 | H0]; cbn [andb negb];
        [destruct (Z.leb_spec d p) as [Hle | Hgt]; cbn [negb] | ].
      * split; [intros _; reflexivity | intros H; exfalso; apply H; lia].
      * split; [intros [_ H]; lia | intros _; eexists; reflexivity].
      * split; [intros [_ H]; lia | intros _; eexists; reflexivity].
Qed.

End UploadChecks.

(** * The score estimate as a whole *)

Section EstimateChecks.

Import modules hostdb.

Variable weightFunc : HostDBEntry -> option types.Currency.
Variable ratFloat64 : N -> N -> float.
Variable Pow : float -> float -> float.
Variable MulFloat : types.Currency -> float -> types.Currency.
Variable DEBUG : bool.
Variable Release : build.ReleaseType.

Abbreviation calculateConversionRate :=
  (conversion.calculateConversionRate weightFunc ratFloat64).
Abbreviation EstimateHostScore :=
  (conversion.EstimateHostScore weightFunc ratFloat64 Pow MulFloat DEBUG Release).

(** The conversion rate is computed whenever the weight function
    returns on every active host, and it is not above 100. *)
Lemma conversion_rate_returns (activeHosts : list HostDBEntry) (score : types.Currency) :
  (forall h, In h activeHosts -> weightFunc h <> None) ->
  exists rate, calculateConversionRate activeHosts score = Some rate
               /\ (100 <? rate)%float = false.
Proof.
  intros Hall. unfold conversion.calculateConversionRate, conversion.totalOf.
  rewrite totalOf_from.
  destruct (forallb (fun h => match weightFunc h with Some _ => true | None => false end)
                    activeHosts) eqn:F.
  - cbn [bind].
    match goal with
    | |- context [fold_left ?f activeHosts 0%N] => generalize (fold_left f activeHosts 0%N)
    end.
    intros t. unfold types.IsZero, types.NewCurrency64.
    destruct (N.eqb_spec t 0) as [E | E];
      [cbn [N.eqb Pos.eqb] | destruct (N.eqb_spec t 0); [contradiction | ]].
    all: eexists; split; [reflexivity | ].
    all: match goal with
         | |- context [(100 <? ratFloat64 ?a ?b)%float] =>
             destruct (100 <? ratFloat64 a b)%float eqn:C
         end; [reflexivity | exact C].
  - apply forallb_false_witness in F as [h [Hin Hh]]. exfalso.
    apply (Hall h Hin). destruct (weightFunc h); [discriminate | reflexivity].
Qed.

(** The conversion rate panics when the weight function panics on an
    active host. *)
Lemma conversion_rate_panics (activeHosts : list HostDBEntry) (score : types.Currency) :
  (exists h, In h activeHosts /\ weightFunc h = None) ->
  calculateConversionRate activeHosts score = None.
Proof.
  intros [h [Hin Hn]]. unfold conversion.calculateConversionRate, conversion.totalOf.
  rewrite totalOf_from.
  destruct (forallb (fun h => match weightFunc h with Some _ => true | None => false end)
                    activeHosts) eqn:F; [ | reflexivity].
  rewrite forallb_forall in F. specialize (F h Hin). rewrite Hn in F. discriminate.
Qed.

(** X10: For a host whose interaction factor and lifetime factor are
    exactly 1 and whose uptime factor is computed as exactly 1,
    EstimateHostScore returns exactly when calculateHostWeightFn returns
    a weight for the same allowance and calculateConversionRate returns
    on that weight; the estimated score is then that weight and the
    conversion rate of the breakdown is the conversion rate of that
    weight. The weight function of the host tree, on which
    calculateConversionRate calls, is any function that may panic. *)
Theorem estimate_is_the_weight_of_an_ideal_host
        (activeHosts : list HostDBEntry) (hdb : HostDB) (allowance : Allowance)
        (entry : HostDBEntry) :
  interactionAdjustments Pow entry = 1%float ->
  lifetimeAdjustments hdb entry = 1%float ->
  uptimeAdjustments Pow DEBUG entry = Some 1%float ->
  option_map (fun estimate => (Score (fst estimate), snd estimate))
             (EstimateHostScore activeHosts hdb entry allowance)
  = (weight <- calculateHostWeightFn Pow MulFloat DEBUG Release hdb allowance entry ;;
     rate <- calculateConversionRate activeHosts weight ;;
     Some (weight, rate)).
Proof.
  intros Hi Hl Hu.
  unfold conversion.EstimateHostScore, hostdb.EstimateHostScore, calculateHostWeightFn.
  rewrite Hi, Hl, Hu.
  destruct (collateralAdjustments Pow entry allowance expectedStorage) as [c | ];
    [ | reflexivity]. cbn [bind].
  destruct (priceAdjustments Pow DEBUG entry allowance expectedStorage
              expectedUploadFrequency expectedDownloadFrequency) as [p | ];
    [ | reflexivity]. cbn [bind Score]. cbv zeta.
  unfold fullPenaltyOf, versionAdjustments. rewrite !mul_one_r_any.
  match goal with
  | |- context [types.IsZero ?w] => destruct (types.IsZero w)
  end; cbn [bind];
    match goal with
    | |- context [calculateConversionRate activeHosts ?s] =>
        destruct (calculateConversionRate activeHosts s)
    end; reflexivity.
Qed.

(** X11: EstimateHostScore panics when the period of the allowance is
    zero, and it panics when the weight function of the host tree panics
    on an active host, because it calls calculateConversionRate; for an
    allowance with a period and a weight function that returns on every
    active host it returns a breakdown whose score is at least 1, whose
    age, uptime and burn adjustments are 1, whose interaction adjustment
    is left at zero and whose conversion rate is not above 100.
    Currency.MulFloat, which is not among the sources, is taken as a
    function that returns a currency for every float. *)
Theorem estimate_returns_unless_period_is_zero
        (activeHosts : list HostDBEntry) (hdb : HostDB) (allowance : Allowance)
        (entry : HostDBEntry) :
  (Period allowance = 0%N -> EstimateHostScore activeHosts hdb entry allowance = None)
  /\ ((exists h, In h activeHosts /\ weightFunc h = None) ->
      EstimateHostScore activeHosts hdb entry allowance = None)
  /\ (Period allowance <> 0%N ->
      (forall h, In h activeHosts -> weightFunc h <> None) ->
      exists (b : HostScoreBreakdown) (rate : float),
        EstimateHostScore activeHosts hdb entry allowance = Some (b, rate)
        /\ (1 <= Score b)%N
        /\ AgeAdjustment b = 1%float /\ UptimeAdjustment b = 1%float
        /\ BurnAdjustment b = 1%float /\ InteractionAdjustment b = 0%float
        /\ (100 <? rate)%float = false).
Proof.
  unfold conversion.EstimateHostScore, hostdb.EstimateHostScore.
  destruct (collateralAdjustments_returns Pow entry allowance expectedStorage) as [c ->].
  cbn [bind]. split; [ | split].
  - intros Hp. now rewrite priceAdjustments_zero_period.
  - intros Hn.
    destruct (priceAdjustments Pow DEBUG entry allowance expectedStorage
                expectedUploadFrequency expectedDownloadFrequency) as [p | ];
      [ | reflexivity].
    cbn [bind Score]. cbv zeta. now rewrite (conversion_rate_panics activeHosts _ Hn).
  - intros Hp Hall.
    destruct (priceAdjustments_returns Pow DEBUG entry allowance Hp) as [p ->].
    cbn [bind Score]. cbv zeta.
    set (w := MulFloat baseWeight (c * p * storageRemainingAdjustments Release entry
                                   * versionAdjustments entry)).
    destruct (conversion_rate_returns activeHosts
                (if types.IsZero w then types.NewCurrency64 1 else w) Hall)
      as [rate [-> Hrate]].
    cbn [bind]. eexists. exists rate. split; [reflexivity | ].
    cbn [Score AgeAdjustment UptimeAdjustment BurnAdjustment InteractionAdjustment].
    repeat split; try exact Hrate.
    unfold types.IsZero, types.NewCurrency64. destruct (N.eqb_spec w 0); lia.
Qed.

End EstimateChecks.

(** * The theorems at concrete inputs *)

Lemma lifetime_grows_with_age_witness :
  let entry := Requests.seenAt 0 in
  F64.is_positive_finite (hostdb.lifetimeAdjustments (Examples.hdbAt 100) entry) = true
  /\ (hostdb.lifetimeAdjustments (Examples.hdbAt 100) entry
      <=? hostdb.lifetimeAdjustments (Examples.hdbAt 20000) entry)%float = true
  /\ (hostdb.lifetimeAdjustments (Examples.hdbAt 20000) entry <=? 1)%float = true
  /\ ((12000 <= hostdb.blockHeight (Examples.hdbAt 20000) - modules.FirstSeen entry)%N ->
      hostdb.lifetimeAdjustments (Examples.hdbAt 20000) entry = 1%float).
Proof.
  apply (lifetime_grows_with_age (Requests.seenAt 0) (Examples.hdbAt 100)
           (Examples.hdbAt 20000)); apply N.leb_le; reflexivity.
Defined.

Lemma lifetime_of_a_host_from_the_future_witness :
  let entry := Requests.seenAt 500 in
  hostdb.lifetimeAdjustments (Examples.hdbAt 100) entry = 1%float
  /\ (hostdb.lifetimeAdjustments {| hostdb.blockHeight := modules.FirstSeen entry |} entry
      <? 0.00103)%float = true.
Proof.
  apply (lifetime_of_a_host_from_the_future (Requests.seenAt 500) (Examples.hdbAt 100)).
  apply N.ltb_lt. reflexivity.
Defined.

Lemma threeGoodScans_chronological : Spec.chronological Examples.threeGoodScans.
Proof.
  unfold Spec.chronological, Examples.threeGoodScans.
  repeat constructor; cbn; unfold Examples.hour; lia.
Qed.

Lemma measured_time_is_historic_plus_span_witness :
  let s0 := {| modules.Timestamp := 0%Z; modules.Success := true |} in
  let rest := [ {| modules.Timestamp := Examples.hour; modules.Success := true |};
                {| modules.Timestamp := (2 * Examples.hour)%Z; modules.Success := true |} ] in
  exists t,
    hostdb.measure true Examples.matureHost s0 rest = Some t
    /\ (hostdb.uptime t + hostdb.downtime t
        = modules.HistoricUptime Examples.matureHost
          + modules.HistoricDowntime Examples.matureHost
          + (modules.Timestamp (last rest s0) - modules.Timestamp s0))%Z
    /\ (modules.HistoricUptime Examples.matureHost <= hostdb.uptime t)%Z
    /\ (modules.HistoricDowntime Examples.matureHost <= hostdb.downtime t)%Z
    /\ (forallb modules.Success (removelast (s0 :: rest)) = true ->
        hostdb.downtime t = modules.HistoricDowntime Examples.matureHost)
    /\ (forallb (fun s => negb (modules.Success s)) (removelast (s0 :: rest)) = true ->
        hostdb.uptime t = modules.HistoricUptime Examples.matureHost).
Proof.
  apply (measured_time_is_historic_plus_span true Examples.matureHost
           {| modules.Timestamp := 0%Z; modules.Success := true |}
           [ {| modules.Timestamp := Examples.hour; modules.Success := true |};
             {| modules.Timestamp := (2 * Examples.hour)%Z; modules.Success := true |} ]).
  - exact threeGoodScans_chronological.
  - apply Z.leb_le. reflexivity.
  - apply Z.leb_le. reflexivity.
  - apply Z.leb_le. reflexivity.
Defined.

Lemma uptime_of_scans_at_one_instant_witness :
  hostdb.uptimeAdjustments math.Pow true Requests.scannedAtOnce = Some 0.001%float.
Proof.
  apply (uptime_of_scans_at_one_instant math.Pow true Requests.scannedAtOnce).
  - apply Nat.leb_le. reflexivity.
  - intros s [<- | [<- | [<- | []]]]; reflexivity.
  - reflexivity.
  - reflexivity.
Defined.

Lemma price_factor_is_flat_at_both_ends_witness :
  let entry := Examples.pricedAt hostdb.minTotalPrice 0%float [] in
  let allowance := Examples.allowanceOf 0 1 1 in
  let total := Spec.total_price entry (modules.Period allowance) hostdb.expectedStorage
                 hostdb.expectedUploadFrequency hostdb.expectedDownloadFrequency in
  ((total <= hostdb.minTotalPrice)%N ->
   hostdb.priceAdjustments math.Pow false entry allowance hostdb.expectedStorage
     hostdb.expectedUploadFrequency hostdb.expectedDownloadFrequency
   = Some (math.Pow 1 5))
  /\ ((F64.MaxUint64 < total / hostdb.priceDivNormalization)%N ->
      hostdb.priceAdjustments math.Pow false entry allowance hostdb.expectedStorage
        hostdb.expectedUploadFrequency hostdb.expectedDownloadFrequency
      = Some (math.Pow (100006 / 18446744073709551615)%float 5)).
Proof.
  apply (price_factor_is_flat_at_both_ends math.Pow false
           (Examples.pricedAt hostdb.minTotalPrice 0%float [])
           (Examples.allowanceOf 0 1 1) hostdb.expectedStorage
           hostdb.expectedUploadFrequency hostdb.expectedDownloadFrequency);
    discriminate.
Defined.

Lemma collateral_ratio_is_at_most_one_witness :
  let entry := Examples.smallCollateral in
  let allowance := Examples.allowanceOf 0 1 1 in
  let scored := N.max (modules.Collateral entry)
                  (modules.MaxCollateral entry
                   / (2 * hostdb.orOne (modules.Period allowance)
                      * hostdb.orOne hostdb.expectedStorage))%N in
  let fundsCutoff := (modules.Funds allowance / hostdb.orOne (modules.Hosts allowance)
                      / hostdb.orOne (modules.Period allowance)
                      / hostdb.orOne hostdb.expectedStorage / 3)%N in
  let cutoff := N.max fundsCutoff scored in
  let collateral64 := (scored / hostdb.priceDivNormalization)%N in
  let cutoff64 := hostdb.orOne (cutoff / hostdb.priceDivNormalization)%N in
  hostdb.collateralAdjustments math.Pow entry allowance hostdb.expectedStorage
    = Some (hostdb.collateralWeight math.Pow collateral64 cutoff64)
  /\ (collateral64 <= cutoff64)%N
  /\ (F64.of_N collateral64 / F64.of_N cutoff64 <=? 1)%float = true
  /\ ((fundsCutoff <= scored)%N -> (0 < collateral64)%N ->
      hostdb.collateralWeight math.Pow collateral64 cutoff64
      = (math.Pow (F64.of_N collateral64) hostdb.collateralExponentiationSmall
         * math.Pow 1 hostdb.collateralExponentiationLarge)%float).
Proof.
  apply (collateral_ratio_is_at_most_one math.Pow Examples.smallCollateral
           (Examples.allowanceOf 0 1 1) hostdb.expectedStorage).
  apply N.leb_le. reflexivity.
Defined.

Lemma estimate_is_the_weight_of_an_ideal_host_witness :
  let entry :=
    {| modules.Collateral := 2480%N; modules.MaxCollateral := 0%N;
       modules.ContractPrice := 0%N; modules.StoragePrice := 0%N;
       modules.UploadBandwidthPrice := 0%N; modules.DownloadBandwidthPrice := 0%N;
       modules.RemainingStorage := 0%N; modules.Version := "1.3.2";
       modules.FirstSeen := 0%N; modules.HistoricDowntime := 0%Z;
       modules.HistoricUptime := 0%Z; modules.ScanHistory := Examples.threeGoodScans;
       modules.HistoricFailedInteractions := 0%float;
       modules.HistoricSuccessfulInteractions := 1152921504606846976%float |} in
  let hdb := Examples.hdbAt 20000 in
  let allowance := Examples.allowanceOf 0 1 1 in
  let weightFunc :=
    hostdb.calculateHostWeightFn math.Pow types.MulFloat false build.Standard hdb allowance in
  let activeHosts := [entry; Examples.matureHost] in
  option_map (fun estimate => (modules.Score (fst estimate), snd estimate))
    (conversion.EstimateHostScore weightFunc big.ratFloat64 math.Pow types.MulFloat false
       build.Standard activeHosts hdb entry allowance)
  = (weight <- hostdb.calculateHostWeightFn math.Pow types.MulFloat false build.Standard
                 hdb allowance entry ;;
     rate <- conversion.calculateConversionRate weightFunc big.ratFloat64 activeHosts weight ;;
     Some (weight, rate)).
Proof.
  cbv zeta.
  apply (estimate_is_the_weight_of_an_ideal_host
           (hostdb.calculateHostWeightFn math.Pow types.MulFloat false build.Standard
              (Examples.hdbAt 20000) (Examples.allowanceOf 0 1 1))
           big.ratFloat64 math.Pow types.MulFloat false build.Standard);
    reflexivity.
Defined.

(** ** The daemon *)

Lemma Atoi_rejects_a_colon (s : string) : strconv.Atoi (":" ++ s)%string = None.
Proof. reflexivity. Qed.

Lemma processNetAddr_is_idempotent_witness :
  strconv.Atoi (siad.processNetAddr strconv.Atoi "9980") = None
  /\ siad.processNetAddr strconv.Atoi (siad.processNetAddr strconv.Atoi "9980")
     = siad.processNetAddr strconv.Atoi "9980"
  /\ (strconv.Atoi "9980" <> None ->
      siad.processNetAddr strconv.Atoi "9980" = ":9980"%string).
Proof.
  exact (processNetAddr_is_idempotent strconv.Atoi "9980" Atoi_rejects_a_colon).
Defined.

Lemma joinErrors_none (errs : list (option string)) (sep : string) :
  siad.joinErrors errs sep = None <-> Forall (fun e => e = None) errs.
Proof.
  unfold siad.joinErrors.
  assert (H : flat_map (fun e : option string => match e with
                                                 | Some m => [m]
                                                 | None => []
                                                 end) errs = []
              <-> Forall (fun e => e = None) errs).
  { induction errs as [ | [m | ] errs IH]; cbn [flat_map].
    - split; [constructor | reflexivity].
    - split; [discriminate | intros H; inversion H; discriminate].
    - cbn [app]. rewrite IH. split; [now constructor | now inversion 1]. }
  rewrite <- H. destruct (flat_map _ errs); split; try reflexivity; discriminate.
Qed.

Lemma accepted_config_is_secure_witness :
  let config := Requests.localConfig in
  let config' :=
    fst (siad.processConfig strconv.Atoi netaddr.ToLower netaddr.IsLoopback netaddr.Host
           netaddr.Port siad.joinErrors config) in
  siad.APIaddr (siad.Siad config')
  = siad.processNetAddr strconv.Atoi (siad.APIaddr (siad.Siad config))
  /\ (netaddr.IsLoopback (siad.APIaddr (siad.Siad config')) = false ->
      siad.AllowAPIBind (siad.Siad config') = true
      /\ siad.AuthenticateAPI (siad.Siad config') = true)
  /\ (siad.AllowAPIBind (siad.Siad config') = true ->
      siad.AuthenticateAPI (siad.Siad config') = true)
  /\ siad.Modules (siad.Siad config') = netaddr.ToLower (siad.Modules (siad.Siad config))
  /\ NoDup (list_ascii_of_string (siad.Modules (siad.Siad config')))
  /\ siad.Profile (siad.Siad config') = netaddr.ToLower (siad.Profile (siad.Siad config))
  /\ NoDup (list_ascii_of_string (siad.Profile (siad.Siad config'))).
Proof.
  exact (accepted_config_is_secure strconv.Atoi netaddr.ToLower netaddr.IsLoopback
           netaddr.Host netaddr.Port siad.joinErrors Requests.localConfig
           (fst (siad.processConfig strconv.Atoi netaddr.ToLower netaddr.IsLoopback
                   netaddr.Host netaddr.Port siad.joinErrors Requests.localConfig))
           joinErrors_none eq_refl).
Defined.

(** ** The handlers *)

Lemma accepted_settings_are_validated_witness :
  let req := Requests.form [("hosts", "30"); ("period", "1000")]%string in
  let posted :=
    fst (handlers.renterHandlerPOST fmt.scanUint64 fmt.scanInt fmt.scanFloat64 fmt.scanBool
           fmt.scanAmount fmt.showUint Requests.fallback build.Standard (fun _ => None)
           req Requests.unset) in
  exists s', posted = Some s'
    /\ modules.Hosts (handlers.base (handlers.allowance s')) = 30%N
    /\ modules.Period (handlers.base (handlers.allowance s')) = 1000%N
    /\ modules.RenewWindow (handlers.base (handlers.allowance s')) = 500%N
    /\ (req "hosts"%string <> ""%string ->
        fmt.scanUint64 (req "hosts"%string)
        = inr (modules.Hosts (handlers.base (handlers.allowance s')))
        /\ (modules.Hosts (handlers.base (handlers.allowance s')) = 0%N
            \/ (handlers.requiredHosts build.Standard
                <= modules.Hosts (handlers.base (handlers.allowance s')))%N)).
Proof.
  cbv zeta. eexists. split; [reflexivity | ].
  split; [reflexivity | ]. split; [reflexivity | ]. split; [reflexivity | ].
  exact (proj1 (accepted_settings_are_validated fmt.scanUint64 fmt.scanInt fmt.scanFloat64
                  fmt.scanBool fmt.scanAmount fmt.showUint Requests.fallback build.Standard
                  (fun _ => None)
                  (Requests.form [("hosts", "30"); ("period", "1000")]%string)
                  Requests.unset _ eq_refl)).
Defined.

Lemma only_the_period_is_posted (k : string) :
  k <> "period"%string -> Requests.form [("period", "0")]%string k = ""%string.
Proof.
  intros H. unfold Requests.form. cbn [find fst snd].
  destruct (String.eqb_spec "period" k) as [E | _]; [ | reflexivity].
  exfalso. apply H. now symmetry.
Qed.

Lemma posted_period_of_zero_is_accepted_witness :
  exists s',
    fst (handlers.renterHandlerPOST fmt.scanUint64 fmt.scanInt fmt.scanFloat64 fmt.scanBool
           fmt.scanAmount fmt.showUint Requests.fallback build.Standard (fun _ => None)
           (Requests.form [("period", "0")]%string) Requests.configured) = Some s'
    /\ modules.Period (handlers.base (handlers.allowance s')) = 0%N
    /\ (modules.RenewWindow (handlers.base (handlers.allowance Requests.configured)) = 0%N ->
        modules.RenewWindow (handlers.base (handlers.allowance s')) = 0%N)
    /\ forall Pow MulFloat DEBUG hdb entry,
        hostdb.calculateHostWeightFn Pow MulFloat DEBUG build.Standard hdb
          (handlers.base (handlers.allowance s')) entry = None.
Proof.
  apply (posted_period_of_zero_is_accepted fmt.scanUint64 fmt.scanInt fmt.scanFloat64
           fmt.scanBool fmt.scanAmount fmt.showUint Requests.fallback build.Standard
           (fun _ => None) (Requests.form [("period", "0")]%string) Requests.configured).
  - exact only_the_period_is_posted.
  - discriminate.
  - reflexivity.
Defined.

Lemma empty_post_keeps_complete_settings_witness :
  fst (handlers.renterHandlerPOST fmt.scanUint64 fmt.scanInt fmt.scanFloat64 fmt.scanBool
         fmt.scanAmount fmt.showUint Requests.fallback build.Standard (fun _ => None)
         (Requests.form []) Requests.configured) = Some Requests.configured.
Proof.
  apply (empty_post_keeps_complete_settings fmt.scanUint64 fmt.scanInt fmt.scanFloat64
           fmt.scanBool fmt.scanAmount fmt.showUint Requests.fallback build.Standard
           (fun _ => None) (Requests.form []) Requests.configured);
    try discriminate; reflexivity.
Defined.

Lemma posting_settings_twice_is_posting_once_witness :
  let post :=
    handlers.renterHandlerPOST fmt.scanUint64 fmt.scanInt fmt.scanFloat64 fmt.scanBool
      fmt.scanAmount fmt.showUint Requests.fallback build.Standard (fun _ => None)
      (Requests.form [("hosts", "30"); ("period", "1000")]%string) in
  let s' := match fst (post Requests.unset) with
            | Some s => s
            | None => Requests.unset
            end in
  fst (post Requests.unset) = Some s' /\ fst (post s') = Some s'.
Proof.
  cbv zeta. split; [reflexivity | ].
  apply (posting_settings_twice_is_posting_once fmt.scanUint64 fmt.scanInt fmt.scanFloat64
           fmt.scanBool fmt.scanAmount fmt.showUint Requests.fallback build.Standard
           (fun _ => None) (Requests.form [("hosts", "30"); ("period", "1000")]%string)
           Requests.unset).
  reflexivity.
Defined.

Lemma isZeroValue_sound (x : modules.Allowance) :
  Requests.isZeroValue x = true -> x = handlers.zeroAllowance.
Proof.
  destruct x as [f h p r]. unfold Requests.isZeroValue. cbn.
  intros H. apply andb_prop in H as [H Hr]. apply andb_prop in H as [H Hp].
  apply andb_prop in H as [Hf Hh].
  apply N.eqb_eq in Hf, Hh, Hp, Hr. now subst.
Qed.

Lemma estimated_allowance_is_empty_or_complete_witness :
  let a := {| modules.Funds := 1000%N; modules.Hosts := 30%N;
              modules.Period := 1000%N; modules.RenewWindow := 500%N |} in
  a = handlers.zeroAllowance
  \/ (modules.Funds a <> 0%N /\ modules.Period a <> 0%N
      /\ (handlers.requiredHosts build.Standard <= modules.Hosts a)%N
      /\ (handlers.requiredRenewWindow build.Standard <= modules.RenewWindow a)%N
      /\ modules.Hosts a <> 0%N /\ modules.RenewWindow a <> 0%N).
Proof.
  exact (estimated_allowance_is_empty_or_complete fmt.scanUint64 fmt.scanAmount fmt.showUint
           Requests.fallback build.Standard unit (fun a => inr (tt, a)) Requests.isZeroValue
           (Requests.form [("funds", "1000"); ("hosts", "30"); ("period", "1000");
                           ("renewwindow", "500")]%string)
           {| modules.Funds := 1000%N; modules.Hosts := 30%N;
              modules.Period := 1000%N; modules.RenewWindow := 500%N |}
           isZeroValue_sound eq_refl).
Defined.

Lemma async_handler_never_downloads_synchronously_witness :
  let handler :=
    handlers.renterDownloadAsyncHandler fmt.scanUint64 (fun s => inr s) fmt.scanBool
      (fun err context => (context ++ ": " ++ err)%string) (fun _ => None) (fun _ => None)
      (Requests.form [("destination", "/tmp/file")]%string) "/file" in
  (fst handler = [] /\ exists msg,
      snd handler = Some (handlers.WriteError msg handlers.StatusBadRequest))
  \/ (exists p,
        fst handler = [handlers.CallDownloadAsync p]
        /\ handlers.Async p = true
        /\ handlers.DownloadPath p = handlers.trimSlash "/file"
        /\ fmt.scanBool (Requests.form [("destination", "/tmp/file")]%string "httpresp"%string)
           = inr (handlers.Httpwriter p)
        /\ snd handler = match (fun _ : handlers.RenterDownloadParameters => @None string) p with
                         | Some e =>
                             Some (handlers.WriteError ("download failed: " ++ e)%string
                                                       handlers.StatusInternalServerError)
                         | None =>
                             if handlers.Httpwriter p then None
                             else Some handlers.WriteSuccess
                         end).
Proof.
  exact (async_handler_never_downloads_synchronously fmt.scanUint64 (fun s => inr s)
           fmt.scanBool (fun err context => (context ++ ": " ++ err)%string)
           (fun _ => None) (fun _ => None)
           (Requests.form [("destination", "/tmp/file")]%string) "/file" eq_refl).
Defined.

Lemma unreadable_pool_parameter_resets_the_settings_witness :
  let req := Requests.form [("networkport", "x")]%string in
  let current := {| pool.PoolWallet := 7%N; pool.PoolNetworkPort := 3333%Z;
                    pool.PoolName := "pool"; pool.PoolID := 1%N;
                    pool.PoolDBConnection := "db" |} in
  pool.parsePoolSettings (fun _ => None) fmt.scanInt (fun _ => None) req current
  = (pool.zeroSettings, None, [])
  /\ pool.poolConfigHandlerPOST (fun _ => None) fmt.scanInt (fun _ => None) req current
     = ([pool.zeroSettings], handlers.WriteSuccess)
  /\ pool.poolConfigHandler (fun _ => None) fmt.scanInt (fun _ => None) req current
     = ([], handlers.WriteJSON {| pool.Name := ""; pool.NetworkPort := 0;
                                  pool.DBConnection := ""; pool.ConfigPoolID := 0;
                                  pool.ConfigPoolWallet := 0; pool.OperatorWallet := 0 |}).
Proof.
  apply (unreadable_pool_parameter_resets_the_settings (fun _ => None) fmt.scanInt
           (fun _ => None) (Requests.form [("networkport", "x")]%string)
           {| pool.PoolWallet := 7%N; pool.PoolNetworkPort := 3333%Z;
              pool.PoolName := "pool"; pool.PoolID := 1%N;
              pool.PoolDBConnection := "db" |}).
  right. left. split; [discriminate | ]. eexists. reflexivity.
Defined.

Lemma erasure_check_of_a_standard_build_witness :
  let req := Requests.form [("datapieces", "10"); ("paritypieces", "30")]%string in
  ((12 <= 30 /\ (10 = 0 \/ 0 < 10 <= 30))%Z ->
   handlers.scanErasureCode build.Standard fmt.scanInt (fun _ _ => ""%string)
     (fun _ _ => ""%string) unit (fun _ _ => inr tt) req
   = inr ([handlers.CallNewRSCode unit 10 30], Some tt))
  /\ (~ (12 <= 30 /\ (10 = 0 \/ 0 < 10 <= 30))%Z ->
      exists msg,
        handlers.scanErasureCode build.Standard fmt.scanInt (fun _ _ => ""%string)
          (fun _ _ => ""%string) unit (fun _ _ => inr tt) req
        = inl ([], handlers.badRequest msg)).
Proof.
  apply (erasure_check_of_a_standard_build fmt.scanInt (fun _ _ => ""%string)
           (fun _ _ => ""%string) unit (fun _ _ => inr tt)
           (Requests.form [("datapieces", "10"); ("paritypieces", "30")]%string) 10 30);
    try discriminate; try reflexivity.
  split; reflexivity.
Defined.
